(** * SimpleSwap probe runners: a shallow embedding and its properties

    The repository holds two Playwright scripts, [test-simpleswap.py]
    (class [SimpleSwapTester], "the basic variant") and
    [adaptive-tester.py] (class [AdaptiveSimpleSwapTester], "the adaptive
    variant").  Both drive a browser through a list of strategies, record
    one dictionary per probe in [self.results] and dump them as JSON.

    The embedding is a state-and-exception monad over the tester object and
    an effect trace.  The browser is an oracle: for each browsing context it
    says what every awaited page operation answers (a value or an
    exception), which console messages arrive and where the page navigates
    while the coroutine is suspended.  [print] calls are left out, except
    the line that announces an attempt, which is kept in the trace.

    There are two layers.  The first one, up to the module [Browsers],
    follows the statements inside the [try] blocks: the operations that
    may raise are the page operations awaited there, every exception is an
    instance of [Exception] known by its [str], and launching the browser,
    creating a context and its page, closing a context and writing the
    JSON file are steps that answer.  The second one, the module
    [Browsers], puts the [try] statements back between the operations
    around them: each of those operations is asked for its answer and may
    raise, before the [try], in the [finally] clause or at the end of the
    run, and an exception has its class, so that one which
    [except Exception] does not match (asyncio.CancelledError) can be
    followed.  A statement about what leaves an attempt or a run is made
    in the second layer. *)

From Stdlib Require Import String Ascii List ZArith Lia Bool Arith DecimalString
  RelationClasses.
Import ListNotations.
Local Open Scope string_scope.
Local Open Scope list_scope.
Local Open Scope nat_scope.

(** Concatenation of strings, as in an f-string. *)
Infix "+++" := String.append (right associativity, at level 60).

(** ** Python strings, lists and dictionaries *)

Module Py.

(** [needle in hay] on strings. *)
Fixpoint contains (needle hay : string) : bool :=
  if String.prefix needle hay then true
  else match hay with
       | EmptyString => false
       | String _ hay' => contains needle hay'
       end.

(** [str.lower()] on the ASCII letters; strings are UTF-8 byte strings and
    the needles searched for after lowering are ASCII words without the
    letter k, so the bytes that matter are the ASCII capitals. *)
Definition lower_ascii (c : ascii) : ascii :=
  let n := nat_of_ascii c in
  if (65 <=? n) && (n <=? 90) then ascii_of_nat (n + 32) else c.

Fixpoint lower (s : string) : string :=
  match s with
  | EmptyString => EmptyString
  | String c s' => String (lower_ascii c) (lower s')
  end.

(** [str(n)] for integers, as in an f-string. *)
Definition str_nat (n : nat) : string := NilZero.string_of_uint (Nat.to_uint n).
Definition str_int (z : Z) : string := NilZero.string_of_int (Z.to_int z).

(** [l[-n:]] for a positive literal [n]. *)
Definition last_n {A : Type} (n : nat) (l : list A) : list A :=
  skipn (length l - n) l.

(** [l[-1]] of a list known to be non-empty, [None] on the empty list. *)
Definition last_item {A : Type} (l : list A) : option A :=
  match rev l with
  | [] => None
  | x :: _ => Some x
  end.

(** [enumerate(l)]. *)
Definition enumerate {A : Type} (l : list A) : list (nat * A) :=
  combine (seq 0 (length l)) l.

(** JSON-like values stored in the result dictionaries.  [VTime t] stands
    for [datetime.now().isoformat()] read at clock value [t]. *)
Inductive Value : Type :=
| VStr (s : string)
| VBool (b : bool)
| VNat (n : nat)
| VTime (t : Z)
| VList (l : list string).

(** A dict literal, in insertion order. *)
Definition Dict : Type := list (string * Value).

Fixpoint get (k : string) (d : Dict) : option Value :=
  match d with
  | [] => None
  | (k', v) :: d' => if String.eqb k k' then Some v else get k d'
  end.

Definition keys (d : Dict) : list string := map fst d.

(** Truth value of [d.get(k)] in a condition. *)
Definition truthy (v : option Value) : bool :=
  match v with
  | None => false
  | Some (VBool b) => b
  | Some (VStr s) => negb (String.eqb s "")
  | Some (VNat n) => negb (n =? 0)
  | Some (VTime _) => true
  | Some (VList l) => match l with [] => false | _ => true end
  end.

(** The list of strings that an entry holds under [k]; an entry that holds
    no list there has none.  (Used to speak about recorded entries; the
    scripts' own iteration over [r.get("console_logs", [])] is
    [has_error_log] below.) *)
Definition get_list (k : string) (d : Dict) : list string :=
  match get k d with
  | Some (VList l) => l
  | _ => []
  end.

End Py.
Import Py.

(** ** Effects *)

(** Program points that suspend on [asyncio.sleep]. *)
Inductive SleepSite : Type :=
| Settle          (* basic: after the buy button appeared *)
| CacheWait       (* adaptive: wait_for_cache_update *)
| IframeWait      (* basic: iframe strategy, after the click *)
| FrameWait       (* basic: iframe content accessible *)
| RedirectWait    (* after the click *)
| MonitorWait     (* one polling iteration *)
| RetryWait       (* adaptive: before the retry *)
| BetweenStrategies.

Definition SleepSite_eqb (a b : SleepSite) : bool :=
  match a, b with
  | Settle, Settle | CacheWait, CacheWait | IframeWait, IframeWait
  | FrameWait, FrameWait | RedirectWait, RedirectWait
  | MonitorWait, MonitorWait | RetryWait, RetryWait
  | BetweenStrategies, BetweenStrategies => true
  | _, _ => false
  end.

(** The observable effects of a run, in program order. *)
Inductive Event : Type :=
| EvTesting (strategy : string) (attempt : option nat)
    (* the "Testing strategy" line; the adaptive variant prints the attempt *)
| EvOpen (c : nat)                  (* browser.new_context() has answered *)
| EvClose (c : nat)                 (* context.close() *)
| EvGoto (c : nat) (url : string)   (* page.goto(url, ...) *)
| EvClick (c : nat)                 (* page.click("#buy-button") *)
| EvSleep (site : SleepSite) (secs : nat)
| EvScreenshot (c : nat) (path : string) (full_page : bool)
| EvDump (path : string).           (* json.dump to the results file *)

(** What an awaited call answers. *)
Inductive Answer (T : Type) : Type :=
| Done (v : T)
| Throws (e : string).
Arguments Done {T} v.
Arguments Throws {T} e.

(** One suspension of the coroutine on a page: the console messages
    [(type, text)] that arrive meanwhile, the URL the page navigates to
    meanwhile (if it navigates), and the answer. *)
Record Await (T : Type) : Type := mkAwait {
  aw_console : list (string * string);
  aw_url : option string;
  aw_answer : Answer T
}.
Arguments mkAwait {T}.
Arguments aw_console {T}.
Arguments aw_url {T}.
Arguments aw_answer {T}.

(** An element handle. *)
Record Elem : Type := mkElem {
  el_type : Await (option string);    (* get_attribute("type") *)
  el_value : Await string;            (* input_value() *)
  el_text : Await (option string);    (* text_content() *)
  el_class : Await (option string)    (* get_attribute("class") *)
}.

(** The locals of one probe attempt that the event loop or the monitoring
    loop updates: [page.url], the [console_logs] list filled by the
    console handler (once registered), and the two flags of
    [monitor_simpleswap_with_learning]. *)
Record Live : Type := mkLive {
  url : string;
  console_logs : list string;
  listening : bool;
  amount_found : bool;
  provider_found : bool
}.

Record Insight : Type := mkInsight {
  i_timestamp : Z;
  i_insight : string
}.

(** The tester object and the run-time state around it. *)
Record State : Type := mkState {
  strategies : list string;          (* self.strategies *)
  results : list Dict;               (* self.results *)
  learned_insights : list Insight;   (* self.learned_insights (adaptive) *)
  events : list Event;
  next_ctx : nat;                    (* contexts created so far *)
  clock_reads : nat;                 (* clock readings so far *)
  live : nat -> Live
}.

(** How a block of statements ends: normally, by an exception (its [str]),
    or by a [return] statement. *)
Inductive Outcome (A : Type) : Type :=
| Ok (a : A)
| Raise (e : string)
| Returned.
Arguments Ok {A} a.
Arguments Raise {A} e.
Arguments Returned {A}.

Definition M (A : Type) : Type := State -> Outcome A * State.

Definition ret {A : Type} (a : A) : M A := fun st => (Ok a, st).

Definition bind {A B : Type} (m : M A) (f : A -> M B) : M B :=
  fun st =>
    match m st with
    | (Ok a, st') => f a st'
    | (Raise e, st') => (Raise e, st')
    | (Returned, st') => (Returned, st')
    end.

Notation "x <- m ;; k" := (bind m (fun x => k))
  (at level 61, m at next level, right associativity).
Notation "m ;; k" := (bind m (fun _ => k))
  (at level 61, right associativity).

Definition raise {A : Type} (e : string) : M A := fun st => (Raise e, st).

(** [return] inside a function body. *)
Definition return_ {A : Type} : M A := fun st => (Returned, st).

(** The body of a [def] that returns no value. *)
Definition def_ (body : M unit) : M unit :=
  fun st =>
    match body st with
    | (Returned, st') => (Ok tt, st')
    | r => r
    end.

(** [try: body / except Exception as e: handler (str e)], for the
    exceptions of this layer: they are instances of [Exception], so the
    clause matches each of them.  [Browsers.try_except'] is the statement
    with the classes. *)
Definition try_except {A : Type} (body : M A) (handler : string -> M A) : M A :=
  fun st =>
    match body st with
    | (Raise e, st') => handler e st'
    | r => r
    end.

(** [try: body / finally: fin]. *)
Definition try_finally {A : Type} (body : M A) (fin : M unit) : M A :=
  fun st =>
    match body st with
    | (r, st') =>
        match fin st' with
        | (Ok _, st'') => (r, st'')
        | (Raise e, st'') => (Raise e, st'')
        | (Returned, st'') => (Returned, st'')
        end
    end.

(** [try: body / except Exception: continue] inside a loop body. *)
Definition swallow (body : M unit) : M unit :=
  try_except body (fun _ => ret tt).

(** [for x in l: body x]. *)
Fixpoint for_each {A : Type} (l : list A) (body : A -> M unit) : M unit :=
  match l with
  | [] => ret tt
  | x :: l' => body x ;; for_each l' body
  end.

Definition when (b : bool) (m : M unit) : M unit :=
  if b then m else ret tt.

(** [sum(1 for x in l if p(x))], where the test may raise. *)
Fixpoint count_if {A : Type} (l : list A) (p : A -> M bool) : M nat :=
  match l with
  | [] => ret 0
  | x :: l' =>
      b <- p x ;;
      n <- count_if l' p ;;
      ret (if b then S n else n)
  end.

(** *** State accessors *)

Definition set_results (f : list Dict -> list Dict) (st : State) : State :=
  mkState (strategies st) (f (results st)) (learned_insights st) (events st)
          (next_ctx st) (clock_reads st) (live st).

Definition set_insights (f : list Insight -> list Insight) (st : State) : State :=
  mkState (strategies st) (results st) (f (learned_insights st)) (events st)
          (next_ctx st) (clock_reads st) (live st).

Definition set_events (f : list Event -> list Event) (st : State) : State :=
  mkState (strategies st) (results st) (learned_insights st) (f (events st))
          (next_ctx st) (clock_reads st) (live st).

Definition set_live (c : nat) (f : Live -> Live) (st : State) : State :=
  mkState (strategies st) (results st) (learned_insights st) (events st)
          (next_ctx st) (clock_reads st)
          (fun c' => if c' =? c then f (live st c') else live st c').

Definition gets {A : Type} (f : State -> A) : M A := fun st => (Ok (f st), st).

Definition modify (f : State -> State) : M unit := fun st => (Ok tt, f st).

Definition emit (ev : Event) : M unit := modify (set_events (fun evs => evs ++ [ev])).

(** [self.results.append(r)]. *)
Definition append_result (r : Dict) : M unit :=
  modify (set_results (fun rs => rs ++ [r])).

(** A page that has just been created. *)
Definition fresh_live : Live := mkLive "about:blank" [] false false false.

(** [context = await browser.new_context(); page = await context.new_page()]
    when both calls answer: the state in which the [try] block starts.
    [Browsers.new_context] and [Browsers.new_page] are the two calls, each
    with its answer. *)
Definition new_context : M nat :=
  fun st =>
    let c := next_ctx st in
    (Ok c,
     mkState (strategies st) (results st) (learned_insights st)
             (events st ++ [EvOpen c]) (S c) (clock_reads st)
             (fun c' => if c' =? c then fresh_live else live st c')).

(** [await context.close()]: the call is made.  [Browsers.close] has its
    answer as well. *)
Definition close (c : nat) : M unit := emit (EvClose c).

(** The console handler of both scripts: [console_logs.append(f"[{msg.type}] {msg.text}")]. *)
Definition log_console (msg : string * string) : string :=
  "[" +++ fst msg +++ "] " +++ snd msg.

(** What happens to the page's locals while the coroutine is suspended. *)
Definition deliver {T : Type} (a : Await T) (lv : Live) : Live :=
  mkLive (match aw_url a with Some u => u | None => url lv end)
         (if listening lv then console_logs lv ++ map log_console (aw_console a)
          else console_logs lv)
         (listening lv) (amount_found lv) (provider_found lv).

(** [await] of a page operation. *)
Definition await_ {T : Type} (c : nat) (a : Await T) : M T :=
  fun st =>
    (match aw_answer a with
     | Done v => Ok v
     | Throws e => Raise e
     end,
     set_live c (deliver a) st).

(** [await asyncio.sleep(secs)] while page [c] is live; a sleep does not
    raise, so the answer of [a] is not looked at. *)
Definition sleep_on (c : nat) (site : SleepSite) (secs : nat) (a : Await unit) : M unit :=
  emit (EvSleep site secs) ;;
  modify (set_live c (deliver a)).

(** [await asyncio.sleep(secs)] with no page open. *)
Definition sleep (site : SleepSite) (secs : nat) : M unit :=
  emit (EvSleep site secs).

(** [console_logs = []] and [page.on("console", log_console)]. *)
Definition listen (c : nat) : M unit :=
  modify (set_live c (fun lv =>
    mkLive (url lv) [] true (amount_found lv) (provider_found lv))).

(** [await page.goto(url, ...)]: on success the page is at [url], unless it
    was redirected meanwhile. *)
Definition goto (c : nat) (u : string) (a : Await unit) : M unit :=
  emit (EvGoto c u) ;;
  modify (set_live c (fun lv =>
    match aw_answer a with
    | Done _ => mkLive u (console_logs lv) (listening lv) (amount_found lv) (provider_found lv)
    | Throws _ => lv
    end)) ;;
  await_ c a.

Definition page_url (c : nat) : M string := gets (fun st => url (live st c)).

Definition get_console (c : nat) : M (list string) :=
  gets (fun st => console_logs (live st c)).

(** [d[k]] on a dictionary. *)
Definition item (k : string) (d : Dict) : M Value :=
  match get k d with
  | Some v => ret v
  | None => raise ("'" +++ k +++ "'")
  end.

(** [text[:n]] on the result of [text_content()], which is [None] for a
    node without text: slicing [None] raises TypeError. *)
Definition slice_text (text : option string) : M unit :=
  match text with
  | Some _ => ret tt
  | None => raise "'NoneType' object is not subscriptable"
  end.

Definition base_url : string := "https://blinds123.github.io/simpleswap-realtime-test".

Definition the_strategies : list string :=
  ["basic"; "withProvider"; "buyInterface"; "fixedRate";
   "withWallet"; "buySell"; "allLocks"; "altCurrency";
   "directMercuryo"; "iframe"].

(** The screenshot path of both monitoring functions. *)
Definition screenshot_path (strategy : string) (t : Z) : string :=
  "/tmp/simpleswap_" +++ strategy +++ "_" +++ str_int t +++ ".png".

(** ** The browser as an oracle *)

(** [clock n] is the [n]-th reading of the system clock (whole seconds);
    [page c] is the script of the page of the [c]-th browsing context. *)
Record World (P : Type) : Type := mkWorld {
  clock : nat -> Z;
  page : nat -> P
}.
Arguments mkWorld {P}.
Arguments clock {P}.
Arguments page {P}.

(** [time.time()] truncated to an integer, or [datetime.now()]. *)
Definition now {P : Type} (w : World P) : M Z :=
  fun st =>
    (Ok (clock w (clock_reads st)),
     mkState (strategies st) (results st) (learned_insights st) (events st)
             (next_ctx st) (S (clock_reads st)) (live st)).

(** The state right after the constructor of either class. *)
Definition new_tester : State :=
  mkState the_strategies [] [] [] 0 0 (fun _ => fresh_live).

(** ** The basic variant: test-simpleswap.py *)

Module SimpleSwapTester.

Record Frame : Type := mkFrame {
  fr_wait : Await unit;                 (* asyncio.sleep(5) *)
  fr_elements : Await (list Elem)       (* query_selector_all("*") *)
}.

Record Iframe : Type := mkIframe {
  if_src : Await (option string);       (* get_attribute("src") *)
  if_content : Await (option Frame)     (* content_frame() *)
}.

Record Container : Type := mkContainer {
  ct_iframe : Await (option Iframe)     (* query_selector("iframe") *)
}.

(** One polling iteration of the monitoring loop. *)
Record Tick : Type := mkTick {
  tk_wait : Await unit;                       (* asyncio.sleep(1) *)
  tk_query : string -> Await (list Elem)      (* query_selector_all(selector) *)
}.

Record Page : Type := mkPage {
  on_goto : Await unit;
  on_wait_selector : Await unit;
  on_settle : Await unit;
  on_debug : Await (option Elem);
  on_click : Await unit;
  on_iframe_wait : Await unit;
  on_container : Await (option Container);
  on_redirect_wait : Await unit;
  on_load_state : Await unit;
  on_monitor : nat -> Tick;
  on_screenshot : Await unit
}.

Definition amount_checks : list string :=
  ["input[type='text']"; "input[type='number']";
   "*[class*='amount']"; "*[class*='price']"; "*[class*='value']"].

Section Run.
Variable w : World Page.

(** Lines 146-178: the polling loop. *)
Definition monitor_loop (c : nat) : M unit :=
  for_each (seq 0 10) (fun i =>
    let tick := on_monitor (page w c) i in
    sleep_on c MonitorWait 1 (tk_wait tick) ;;
    for_each amount_checks (fun selector =>
      elements <- await_ c (tk_query tick selector) ;;
      for_each elements (fun element =>
        swallow (
          ty <- await_ c (el_type element) ;;
          _ <- (match ty with
                | Some t =>
                    if String.eqb t "text" || String.eqb t "number"
                    then v <- await_ c (el_value element) ;; ret (Some v)
                    else ret None
                | None => ret None
                end) ;;
          _ <- await_ c (el_text element) ;;
          ret tt))) ;;
    provider_elements <- await_ c (tk_query tick "*") ;;
    for_each (firstn 100 provider_elements) (fun element =>
      swallow (
        t <- await_ c (el_text element) ;;
        let text := match t with Some s => s | None => "" end in
        if contains "mercuryo" (lower text) || contains "moonpay" (lower text)
        then _ <- await_ c (el_class element) ;; ret tt
        else ret tt))).

(** Lines 136-183. *)
Definition monitor_simpleswap_page (c : nat) (strategy : string) : M unit :=
  def_ (
    monitor_loop c ;;
    t <- now w ;;
    emit (EvScreenshot c (screenshot_path strategy t) false) ;;
    await_ c (on_screenshot (page w c))).

(** Lines 60-89: the iframe strategy after the click. *)
Definition watch_iframe (c : nat) : M unit :=
  sleep_on c IframeWait 3 (on_iframe_wait (page w c)) ;;
  iframe_container <- await_ c (on_container (page w c)) ;;
  match iframe_container with
  | Some container =>
      iframe <- await_ c (ct_iframe container) ;;
      match iframe with
      | Some fr =>
          _ <- await_ c (if_src fr) ;;
          swallow (
            iframe_content <- await_ c (if_content fr) ;;
            match iframe_content with
            | Some frame =>
                sleep_on c FrameWait 5 (fr_wait frame) ;;
                amount_elements <- await_ c (fr_elements frame) ;;
                for_each (firstn 20 amount_elements) (fun element =>
                  _ <- await_ c (el_text element) ;; ret tt)
            | None => ret tt
            end)
      | None => ret tt
      end
  | None => ret tt
  end.

(** Lines 90-107: any other strategy after the click. *)
Definition watch_redirect (c : nat) (strategy : string) : M unit :=
  sleep_on c RedirectWait 2 (on_redirect_wait (page w c)) ;;
  current_url <- page_url c ;;
  if contains "simpleswap.io" current_url
  then await_ c (on_load_state (page w c)) ;;
       monitor_simpleswap_page c strategy
  else ret tt.

(** Lines 31-107: the statements of the [try] block before the result
    is collected. *)
Definition probe (c : nat) (strategy : string) : M unit :=
  let u := base_url +++ "?strategy=" +++ strategy in
  goto c u (on_goto (page w c)) ;;
  await_ c (on_wait_selector (page w c)) ;;
  sleep_on c Settle 2 (on_settle (page w c)) ;;
  debug_output <- await_ c (on_debug (page w c)) ;;
  match debug_output with
  | Some element => debug_text <- await_ c (el_text element) ;; slice_text debug_text
  | None => ret tt
  end ;;
  listen c ;;
  emit (EvClick c) ;;
  await_ c (on_click (page w c)) ;;
  if String.eqb strategy "iframe"
  then watch_iframe c
  else watch_redirect c strategy.

(** Lines 109-119. *)
Definition collect (c : nat) (strategy : string) : M unit :=
  t <- now w ;;
  page_url_ <- page_url c ;;
  logs <- get_console c ;;
  append_result
    [("strategy", VStr strategy);
     ("timestamp", VTime t);
     ("success", VBool (contains "simpleswap.io" page_url_ || String.eqb strategy "iframe"));
     ("final_url", VStr page_url_);
     ("console_logs", VList (last_n 10 logs));
     ("notes", VList [])].

(** Lines 122-131. *)
Definition on_exception (strategy : string) (e : string) : M unit :=
  t <- now w ;;
  append_result
    [("strategy", VStr strategy);
     ("timestamp", VTime t);
     ("success", VBool false);
     ("error", VStr e);
     ("console_logs", VList []);
     ("notes", VList ["Exception occurred during testing"])].

(** Lines 30-120: the [try] block. *)
Definition try_block (c : nat) (strategy : string) : M unit :=
  probe c strategy ;;
  collect c strategy.

(** Lines 23-134. *)
Definition test_strategy (strategy : string) : M unit :=
  def_ (
    emit (EvTesting strategy None) ;;
    c <- new_context ;;
    try_finally
      (try_except (try_block c strategy) (on_exception strategy))
      (close c)).

(** Lines 207-228. *)
Definition print_summary : M unit :=
  def_ (
    rs <- gets results ;;
    let successful := filter (fun r => truthy (get "success" r)) rs in
    let failed := filter (fun r => negb (truthy (get "success" r))) rs in
    for_each successful (fun result =>
      _ <- item "strategy" result ;;
      _ <- item "final_url" result ;;
      ret tt) ;;
    for_each failed (fun result =>
      _ <- item "strategy" result ;;
      ret tt)).

(** Lines 185-205. *)
Definition run_all_tests : M unit :=
  def_ (
    strats <- gets strategies ;;
    for_each strats (fun strategy =>
      test_strategy strategy ;;
      sleep BetweenStrategies 2) ;;
    t <- now w ;;
    emit (EvDump ("/tmp/simpleswap_results_" +++ str_int t +++ ".json")) ;;
    print_summary).

End Run.

End SimpleSwapTester.

(** ** The adaptive variant: adaptive-tester.py *)

Module AdaptiveSimpleSwapTester.

(** One polling iteration of the monitoring loop. *)
Record Tick : Type := mkTick {
  tk_wait : Await unit;                 (* asyncio.sleep(1) *)
  tk_inputs : Await (list Elem);        (* query_selector_all("input") *)
  tk_content : Await string             (* page.content() *)
}.

Record Page : Type := mkPage {
  on_goto : Await unit;
  on_wait_selector : Await unit;
  on_cache_wait : Await unit;
  on_debug : Await (option Elem);
  on_click : Await unit;
  on_redirect_wait : Await unit;
  on_monitor : nat -> Tick;
  on_screenshot : Await unit
}.

(** The result of [final_analysis]. *)
Record Analysis : Type := mkAnalysis {
  total_tests : nat;
  successful : nat;
  failed : nat;
  key_insights : list string;
  recommendations : list string
}.

(** Lines 45-49, in the order of the dict literal. *)
Definition error_patterns : list (string * string) :=
  [("ReferenceError: workingUrl is not defined", "JavaScript variable not properly initialized");
   ("Refused to frame", "CSP blocks iframe embedding");
   ("networkidle timeout", "Page taking too long to load")].

(** Lines 43-57. *)
Definition analyze_console_logs (logs : list string) : list string :=
  flat_map (fun log =>
    flat_map (fun pm : string * string =>
      if contains (fst pm) log then ["Found: " +++ snd pm] else [])
      error_patterns)
    logs.

Definition is_error (log : string) : bool := contains "error" (lower log).

(** Line 76: the request URL with its cache-busting token. *)
Definition request_url (strategy : string) (cache_buster : Z) : string :=
  base_url +++ "?strategy=" +++ strategy +++ "&t=" +++ str_int cache_buster.

Definition set_amount_found (c : nat) (b : bool) : M unit :=
  modify (set_live c (fun lv =>
    mkLive (url lv) (console_logs lv) (listening lv) b (provider_found lv))).

Definition set_provider_found (c : nat) (b : bool) : M unit :=
  modify (set_live c (fun lv =>
    mkLive (url lv) (console_logs lv) (listening lv) (amount_found lv) b)).

Section Run.
Variable w : World Page.

(** Lines 24-31. *)
Definition log_insight (insight : string) : M unit :=
  timestamp <- now w ;;
  modify (set_insights (fun l => l ++ [mkInsight timestamp insight])).

(** Lines 33-41. *)
Definition wait_for_cache_update (c : nat) (strategy_index : nat) : M unit :=
  let wait_time := if strategy_index <? 3 then 5 else 2 in
  sleep_on c CacheWait wait_time (on_cache_wait (page w c)).

(** Lines 190-198, "Method 1: Check input values". *)
Definition check_inputs (c : nat) (strategy : string) (inputs : list Elem) : M unit :=
  for_each inputs (fun inp =>
    value <- await_ c (el_value inp) ;;
    when (negb (String.eqb value "") && (contains "19.5" value || contains "21.42" value)) (
      set_amount_found c true ;;
      when (contains "21.42" value)
        (log_insight ("Amount hijack detected in " +++ strategy +++ ": " +++ value)))).

(** Lines 200-207, "Method 2: Check text content". *)
Definition check_text (c : nat) (strategy : string) (page_text : string) : M unit :=
  when (contains "19.5" page_text || contains "21.42" page_text) (
    found <- gets (fun st => amount_found (live st c)) ;;
    when (negb found) (set_amount_found c true) ;;
    when (contains "21.42" page_text)
      (log_insight ("Amount hijack in page text for " +++ strategy))).

(** Lines 209-217, "Method 3: Check for provider elements". *)
Definition check_providers (c : nat) (strategy : string) (page_text : string) : M unit :=
  when (contains "mercuryo" (lower page_text)) (set_provider_found c true) ;;
  when (contains "moonpay" (lower page_text)) (
    found <- gets (fun st => provider_found (live st c)) ;;
    when found (log_insight ("Provider competition detected in " +++ strategy))).

(** Lines 189-217: the body of one polling iteration, inside its [try]. *)
Definition poll (c : nat) (strategy : string) (tick : Tick) : M unit :=
  inputs <- await_ c (tk_inputs tick) ;;
  check_inputs c strategy inputs ;;
  page_text <- await_ c (tk_content tick) ;;
  check_text c strategy page_text ;;
  check_providers c strategy page_text.

Definition monitor_loop (c : nat) (strategy : string) : M unit :=
  for_each (seq 0 15) (fun i =>
    let tick := on_monitor (page w c) i in
    sleep_on c MonitorWait 1 (tk_wait tick) ;;
    swallow (poll c strategy tick)).

(** Lines 223-230, "Learning summary". *)
Definition learning_summary (c : nat) (strategy : string) : M unit :=
  amount <- gets (fun st => amount_found (live st c)) ;;
  (if amount
   then log_insight ("Amount monitoring successful in " +++ strategy)
   else log_insight ("No amount found in " +++ strategy +++ " - may need different selectors")) ;;
  provider <- gets (fun st => provider_found (live st c)) ;;
  when provider (log_insight ("Provider detection successful in " +++ strategy)).

(** Lines 232-235, "Take screenshot for analysis". *)
Definition take_screenshot (c : nat) (strategy : string) : M unit :=
  t <- now w ;;
  emit (EvScreenshot c (screenshot_path strategy t) true) ;;
  await_ c (on_screenshot (page w c)).

(** Lines 177-235. *)
Definition monitor_simpleswap_with_learning (c : nat) (strategy : string) : M unit :=
  def_ (
    set_amount_found c false ;;
    set_provider_found c false ;;
    monitor_loop c strategy ;;
    learning_summary c strategy ;;
    take_screenshot c strategy).

(** Lines 79-103: from the navigation to the wait after the click;
    [u] is the request URL. *)
Definition approach (c : nat) (strategy : string) (u : string) : M unit :=
  goto c u (on_goto (page w c)) ;;
  await_ c (on_wait_selector (page w c)) ;;
  n <- gets (fun st => length (results st)) ;;
  wait_for_cache_update c n ;;
  debug_output <- await_ c (on_debug (page w c)) ;;
  match debug_output with
  | Some element =>
      debug_text <- await_ c (el_text element) ;;
      slice_text debug_text ;;
      log_insight ("Debug output present in " +++ strategy)
  | None =>
      log_insight ("No debug output in " +++ strategy +++ " - may indicate loading issue")
  end ;;
  logs <- get_console c ;;
  match last_item (filter is_error logs) with
  | Some e => log_insight ("Pre-click JS errors in " +++ strategy +++ ": " +++ e)
  | None => ret tt
  end ;;
  emit (EvClick c) ;;
  await_ c (on_click (page w c)) ;;
  sleep_on c RedirectWait 3 (on_redirect_wait (page w c)).

(** Lines 108-130: the page stayed where it was.  [self_call] is the
    function itself, for the retry. *)
Definition no_redirect (self_call : nat -> M unit)
           (c : nat) (strategy : string) (attempt : nat) : M (bool * list string) :=
  log_insight ("No redirect occurred in " +++ strategy +++ " - checking for errors") ;;
  logs <- get_console c ;;
  for_each (analyze_console_logs logs) log_insight ;;
  match last_item (filter is_error (last_n 5 logs)) with
  | Some error_text =>
      when (contains "workingUrl is not defined" error_text) (
        log_insight "JavaScript variable scope issue detected" ;;
        when (attempt <? 2) (
          close c ;;
          sleep RetryWait 5 ;;
          self_call (attempt + 1) ;;
          return_))
  | None => ret tt
  end ;;
  ret (false, ["No redirect occurred"; "Checking console logs for cause"]).

(** Lines 105-145. *)
Definition classify (self_call : nat -> M unit) (c : nat) (strategy : string)
           (attempt : nat) (u current_url : string) : M (bool * list string) :=
  if String.eqb current_url u then
    no_redirect self_call c strategy attempt
  else if contains "simpleswap.io" current_url then
    log_insight ("Successful redirect with " +++ strategy) ;;
    monitor_simpleswap_with_learning c strategy ;;
    ret (true, ["Successful redirect"])
  else
    log_insight ("Unexpected redirect in " +++ strategy +++ ": " +++ current_url) ;;
    ret (false, ["Unexpected redirect to " +++ current_url]).

(** Lines 147-158. *)
Definition collect (c : nat) (strategy : string) (attempt : nat)
           (current_url : string) (success : bool) (notes : list string) : M unit :=
  t <- now w ;;
  logs <- get_console c ;;
  append_result
    [("strategy", VStr strategy);
     ("attempt", VNat attempt);
     ("timestamp", VTime t);
     ("success", VBool success);
     ("final_url", VStr current_url);
     ("console_logs", VList (last_n 10 logs));
     ("notes", VList notes)].

(** Lines 160-172. *)
Definition on_exception (c : nat) (strategy : string) (attempt : nat) (e : string) : M unit :=
  log_insight ("Exception in " +++ strategy +++ ": " +++ e) ;;
  t <- now w ;;
  logs <- get_console c ;;
  append_result
    [("strategy", VStr strategy);
     ("attempt", VNat attempt);
     ("timestamp", VTime t);
     ("success", VBool false);
     ("error", VStr e);
     ("console_logs", VList (match logs with [] => [] | _ => last_n 5 logs end));
     ("notes", VList ["Exception occurred"])].

(** Lines 73-158: the [try] block. *)
Definition try_block (self_call : nat -> M unit) (c : nat) (strategy : string)
           (attempt : nat) : M unit :=
  cache_buster <- now w ;;
  let u := request_url strategy cache_buster in
  approach c strategy u ;;
  current_url <- page_url c ;;
  sn <- classify self_call c strategy attempt u current_url ;;
  collect c strategy attempt current_url (fst sn) (snd sn).

(** Lines 59-175, with the recursive call as a parameter. *)
Definition test_strategy_with_learning_body (self_call : nat -> M unit)
           (strategy : string) (attempt : nat) : M unit :=
  def_ (
    emit (EvTesting strategy (Some attempt)) ;;
    c <- new_context ;;
    listen c ;;
    try_finally
      (try_except
         (try_block self_call c strategy attempt)
         (on_exception c strategy attempt))
      (close c)).

(** The recursion is guarded by [attempt < 2], so [2 - attempt] nested
    calls are all that can happen; the innermost stand-in is not
    reached. *)
Fixpoint unroll (depth : nat) (strategy : string) (attempt : nat) : M unit :=
  test_strategy_with_learning_body
    (fun attempt' =>
       match depth with
       | 0 => raise "maximum recursion depth exceeded"
       | S depth' => unroll depth' strategy attempt'
       end)
    strategy attempt.

Definition test_strategy_with_learning (strategy : string) (attempt : nat) : M unit :=
  unroll (2 - attempt) strategy attempt.

(** [list(s)]: the one-character strings of a string. *)
Definition chars (s : string) : list string :=
  map (fun c => String c EmptyString) (list_ascii_of_string s).

(** Line 284: [any("error" in log.lower() for log in r.get("console_logs", []))].
    Whatever the entry holds under [console_logs] is iterated: a missing
    key gives the default [[]], a list gives its items, a string gives its
    characters (the timestamp is a string, and no single character
    contains "error"), and a bool or an int is not iterable. *)
Definition has_error_log (r : Dict) : M bool :=
  match get "console_logs" r with
  | None => ret false
  | Some (VList l) => ret (existsb is_error l)
  | Some (VStr s) => ret (existsb is_error (chars s))
  | Some (VTime _) => ret false
  | Some (VBool _) => raise "'bool' object is not iterable"
  | Some (VNat _) => raise "'int' object is not iterable"
  end.

(** Lines 273-286. *)
Definition analyze_patterns : M unit :=
  def_ (
    rs <- gets results ;;
    let successful_strategies := filter (fun r => truthy (get "success" r)) rs in
    let failed_strategies := filter (fun r => negb (truthy (get "success" r))) rs in
    when (negb (length successful_strategies =? 0))
      (log_insight ("Found " +++ str_nat (length successful_strategies) +++ " successful strategies")) ;;
    when (negb (length failed_strategies =? 0)) (
      js_error_count <- count_if failed_strategies has_error_log ;;
      when (0 <? js_error_count)
        (log_insight ("JavaScript errors in " +++ str_nat js_error_count +++ " strategies - code issue")))).

(** [x in l] on a list of strings. *)
Definition mem (x : string) (l : list string) : bool :=
  existsb (String.eqb x) l.

(** Lines 288-307. *)
Definition final_analysis (st : State) : Analysis :=
  let rs := results st in
  let insights := map i_insight (learned_insights st) in
  let scope := mem "JavaScript variable scope issue detected" insights in
  let csp := mem "CSP blocks iframe embedding" insights in
  mkAnalysis
    (length rs)
    (length (filter (fun r => truthy (get "success" r)) rs))
    (length (filter (fun r => negb (truthy (get "success" r))) rs))
    ((if scope then ["JavaScript variable scoping needs fixing"] else []) ++
     (if csp then ["Iframe approach blocked by CSP"] else []))
    ((if scope then ["Fix workingUrl variable initialization"] else []) ++
     (if csp then ["Use popup window instead of iframe"] else [])).

(** Lines 309-340. *)
Definition print_adaptive_summary : M unit :=
  def_ (
    rs <- gets results ;;
    let successful := filter (fun r => truthy (get "success" r)) rs in
    for_each successful (fun result =>
      _ <- item "strategy" result ;;
      _ <- item "final_url" result ;;
      ret tt) ;;
    _ <- gets final_analysis ;;
    ret tt).

(** Lines 237-271. *)
Definition run_adaptive_tests : M unit :=
  def_ (
    strats <- gets strategies ;;
    for_each (enumerate strats) (fun '(i, strategy) =>
      test_strategy_with_learning strategy 1 ;;
      when (0 <? i) analyze_patterns ;;
      when (i <? length strats - 1) (sleep BetweenStrategies 3)) ;;
    t <- now w ;;
    _ <- gets final_analysis ;;
    emit (EvDump ("/tmp/adaptive_results_" +++ str_int t +++ ".json")) ;;
    print_adaptive_summary).

End Run.

End AdaptiveSimpleSwapTester.

(** ** Reading the effect trace *)

(** A tester right after its constructor, with [self.strategies] set to
    [strats]. *)
Definition tester_with (strats : list string) : State :=
  mkState strats [] [] [] 0 0 (fun _ => fresh_live).

(** The sleeps taken while a page is being driven. *)
Definition page_site (site : SleepSite) : bool :=
  match site with
  | RetryWait | BetweenStrategies => false
  | _ => true
  end.

(** Events of the inside of one attempt, after the navigation started. *)
Definition quiet (ev : Event) : bool :=
  match ev with
  | EvClick _ | EvScreenshot _ _ _ => true
  | EvSleep site _ => page_site site
  | _ => false
  end.




Definition is_sleep (site : SleepSite) (ev : Event) : bool :=
  match ev with
  | EvSleep site' _ => SleepSite_eqb site site'
  | _ => false
  end.

(** The number of sleeps taken at a program point. *)
Definition sleeps (site : SleepSite) (evs : list Event) : nat :=
  length (filter (is_sleep site) evs).

Definition is_attempt (ev : Event) : bool :=
  match ev with
  | EvTesting _ _ => true
  | _ => false
  end.

Definition is_attempt_of (strategy : string) (ev : Event) : bool :=
  match ev with
  | EvTesting s _ => String.eqb s strategy
  | _ => false
  end.

(** The number of probe attempts started, all strategies together or for
    one label. *)
Definition attempts (evs : list Event) : nat := length (filter is_attempt evs).

Definition attempts_of (strategy : string) (evs : list Event) : nat :=
  length (filter (is_attempt_of strategy) evs).

Definition has_strategy (strategy : string) (r : Dict) : bool :=
  match get "strategy" r with
  | Some (VStr s) => String.eqb s strategy
  | _ => false
  end.

(** The number of recorded results with a given label. *)
Definition results_of (strategy : string) (rs : list Dict) : nat :=
  length (filter (has_strategy strategy) rs).

(** The URL of the last navigation request in a trace. *)
Fixpoint last_goto (evs : list Event) : option string :=
  match evs with
  | [] => None
  | ev :: evs' =>
      match last_goto evs' with
      | Some u => Some u
      | None => match ev with EvGoto _ u => Some u | _ => None end
      end
  end.

Definition is_screenshot (ev : Event) : bool :=
  match ev with
  | EvScreenshot _ _ _ => true
  | _ => false
  end.

(** The key lists of the two kinds of entries of either script. *)
Definition basic_keys : list string :=
  ["strategy"; "timestamp"; "success"; "final_url"; "console_logs"; "notes"].

Definition basic_error_keys : list string :=
  ["strategy"; "timestamp"; "success"; "error"; "console_logs"; "notes"].

Definition adaptive_keys : list string :=
  ["strategy"; "attempt"; "timestamp"; "success"; "final_url"; "console_logs"; "notes"].

Definition adaptive_error_keys : list string :=
  ["strategy"; "attempt"; "timestamp"; "success"; "error"; "console_logs"; "notes"].

(** [final_url] of an entry contains [needle]; an entry without the field
    contains nothing. *)
Definition final_url_contains (needle : string) (r : Dict) : bool :=
  match get "final_url" r with
  | Some (VStr u) => contains needle u
  | _ => false
  end.

Definition success_of (r : Dict) : bool := truthy (get "success" r).

(** ** Steps that stay inside an attempt *)

(** [FrameBy P st st']: between [st] and [st'] the tester's strategies and
    results and the set of contexts are untouched and only events
    satisfying [P] happened. *)
Definition FrameBy (P : Event -> bool) (st st' : State) : Prop :=
  strategies st' = strategies st /\
  results st' = results st /\
  next_ctx st' = next_ctx st /\
  exists q, events st' = events st ++ q /\ forallb P q = true.

Definition Frame : State -> State -> Prop := FrameBy quiet.

(** A block all of whose runs are related by [I]. *)
Definition stable {A : Type} (I : State -> State -> Prop) (m : M A) : Prop :=
  forall st, I st (snd (m st)).

(** The [provider_found] flag of page [c] is left as it is. *)
Definition same_provider_flag (c : nat) (st st' : State) : Prop :=
  provider_found (live st' c) = provider_found (live st c).

(** A block that stays inside the attempt and does not [return]. *)
Definition preserves {A : Type} (m : M A) : Prop :=
  forall st, Frame st (snd (m st)) /\ fst (m st) <> Returned.

(** The same with the navigation request [EvGoto c u] at the start. *)
Definition Navigated (c : nat) (u : string) (st st' : State) : Prop :=
  strategies st' = strategies st /\
  results st' = results st /\
  next_ctx st' = next_ctx st /\
  exists q, events st' = events st ++ EvGoto c u :: q /\ forallb quiet q = true.


(** ** What one call records *)

(** The entries of the basic variant. *)
Definition basic_result (s : string) (t : Z) (u : string) (logs : list string) : Dict :=
  [("strategy", VStr s);
   ("timestamp", VTime t);
   ("success", VBool (contains "simpleswap.io" u || String.eqb s "iframe"));
   ("final_url", VStr u);
   ("console_logs", VList (last_n 10 logs));
   ("notes", VList [])].

Definition basic_error_result (s : string) (t : Z) (e : string) : Dict :=
  [("strategy", VStr s);
   ("timestamp", VTime t);
   ("success", VBool false);
   ("error", VStr e);
   ("console_logs", VList []);
   ("notes", VList ["Exception occurred during testing"])].

Definition BasicEntry (s : string) (r : Dict) : Prop :=
  (exists t u logs, r = basic_result s t u logs) \/
  (exists t e, r = basic_error_result s t e).

(** The state in which the [try] block of the basic [test_strategy] starts. *)
Definition basic_entry (s : string) (st : State) : State :=
  snd ((emit (EvTesting s None) ;; new_context) st).

(** One call of the basic [test_strategy]: from [st] to [st'], recording [r]. *)
Definition BasicCall (s : string) (st st' : State) (r : Dict) : Prop :=
  strategies st' = strategies st /\
  results st' = results st ++ [r] /\
  next_ctx st' = S (next_ctx st) /\
  (exists q,
     events st' = events st ++
       [EvTesting s None; EvOpen (next_ctx st);
        EvGoto (next_ctx st) (base_url +++ "?strategy=" +++ s)] ++ q ++ [EvClose (next_ctx st)] /\
     forallb quiet q = true) /\
  BasicEntry s r.

(** The entries of the adaptive variant. *)
Definition adaptive_result (s : string) (a : nat) (t : Z) (success : bool)
           (u : string) (logs notes : list string) : Dict :=
  [("strategy", VStr s);
   ("attempt", VNat a);
   ("timestamp", VTime t);
   ("success", VBool success);
   ("final_url", VStr u);
   ("console_logs", VList (last_n 10 logs));
   ("notes", VList notes)].

Definition adaptive_error_result (s : string) (a : nat) (t : Z) (e : string)
           (logs : list string) : Dict :=
  [("strategy", VStr s);
   ("attempt", VNat a);
   ("timestamp", VTime t);
   ("success", VBool false);
   ("error", VStr e);
   ("console_logs", VList (match logs with [] => [] | _ => last_n 5 logs end));
   ("notes", VList ["Exception occurred"])].

Definition AdaptiveEntry (s : string) (r : Dict) : Prop :=
  (exists a t success u logs notes, r = adaptive_result s a t success u logs notes) \/
  (exists a t e logs, r = adaptive_error_result s a t e logs).

(** The events of one call of [test_strategy_with_learning] for strategy
    [s], started with attempt number [a] and opening context [c]: one
    attempt, or an attempt that
    closes its context, sleeps, runs the call for the next attempt number
    and closes its context once more in its [finally]. *)
Inductive AttemptTrace (s : string) : nat -> nat -> list Event -> Prop :=
| trace_single a c u q :
    forallb quiet q = true ->
    AttemptTrace s a c
      ([EvTesting s (Some a); EvOpen c; EvGoto c u] ++ q ++ [EvClose c])
| trace_retry a c c' u q evs :
    a < 2 ->
    forallb quiet q = true ->
    AttemptTrace s (S a) c' evs ->
    AttemptTrace s a c
      ([EvTesting s (Some a); EvOpen c; EvGoto c u] ++ q ++
       [EvClose c; EvSleep RetryWait 5] ++ evs ++ [EvClose c]).

(** One call of [test_strategy_with_learning]: from [st] to [st'],
    recording [r]. *)
Definition AdaptiveCall (s : string) (a : nat) (st st' : State) (r : Dict) : Prop :=
  strategies st' = strategies st /\
  results st' = results st ++ [r] /\
  AdaptiveEntry s r /\
  exists evs,
    events st' = events st ++ evs /\
    AttemptTrace s a (next_ctx st) evs /\
    (forall u, last_goto evs = Some u ->
               get "final_url" r = Some (VStr u) ->
               get "success" r = Some (VBool false)).

(** The state in which the [try] block of [test_strategy_with_learning]
    starts. *)
Definition adaptive_entry (s : string) (a : nat) (st : State) : State :=
  snd ((emit (EvTesting s (Some a)) ;; c <- new_context ;; listen c) st).

(** The state in which the retry starts: the context was closed and five
    seconds were slept. *)
Definition before_retry (c : nat) (st : State) : State :=
  snd ((close c ;; sleep RetryWait 5) st).

(** The retry: only under [attempt < 2], after the context was closed
    and five seconds were slept; it is all that happens before the
    [return]. *)
Definition Retried (self_call : nat -> M unit) (c a : nat) (st2 st3 : State) : Prop :=
  a < 2 /\ self_call (a + 1) (before_retry c st2) = (Ok tt, st3).

(** A block that stays inside the attempt unless it ends by [return],
    in which case [T] relates the state where it left the attempt to the
    final one. *)
Definition Retrying {A : Type} (T : State -> State -> Prop) (m : M A) : Prop :=
  forall st,
    match m st with
    | (Returned, st3) => exists st2, Frame st st2 /\ T st2 st3
    | (_, st2) => Frame st st2
    end.

(** A block whose value, when it has one, is [v]. *)
Definition yields {A : Type} (v : A) (m : M A) : Prop :=
  forall st x st', m st = (Ok x, st') -> x = v.

(** A sequence of loop rounds, each related by [R]. *)
Inductive Chain {A : Type} (R : A -> State -> State -> Prop) :
  list A -> State -> State -> Prop :=
| chain_nil st : Chain R [] st st
| chain_cons x l st st' st'' :
    R x st st' -> Chain R l st' st'' -> Chain R (x :: l) st st''.

(** ** What one round of the main loop does *)

(** A round for the list item [x]: it records one entry, satisfying [P x],
    and its events satisfy [Q x]. *)
Definition Round {A : Type} (P : A -> Dict -> Prop) (Q : A -> list Event -> Prop)
           (x : A) (st st' : State) : Prop :=
  strategies st' = strategies st /\
  exists r evs,
    results st' = results st ++ [r] /\
    events st' = events st ++ evs /\
    P x r /\ Q x evs.

(** The events of one round of [run_all_tests]: the attempt, then the two
    seconds' sleep. *)
Definition BasicRoundTrace (s : string) (evs : list Event) : Prop :=
  exists c u q,
    evs = [EvTesting s None; EvOpen c; EvGoto c u] ++ q ++
          [EvClose c; EvSleep BetweenStrategies 2] /\
    forallb quiet q = true.

(** The events of round [i] (out of [n]) of [run_adaptive_tests]: the call
    with its possible retry, then the three seconds' sleep unless this is
    the last round. *)
Definition AdaptiveRoundTrace (n : nat) (x : nat * string) (evs : list Event) : Prop :=
  exists c call q,
    evs = call ++ q ++ (if fst x <? n - 1 then [EvSleep BetweenStrategies 3] else []) /\
    AttemptTrace (snd x) 1 c call /\
    forallb quiet q = true.

(** What the summaries rely on: an entry has its [strategy], and a
    successful entry has its [final_url]. *)
Definition summarizable (r : Dict) : Prop :=
  get "strategy" r <> None /\
  (success_of r = true -> get "final_url" r <> None).

(** What [analyze_patterns] relies on: whatever an entry holds under
    [console_logs] can be iterated. *)
Definition iterable_logs (r : Dict) : Prop :=
  match get "console_logs" r with
  | Some (VBool _) | Some (VNat _) => False
  | _ => True
  end.

(** Two blocks that do the same in every state. *)
Definition same {A : Type} (m1 m2 : M A) : Prop := forall st, m1 st = m2 st.


(** ** Browsers to run the scripts against *)

Definition answers {T : Type} (v : T) : Await T := mkAwait [] None (Done v).

Definition throws {T : Type} (e : string) : Await T := mkAwait [] None (Throws e).

Definition wall_clock (n : nat) : Z := (1700000000 + Z.of_nat n)%Z.

Module BasicScenario.
Import SimpleSwapTester.

Definition calm_tick : Tick := mkTick (answers tt) (fun _ => answers []).

(** The click changes nothing: the page stays at the request URL. *)
Definition staying : Page :=
  mkPage (answers tt) (answers tt) (answers tt) (answers None) (answers tt)
         (answers tt) (answers None) (answers tt) (answers tt)
         (fun _ => calm_tick) (answers tt).

(** The click sends the page to the exchange. *)
Definition redirecting : Page :=
  mkPage (answers tt) (answers tt) (answers tt) (answers None) (answers tt)
         (answers tt) (answers None)
         (mkAwait [] (Some "https://simpleswap.io/exchange?from=usd&to=btc") (Done tt))
         (answers tt) (fun _ => calm_tick) (answers tt).

(** The buy button never appears. *)
Definition timing_out : Page :=
  mkPage (answers tt) (throws "Timeout 10000ms exceeded.") (answers tt) (answers None)
         (answers tt) (answers tt) (answers None) (answers tt) (answers tt)
         (fun _ => calm_tick) (answers tt).

Definition world_of (p : Page) : World Page := mkWorld wall_clock (fun _ => p).

End BasicScenario.

Module AdaptiveScenario.
Import AdaptiveSimpleSwapTester.

Definition calm_tick : Tick := mkTick (answers tt) (answers []) (answers "<html></html>").

(** The click changes nothing: the page stays at the request URL. *)
Definition staying : Page :=
  mkPage (answers tt) (answers tt) (answers tt) (answers None) (answers tt)
         (answers tt) (fun _ => calm_tick) (answers tt).

(** The click changes nothing and the page logs the script error that the
    retry rule looks for. *)
Definition erroring : Page :=
  mkPage (answers tt) (answers tt) (answers tt) (answers None)
         (mkAwait [("error", "Uncaught ReferenceError: workingUrl is not defined")] None (Done tt))
         (answers tt) (fun _ => calm_tick) (answers tt).

(** The click sends the page to the exchange, whose text is [text]. *)
Definition redirecting (text : string) : Page :=
  mkPage (answers tt) (answers tt) (answers tt) (answers None) (answers tt)
         (mkAwait [] (Some "https://simpleswap.io/exchange?from=usd&to=btc") (Done tt))
         (fun _ => mkTick (answers tt) (answers []) (answers text)) (answers tt).

(** The buy button never appears. *)
Definition timing_out : Page :=
  mkPage (answers tt) (throws "Timeout 15000ms exceeded.") (answers tt) (answers None)
         (answers tt) (answers tt) (fun _ => calm_tick) (answers tt).

Definition world_of (p : Page) : World Page := mkWorld wall_clock (fun _ => p).

(** The first context shows the script error, the later ones do not. *)
Definition flaky : World Page :=
  mkWorld wall_clock (fun c => if c =? 0 then erroring else staying).

End AdaptiveScenario.

(** ** The claims of the specification that the code does not satisfy, as
    they are stated *)

(** Every entry is successful exactly when its final URL contains the
    destination domain. *)
Definition success_iff_destination (rs : list Dict) : Prop :=
  forall r, In r rs ->
    (success_of r = true <-> final_url_contains "simpleswap.io" r = true).


(** Every screenshot is a full-page screenshot. *)
Definition screenshots_full_page (evs : list Event) : Prop :=
  forall c p f, In (EvScreenshot c p f) evs -> f = true.





(** The fixed delay is taken after each strategy except the last. *)
Definition sleeps_between_only (strats : list string) (evs : list Event) : Prop :=
  sleeps BetweenStrategies evs = length strats - 1.

(** A tester whose first context has been opened, as the monitoring finds
    it. *)
Definition probing : State := snd (new_context new_tester).

(** ** Notions used by the further properties *)

(** What the loop over the successful entries of either summary needs of
    an entry: [result['strategy']] and [result['final_url']]. *)
Definition printable_success (r : Dict) : Prop :=
  success_of r = true -> get "strategy" r <> None /\ get "final_url" r <> None.

(** What the loop over the failed entries of the basic summary needs of an
    entry: [result['strategy']]; the error is read with [get] and a
    default. *)
Definition printable_failure (r : Dict) : Prop :=
  success_of r = false -> get "strategy" r <> None.

(** A hand-made entry that claims success and has no [final_url]. *)
Definition bare_success : Dict := [("strategy", VStr "basic"); ("success", VBool true)].

(** [k in d]. *)
Definition has_key (k : string) (r : Dict) : bool :=
  match get k r with
  | Some _ => true
  | None => false
  end.

(** No event at all. *)
Definition no_event (ev : Event) : bool := false.

(** One polling sleep. *)
Definition poll_sleep : Event := EvSleep MonitorWait 1.

(** Twelve console lines. *)
Definition twelve_lines : list (string * string) :=
  map (fun n => ("log", "line " +++ str_nat n)) (seq 1 12).

(** A page that stays where it is and writes twelve lines to the console
    when the button is clicked. *)
Definition chatty : AdaptiveSimpleSwapTester.Page :=
  AdaptiveSimpleSwapTester.mkPage
    (answers tt) (answers tt) (answers tt) (answers None)
    (mkAwait twelve_lines None (Done tt))
    (answers tt) (fun _ => AdaptiveScenario.calm_tick) (answers tt).

(** A page of the exchange on which the third polling iteration of the
    basic script cannot query the elements. *)
Definition breaking : SimpleSwapTester.Page :=
  SimpleSwapTester.mkPage
    (answers tt) (answers tt) (answers tt) (answers None) (answers tt)
    (answers tt) (answers None)
    (mkAwait [] (Some "https://simpleswap.io/exchange?from=usd&to=btc") (Done tt))
    (answers tt)
    (fun i => if i =? 2
              then SimpleSwapTester.mkTick (answers tt) (fun _ => throws "Execution context was destroyed")
              else BasicScenario.calm_tick)
    (answers tt).

(** The list [f] of the tester only grows at its end. *)
Definition extends {A : Type} (f : State -> list A) (st st' : State) : Prop :=
  exists l, f st' = f st ++ l.

(** The component [f] of the tester is left as it is. *)
Definition unchanged {A : Type} (f : State -> A) (st st' : State) : Prop :=
  f st' = f st.

(** The three facts about the tester's fields that the statements of
    the adaptive variant keep: both lists only grow, the strategies stay. *)
Definition keeps_lists {A} (m : M A) : Prop :=
  stable (extends results) m /\
  stable (extends learned_insights) m /\
  stable (unchanged strategies) m.

Definition is_close (ev : Event) : bool :=
  match ev with
  | EvClose _ => true
  | _ => false
  end.

(** The events of a call whose last attempt was monitored: they end with
    the fifteen polling sleeps, the full-page screenshot named after the
    strategy, and the closing of the contexts. *)
Definition monitored_last (s : string) (evs : list Event) : Prop :=
  exists pre c t closes,
    evs = pre ++ repeat poll_sleep 15 ++ EvScreenshot c (screenshot_path s t) true :: closes /\
    forallb is_close closes = true.

(** What one call of [test_strategy_with_learning], started with attempt
    number [a], leaves behind: one entry, numbered by the attempt that
    recorded it, and successful only after a monitoring. *)
Definition CallDetails (s : string) (a : nat) (st st' : State) : Prop :=
  exists r evs,
    results st' = results st ++ [r] /\
    events st' = events st ++ evs /\
    attempts evs = S (sleeps RetryWait evs) /\
    get "attempt" r = Some (VNat (a + sleeps RetryWait evs)) /\
    (success_of r = true -> monitored_last s evs).

(** The awaited call does not throw. *)
Definition answered {T : Type} (a : Await T) : bool :=
  match aw_answer a with
  | Done _ => true
  | Throws _ => false
  end.

(** The element queries of one polling iteration of the basic monitoring,
    lines 151 and 168: [query_selector_all] for the five amount selectors
    and for ["*"]. *)
Definition queries_answered (tick : SimpleSwapTester.Tick) : bool :=
  forallb (fun selector => answered (SimpleSwapTester.tk_query tick selector))
          (SimpleSwapTester.amount_checks ++ ["*"]).

(** The exception, if any, of the three queries of the iframe strategy
    that are made outside its inner [try], lines 63-69: the overlay, the
    iframe in it, and the [src] of the iframe. *)
Definition iframe_queries_error (p : SimpleSwapTester.Page) : option string :=
  match aw_answer (SimpleSwapTester.on_container p) with
  | Throws e => Some e
  | Done None => None
  | Done (Some container) =>
      match aw_answer (SimpleSwapTester.ct_iframe container) with
      | Throws e => Some e
      | Done None => None
      | Done (Some fr) =>
          match aw_answer (SimpleSwapTester.if_src fr) with
          | Throws e => Some e
          | Done _ => None
          end
      end
  end.

(** [str] of the TypeError raised by slicing [None]. *)
Definition none_error : string := "'NoneType' object is not subscriptable".

(** An element without text: [text_content()] answers [None]. *)
Definition textless : Elem :=
  mkElem (answers None) (answers "") (answers None) (answers None).

(** Pages whose debug output is there and has no text. *)
Definition basic_textless_debug : SimpleSwapTester.Page :=
  SimpleSwapTester.mkPage
    (answers tt) (answers tt) (answers tt) (answers (Some textless)) (answers tt)
    (answers tt) (answers None) (answers tt) (answers tt)
    (fun _ => BasicScenario.calm_tick) (answers tt).

Definition adaptive_textless_debug : AdaptiveSimpleSwapTester.Page :=
  AdaptiveSimpleSwapTester.mkPage
    (answers tt) (answers tt) (answers tt) (answers (Some textless)) (answers tt)
    (answers tt) (fun _ => AdaptiveScenario.calm_tick) (answers tt).

(** A block of the basic attempt on page [c] after which the page is at
    the exchange only if the block ended with the ten polling sleeps and
    the screenshot. *)
Definition monitored_tail (c : nat) (s : string) (st st' : State) : Prop :=
  contains "simpleswap.io" (url (live st' c)) = true ->
  exists pre t,
    events st' = events st ++ pre ++ repeat poll_sleep 10 ++
                 [EvScreenshot c (screenshot_path s t) false].

(** The insight that line 120 logs before the retry. *)
Definition scope_issue : string := "JavaScript variable scope issue detected".

(** Between [st] and [st'] events and insights were only added, and if a
    retry was slept for meanwhile, the scope issue is among the insights
    added. *)
Definition retry_explained (st st' : State) : Prop :=
  exists q ins,
    events st' = events st ++ q /\
    learned_insights st' = learned_insights st ++ ins /\
    (0 < sleeps RetryWait q -> In scope_issue (map i_insight ins)).

(** The first context shows the script error that the retry rule looks
    for; the contexts opened after it are sent to the exchange. *)
Definition recovering : World AdaptiveSimpleSwapTester.Page :=
  mkWorld wall_clock
    (fun c => if c =? 0 then AdaptiveScenario.erroring
              else AdaptiveScenario.redirecting "<html></html>").


(** ** The scripts with the operations around their [try] statements

    The definitions above follow the statements of the [try] blocks and
    take the operations around them to answer: the browser starts, every
    context and page is created, every context closes, the results file
    is written, and every exception is an instance of [Exception].  Here
    those operations are asked for their answer, and an exception has its
    class, so that what is raised before a [try], in a [finally], or with
    a class that [except Exception] does not match can be followed. *)

Module Browsers.

(** An exception with its [str]: an instance of [Exception], or one that
    is not (asyncio.CancelledError, KeyboardInterrupt). *)
Inductive Thrown : Type :=
| AnException (e : string)
| NotAnException (e : string).

(** What an operation answers. *)
Inductive Reply : Type :=
| Replies
| Fails (x : Thrown).

(** The operations outside the [try] blocks, and the cancellation of the
    task.  Contexts are numbered in the order of their creation. *)
Record Browser : Type := mkBrowser {
  br_start : Reply;                (* entering [async with async_playwright() as p] *)
  br_launch : Reply;               (* await p.chromium.launch(headless=False) *)
  br_new_context : nat -> Reply;   (* await browser.new_context(), asked when c
                                      contexts have been created *)
  br_new_page : nat -> Reply;      (* await context.new_page() on context c *)
  br_close : nat -> Reply;         (* await context.close() on context c *)
  br_quit : Reply;                 (* await browser.close() *)
  br_stop : Reply;                 (* leaving the [async with] block *)
  br_write : Reply;                (* open(results_file, 'w') and json.dump *)
  br_cancelled : nat -> bool       (* the task is cancelled while page.goto of
                                      context c is awaited *)
}.

(** How a block ends: normally, by an exception, or by [return]. *)
Inductive Exit (A : Type) : Type :=
| Fine (a : A)
| Throw (x : Thrown)
| Return.
Arguments Fine {A} a.
Arguments Throw {A} x.
Arguments Return {A}.

Definition Script (A : Type) : Type := State -> Exit A * State.

(** A block of the definitions above: its exceptions are instances of
    [Exception]. *)
Definition lift {A : Type} (m : M A) : Script A :=
  fun st =>
    match m st with
    | (Ok a, st') => (Fine a, st')
    | (Raise e, st') => (Throw (AnException e), st')
    | (Returned, st') => (Return, st')
    end.

Definition ret' {A : Type} (a : A) : Script A := fun st => (Fine a, st).

Definition bind' {A B : Type} (m : Script A) (f : A -> Script B) : Script B :=
  fun st =>
    match m st with
    | (Fine a, st') => f a st'
    | (Throw x, st') => (Throw x, st')
    | (Return, st') => (Return, st')
    end.

Declare Scope script_scope.
Delimit Scope script_scope with script.
Notation "x <- m ;; k" := (bind' m (fun x => k))
  (at level 61, m at next level, right associativity) : script_scope.
Notation "m ;; k" := (bind' m (fun _ => k))
  (at level 61, right associativity) : script_scope.
Local Open Scope script_scope.

Definition raise' {A : Type} (x : Thrown) : Script A := fun st => (Throw x, st).

Definition return' {A : Type} : Script A := fun st => (Return, st).

(** The body of a [def] that returns no value. *)
Definition def' (body : Script unit) : Script unit :=
  fun st =>
    match body st with
    | (Return, st') => (Fine tt, st')
    | r => r
    end.

(** [try: body / except Exception as e: handler (str e)]: an exception
    that is not an instance of [Exception] is not caught. *)
Definition try_except' {A : Type} (body : Script A) (handler : string -> Script A) : Script A :=
  fun st =>
    match body st with
    | (Throw (AnException e), st') => handler e st'
    | r => r
    end.

(** [try: body / finally: fin]. *)
Definition try_finally' {A : Type} (body : Script A) (fin : Script unit) : Script A :=
  fun st =>
    match body st with
    | (r, st') =>
        match fin st' with
        | (Fine _, st'') => (r, st'')
        | (Throw x, st'') => (Throw x, st'')
        | (Return, st'') => (Return, st'')
        end
    end.

Fixpoint for_each' {A : Type} (l : list A) (body : A -> Script unit) : Script unit :=
  match l with
  | [] => ret' tt
  | x :: l' => body x ;; for_each' l' body
  end.

Definition when' (b : bool) (m : Script unit) : Script unit :=
  if b then m else ret' tt.

(** An operation that answers or raises. *)
Definition ask (r : Reply) : Script unit :=
  fun st =>
    (match r with
     | Replies => Fine tt
     | Fails x => Throw x
     end, st).

(** [str(asyncio.CancelledError())]. *)
Definition cancelled_error : Thrown := NotAnException "".

Section Run.
Variable b : Browser.

(** [context = await browser.new_context()], lines 27 / 63: when the
    browser answers, the context is there (on the right, [new_context] is
    the step of the definitions above). *)
Definition new_context : Script nat :=
  c <- lift (gets next_ctx) ;;
  ask (br_new_context b c) ;;
  lift new_context.

(** [page = await context.new_page()], lines 28 / 64. *)
Definition new_page (c : nat) : Script unit :=
  ask (br_new_page b c).

(** [await context.close()]: the call is made, and answers or raises. *)
Definition close (c : nat) : Script unit :=
  lift (close c) ;;
  ask (br_close b c).

(** The task is cancelled while [page.goto(u)] is awaited. *)
Definition cancelled_goto (c : nat) (u : string) : Script unit :=
  lift (emit (EvGoto c u)) ;;
  raise' cancelled_error.

(** *** test-simpleswap.py *)

Section Basic.
Variable w : World SimpleSwapTester.Page.

(** Lines 23-134. *)
Definition test_strategy (strategy : string) : Script unit :=
  def' (
    lift (emit (EvTesting strategy None)) ;;
    c <- new_context ;;
    new_page c ;;
    try_finally'
      (try_except'
         (if br_cancelled b c
          then cancelled_goto c (base_url +++ "?strategy=" +++ strategy)
          else lift (SimpleSwapTester.try_block w c strategy))
         (fun e => lift (SimpleSwapTester.on_exception w strategy e)))
      (close c)).

(** Lines 185-205. *)
Definition run_all_tests : Script unit :=
  def' (
    ask (br_start b) ;;
    try_finally'
      (ask (br_launch b) ;;
       strats <- lift (gets strategies) ;;
       for_each' strats (fun strategy =>
         test_strategy strategy ;;
         lift (sleep BetweenStrategies 2)) ;;
       ask (br_quit b))
      (ask (br_stop b)) ;;
    t <- lift (now w) ;;
    lift (emit (EvDump ("/tmp/simpleswap_results_" +++ str_int t +++ ".json"))) ;;
    ask (br_write b) ;;
    lift SimpleSwapTester.print_summary).

End Basic.

(** *** adaptive-tester.py *)

Section Adaptive.
Import AdaptiveSimpleSwapTester.
Variable w : World AdaptiveSimpleSwapTester.Page.

(** Lines 108-130, with the closing of the context at line 125 and the
    recursive call asked for their outcome. *)
Definition no_redirect (self_call : nat -> Script unit)
           (c : nat) (strategy : string) (attempt : nat) : Script (bool * list string) :=
  lift (log_insight w ("No redirect occurred in " +++ strategy +++ " - checking for errors")) ;;
  logs <- lift (get_console c) ;;
  lift (for_each (analyze_console_logs logs) (log_insight w)) ;;
  match last_item (filter is_error (last_n 5 logs)) with
  | Some error_text =>
      when' (contains "workingUrl is not defined" error_text) (
        lift (log_insight w "JavaScript variable scope issue detected") ;;
        when' (attempt <? 2) (
          close c ;;
          lift (sleep RetryWait 5) ;;
          self_call (attempt + 1) ;;
          return'))
  | None => ret' tt
  end ;;
  ret' (false, ["No redirect occurred"; "Checking console logs for cause"]).

(** Lines 105-145. *)
Definition classify (self_call : nat -> Script unit) (c : nat) (strategy : string)
           (attempt : nat) (u current_url : string) : Script (bool * list string) :=
  if String.eqb current_url u then
    no_redirect self_call c strategy attempt
  else if contains "simpleswap.io" current_url then
    lift (log_insight w ("Successful redirect with " +++ strategy)) ;;
    lift (monitor_simpleswap_with_learning w c strategy) ;;
    ret' (true, ["Successful redirect"])
  else
    lift (log_insight w ("Unexpected redirect in " +++ strategy +++ ": " +++ current_url)) ;;
    ret' (false, ["Unexpected redirect to " +++ current_url]).

(** Lines 73-158: the [try] block. *)
Definition try_block (self_call : nat -> Script unit) (c : nat) (strategy : string)
           (attempt : nat) : Script unit :=
  cache_buster <- lift (now w) ;;
  let u := request_url strategy cache_buster in
  if br_cancelled b c then cancelled_goto c u
  else
    lift (approach w c strategy u) ;;
    current_url <- lift (page_url c) ;;
    sn <- classify self_call c strategy attempt u current_url ;;
    lift (collect w c strategy attempt current_url (fst sn) (snd sn)).

(** Lines 59-175, with the recursive call as a parameter. *)
Definition test_strategy_with_learning_body (self_call : nat -> Script unit)
           (strategy : string) (attempt : nat) : Script unit :=
  def' (
    lift (emit (EvTesting strategy (Some attempt))) ;;
    c <- new_context ;;
    new_page c ;;
    lift (listen c) ;;
    try_finally'
      (try_except'
         (try_block self_call c strategy attempt)
         (fun e => lift (on_exception w c strategy attempt e)))
      (close c)).

(** As above, [2 - attempt] nested calls are all that can happen. *)
Fixpoint unroll (depth : nat) (strategy : string) (attempt : nat) : Script unit :=
  test_strategy_with_learning_body
    (fun attempt' =>
       match depth with
       | 0 => raise' (AnException "maximum recursion depth exceeded")
       | S depth' => unroll depth' strategy attempt'
       end)
    strategy attempt.

Definition test_strategy_with_learning (strategy : string) (attempt : nat) : Script unit :=
  unroll (2 - attempt) strategy attempt.

(** Lines 237-271. *)
Definition run_adaptive_tests : Script unit :=
  def' (
    ask (br_start b) ;;
    try_finally'
      (ask (br_launch b) ;;
       strats <- lift (gets strategies) ;;
       for_each' (enumerate strats) (fun '(i, strategy) =>
         test_strategy_with_learning strategy 1 ;;
         lift (when (0 <? i) (analyze_patterns w)) ;;
         lift (when (i <? length strats - 1) (sleep BetweenStrategies 3))) ;;
       ask (br_quit b))
      (ask (br_stop b)) ;;
    t <- lift (now w) ;;
    _ <- lift (gets final_analysis) ;;
    lift (emit (EvDump ("/tmp/adaptive_results_" +++ str_int t +++ ".json"))) ;;
    ask (br_write b) ;;
    lift print_adaptive_summary).

End Adaptive.

End Run.

(** A browser all of whose operations answer, and a task that is not
    cancelled. *)
Definition reliable (b : Browser) : Prop :=
  br_start b = Replies /\
  br_launch b = Replies /\
  (forall c, br_new_context b c = Replies) /\
  (forall c, br_new_page b c = Replies) /\
  (forall c, br_close b c = Replies) /\
  br_quit b = Replies /\
  br_stop b = Replies /\
  br_write b = Replies /\
  (forall c, br_cancelled b c = false).

Definition steady : Browser :=
  mkBrowser Replies Replies (fun _ => Replies) (fun _ => Replies) (fun _ => Replies)
            Replies Replies Replies (fun _ => false).

End Browsers.

(** ** Browsers to run the scripts against *)

Module BrowserScenario.
Import Browsers.

(** The browser cannot create its context number [k]. *)
Definition no_context_at (k : nat) (x : Thrown) : Browser :=
  mkBrowser Replies Replies (fun c => if c =? k then Fails x else Replies)
            (fun _ => Replies) (fun _ => Replies) Replies Replies Replies (fun _ => false).


(** Closing context number [k] raises. *)
Definition no_close_at (k : nat) (x : Thrown) : Browser :=
  mkBrowser Replies Replies (fun _ => Replies) (fun _ => Replies)
            (fun c => if c =? k then Fails x else Replies)
            Replies Replies Replies (fun _ => false).

(** The task is cancelled while the page of context number [k] is
    navigating. *)
Definition cancelled_at (k : nat) : Browser :=
  mkBrowser Replies Replies (fun _ => Replies) (fun _ => Replies) (fun _ => Replies)
            Replies Replies Replies (fun c => c =? k).

Definition closed_browser : Thrown :=
  AnException "Target page, context or browser has been closed".

End BrowserScenario.

(** ** Notions about the scripts with their browser *)

(** Two scripts that do the same in every state. *)
Definition same' {A : Type} (m1 m2 : Browsers.Script A) : Prop :=
  forall st, m1 st = m2 st.

(** How a block ends on the answer of its last operation. *)
Definition exit_of (r : Browsers.Reply) : Browsers.Exit unit :=
  match r with
  | Browsers.Replies => Browsers.Fine tt
  | Browsers.Fails x => Browsers.Throw x
  end.

(** The state in which a basic attempt is when the task is cancelled at
    its navigation and the context has been closed. *)
Definition cancelled_entry (s : string) (st : State) : State :=
  snd ((emit (EvGoto (next_ctx st) (base_url +++ "?strategy=" +++ s)) ;;
        close (next_ctx st)) (basic_entry s st)).


(** The sentence of the specification about a run, as it is stated: the
    run function ends normally and has recorded every strategy, in
    order. *)
Definition run_completes (strats : list string) (r : Browsers.Exit unit * State) : Prop :=
  fst r = Browsers.Fine tt /\
  map (get "strategy") (results (snd r)) = map (fun s => Some (VStr s)) strats.

(** The sentence about exceptions, as it is stated, for the polling
    queries of the adaptive monitoring of page [c]: when one of them
    raises, the entries recorded are failed ones. *)
Definition polling_errors_recorded (w : World AdaptiveSimpleSwapTester.Page)
           (c : nat) (rs : list Dict) : Prop :=
  forall i e,
    i < 15 ->
    aw_answer (AdaptiveSimpleSwapTester.tk_inputs
                 (AdaptiveSimpleSwapTester.on_monitor (page w c) i)) = Throws e ->
    forall r, In r rs -> get "success" r = Some (VBool false).

(** A page that the click sends to the exchange and that cannot be
    queried there. *)
Definition unreadable : AdaptiveSimpleSwapTester.Page :=
  AdaptiveSimpleSwapTester.mkPage
    (answers tt) (answers tt) (answers tt) (answers None) (answers tt)
    (mkAwait [] (Some "https://simpleswap.io/exchange?from=usd&to=btc") (Done tt))
    (fun _ => AdaptiveSimpleSwapTester.mkTick
                (answers tt) (throws "Execution context was destroyed") (answers ""))
    (answers tt).

(** The state in which an attempt is left when its page cannot be
    created: the context is there, and nothing else was done. *)
Definition pageless_entry (s : string) (a : option nat) (st : State) : State :=
  snd ((emit (EvTesting s a) ;; new_context) st).

(** ** Lemmas on blocks that stay inside an attempt *)

Arguments String.append : simpl never.

Lemma FrameBy_refl P st : FrameBy P st st.
Proof.
  repeat split; exists []; split; [now rewrite app_nil_r | reflexivity].
Qed.

Lemma FrameBy_trans P st1 st2 st3 :
  FrameBy P st1 st2 -> FrameBy P st2 st3 -> FrameBy P st1 st3.
Proof.
  intros (S1 & R1 & N1 & q1 & E1 & Q1) (S2 & R2 & N2 & q2 & E2 & Q2).
  repeat split; try congruence.
  exists (q1 ++ q2); split.
  - now rewrite E2, E1, app_assoc.
  - now rewrite forallb_app, Q1, Q2.
Qed.

Lemma Frame_refl st : Frame st st.
Proof. apply FrameBy_refl. Qed.

Lemma Frame_trans st1 st2 st3 : Frame st1 st2 -> Frame st2 st3 -> Frame st1 st3.
Proof. apply FrameBy_trans. Qed.

Lemma same_provider_flag_refl c st : same_provider_flag c st st.
Proof. reflexivity. Qed.

Lemma same_provider_flag_trans c st1 st2 st3 :
  same_provider_flag c st1 st2 -> same_provider_flag c st2 st3 -> same_provider_flag c st1 st3.
Proof. unfold same_provider_flag. congruence. Qed.

(** *** Blocks that keep a relation *)

#[export] Instance FrameBy_PreOrder P : PreOrder (FrameBy P).
Proof. split; [exact (FrameBy_refl P) | exact (FrameBy_trans P)]. Qed.

#[export] Instance same_provider_flag_PreOrder c : PreOrder (same_provider_flag c).
Proof.
  split; [exact (same_provider_flag_refl c) | exact (same_provider_flag_trans c)].
Qed.

Section Stable.
Context (I : State -> State -> Prop) {I_pre : PreOrder I}.

Let I_refl : forall st, I st st := @reflexivity _ I _.
Let I_trans : forall st1 st2 st3, I st1 st2 -> I st2 st3 -> I st1 st3 :=
  @transitivity _ I _.

Lemma stable_ret {A} (a : A) : stable I (ret a).
Proof. intros st; apply I_refl. Qed.

Lemma stable_raise {A} e : stable I (@raise A e).
Proof. intros st; apply I_refl. Qed.

Lemma stable_gets {A} (f : State -> A) : stable I (gets f).
Proof. intros st; apply I_refl. Qed.

Lemma stable_bind {A B} (m : M A) (f : A -> M B) :
  stable I m -> (forall a, stable I (f a)) -> stable I (bind m f).
Proof.
  intros Hm Hf st. specialize (Hm st). unfold bind.
  destruct (m st) as [[a | e |] st1]; simpl in *; auto.
  eapply I_trans; [exact Hm | apply Hf].
Qed.

Lemma stable_def (m : M unit) : stable I m -> stable I (def_ m).
Proof.
  intros Hm st. specialize (Hm st). unfold def_.
  destruct (m st) as [[a | e |] st1]; simpl in *; auto.
Qed.

Lemma stable_try_except {A} (m : M A) (h : string -> M A) :
  stable I m -> (forall e, stable I (h e)) -> stable I (try_except m h).
Proof.
  intros Hm Hh st. specialize (Hm st). unfold try_except.
  destruct (m st) as [[a | e |] st1]; simpl in *; auto.
  eapply I_trans; [exact Hm | apply Hh].
Qed.

Lemma stable_swallow (m : M unit) : stable I m -> stable I (swallow m).
Proof. intros Hm; apply stable_try_except; auto using stable_ret. Qed.

Lemma stable_for_each {A} (l : list A) (body : A -> M unit) :
  (forall x, stable I (body x)) -> stable I (for_each l body).
Proof.
  intros Hb; induction l as [| x l IH]; simpl.
  - apply stable_ret.
  - apply stable_bind; auto.
Qed.

Lemma stable_when b (m : M unit) : stable I m -> stable I (when b m).
Proof. intros Hm; destruct b; simpl; auto using stable_ret. Qed.

Lemma stable_count_if {A} (l : list A) (p : A -> M bool) :
  (forall x, stable I (p x)) -> stable I (count_if l p).
Proof.
  intros Hp; induction l as [| x l IH]; simpl.
  - apply stable_ret.
  - apply stable_bind; [apply Hp | intros b].
    apply stable_bind; [exact IH | intros n; apply stable_ret].
Qed.

Lemma stable_slice_text t : stable I (slice_text t).
Proof. destruct t; [apply stable_ret | apply stable_raise]. Qed.

End Stable.

(** Walks through a block statement by statement; [base] closes the
    statements that touch the state. *)
Ltac preorder_goal :=
  match goal with
  | |- PreOrder _ => typeclasses eauto
  | |- _ => idtac
  end.

Ltac stable_step base :=
  match goal with
  | |- stable _ (bind _ _) => apply stable_bind; preorder_goal; [ | intros ? ]
  | |- stable _ (def_ _) => apply stable_def
  | |- stable _ (swallow _) => apply stable_swallow; preorder_goal
  | |- stable _ (try_except _ _) => apply stable_try_except; preorder_goal; [ | intros ? ]
  | |- stable _ (for_each _ _) => apply stable_for_each; preorder_goal; intros ?
  | |- stable _ (when _ _) => apply stable_when; preorder_goal
  | |- stable _ (count_if _ _) => apply stable_count_if; preorder_goal; intros ?
  | |- stable _ (AdaptiveSimpleSwapTester.has_error_log _) =>
      unfold AdaptiveSimpleSwapTester.has_error_log
  | |- stable _ (ret _) => apply stable_ret; preorder_goal
  | |- stable _ (raise _) => apply stable_raise; preorder_goal
  | |- stable _ (gets _) => apply stable_gets; preorder_goal
  | |- stable _ (page_url _) => apply stable_gets; preorder_goal
  | |- stable _ (get_console _) => apply stable_gets; preorder_goal
  | |- stable _ (slice_text _) => apply stable_slice_text; preorder_goal
  | |- stable _ (match ?x with _ => _ end) => destruct x
  | |- stable _ _ => solve [base]
  end.

Ltac stable_tac base := cbv zeta; repeat (stable_step base; cbv zeta).

Lemma Frame_event st ev :
  quiet ev = true -> Frame st (set_events (fun evs => evs ++ [ev]) st).
Proof.
  intros Q; repeat split; exists [ev]; split; [reflexivity | simpl; now rewrite Q].
Qed.

Lemma Frame_live st c f : Frame st (set_live c f st).
Proof.
  repeat split; exists []; split; [simpl; now rewrite app_nil_r | reflexivity].
Qed.

Lemma Frame_insights st f : Frame st (set_insights f st).
Proof.
  repeat split; exists []; split; [simpl; now rewrite app_nil_r | reflexivity].
Qed.

Lemma Navigated_Frame c u st1 st2 st3 :
  Navigated c u st1 st2 -> Frame st2 st3 -> Navigated c u st1 st3.
Proof.
  intros (S1 & R1 & N1 & q1 & E1 & Q1) (S2 & R2 & N2 & q2 & E2 & Q2).
  repeat split; try congruence.
  exists (q1 ++ q2); split.
  - rewrite E2, E1, <- app_assoc. reflexivity.
  - now rewrite forallb_app, Q1, Q2.
Qed.

Lemma preserves_ret {A} (a : A) : preserves (ret a).
Proof. intros st; split; [apply Frame_refl | discriminate]. Qed.

Lemma preserves_raise {A} e : preserves (@raise A e).
Proof. intros st; split; [apply Frame_refl | discriminate]. Qed.

Lemma preserves_gets {A} (f : State -> A) : preserves (gets f).
Proof. intros st; split; [apply Frame_refl | discriminate]. Qed.

Lemma preserves_bind {A B} (m : M A) (f : A -> M B) :
  preserves m -> (forall a, preserves (f a)) -> preserves (bind m f).
Proof.
  intros Hm Hf st. destruct (Hm st) as [F N]. unfold bind.
  destruct (m st) as [[a | e |] st1]; simpl in *.
  - destruct (Hf a st1) as [F' N']. split; [eapply Frame_trans; eauto | exact N'].
  - split; [exact F | discriminate].
  - now contradiction N.
Qed.

Lemma preserves_def (m : M unit) : preserves m -> preserves (def_ m).
Proof.
  intros Hm st. destruct (Hm st) as [F N]. unfold def_.
  destruct (m st) as [[a | e |] st1]; simpl in *; split; auto; discriminate.
Qed.

Lemma preserves_try_except {A} (m : M A) (h : string -> M A) :
  preserves m -> (forall e, preserves (h e)) -> preserves (try_except m h).
Proof.
  intros Hm Hh st. destruct (Hm st) as [F N]. unfold try_except.
  destruct (m st) as [[a | e |] st1]; simpl in *.
  - split; [exact F | discriminate].
  - destruct (Hh e st1) as [F' N']. split; [eapply Frame_trans; eauto | exact N'].
  - now contradiction N.
Qed.

Lemma preserves_swallow (m : M unit) : preserves m -> preserves (swallow m).
Proof.
  intros Hm; apply preserves_try_except; auto. intros; apply preserves_ret.
Qed.

Lemma preserves_for_each {A} (l : list A) (body : A -> M unit) :
  (forall x, preserves (body x)) -> preserves (for_each l body).
Proof.
  intros Hb; induction l as [| x l IH]; simpl.
  - apply preserves_ret.
  - apply preserves_bind; auto.
Qed.

Lemma preserves_when b (m : M unit) : preserves m -> preserves (when b m).
Proof. intros Hm; destruct b; simpl; auto using preserves_ret. Qed.

Lemma preserves_count_if {A} (l : list A) (p : A -> M bool) :
  (forall x, preserves (p x)) -> preserves (count_if l p).
Proof.
  intros Hp; induction l as [| x l IH]; simpl.
  - apply preserves_ret.
  - apply preserves_bind; [apply Hp | intros b].
    apply preserves_bind; [exact IH | intros n; apply preserves_ret].
Qed.

Lemma preserves_await {T} c (a : Await T) : preserves (await_ c a).
Proof.
  intros st; split; [apply Frame_live | ].
  unfold await_; simpl. destruct (aw_answer a); discriminate.
Qed.

Lemma preserves_set_live c f : preserves (modify (set_live c f)).
Proof. intros st; split; [apply Frame_live | discriminate]. Qed.

Lemma preserves_set_insights f : preserves (modify (set_insights f)).
Proof. intros st; split; [apply Frame_insights | discriminate]. Qed.

Lemma preserves_emit ev : quiet ev = true -> preserves (emit ev).
Proof. intros Q st; split; [now apply Frame_event | discriminate]. Qed.

Lemma preserves_sleep_on c site secs a :
  page_site site = true -> preserves (sleep_on c site secs a).
Proof.
  intros Q. unfold sleep_on. apply preserves_bind.
  - now apply preserves_emit.
  - intros _; apply preserves_set_live.
Qed.

Lemma preserves_listen c : preserves (listen c).
Proof. apply preserves_set_live. Qed.

Lemma preserves_now {P} (w : World P) : preserves (now w).
Proof.
  intros st; split; [ | discriminate].
  repeat split; exists []; split; [simpl; now rewrite app_nil_r | reflexivity].
Qed.

Lemma preserves_slice_text t : preserves (slice_text t).
Proof. destruct t; [apply preserves_ret | apply preserves_raise]. Qed.

Lemma preserves_page_url c : preserves (page_url c).
Proof. apply preserves_gets. Qed.

Lemma preserves_get_console c : preserves (get_console c).
Proof. apply preserves_gets. Qed.

Lemma preserves_item k d : preserves (item k d).
Proof. unfold item; destruct (get k d); [apply preserves_ret | apply preserves_raise]. Qed.

Create HintDb frame.
#[export] Hint Resolve preserves_ret preserves_raise preserves_gets
  preserves_await preserves_set_live preserves_set_insights preserves_listen
  preserves_now preserves_slice_text preserves_page_url preserves_get_console
  preserves_item : frame.

(** Walks through a block statement by statement. *)
Ltac frame_step :=
  match goal with
  | |- preserves (bind _ _) => apply preserves_bind; [ | intros ? ]
  | |- preserves (def_ _) => apply preserves_def
  | |- preserves (swallow _) => apply preserves_swallow
  | |- preserves (try_except _ _) => apply preserves_try_except; [ | intros ? ]
  | |- preserves (for_each _ _) => apply preserves_for_each; intros ?
  | |- preserves (when _ _) => apply preserves_when
  | |- preserves (count_if _ _) => apply preserves_count_if; intros ?
  | |- preserves (AdaptiveSimpleSwapTester.has_error_log _) =>
      unfold AdaptiveSimpleSwapTester.has_error_log
  | |- preserves (sleep_on _ _ _ _) => apply preserves_sleep_on; reflexivity
  | |- preserves (emit _) => apply preserves_emit; reflexivity
  | |- preserves (match ?x with _ => _ end) => destruct x
  | |- preserves _ => solve [auto with frame]
  end.

Ltac frame_tac := cbv zeta; repeat (frame_step; cbv zeta).

(** What [bind] leaves behind. *)
Lemma bind_cases {A B} (m : M A) (f : A -> M B) st :
  (exists a st1, m st = (Ok a, st1) /\ bind m f st = f a st1) \/
  (exists e st1, m st = (Raise e, st1) /\ bind m f st = (Raise e, st1)) \/
  (exists st1, m st = (Returned, st1) /\ bind m f st = (Returned, st1)).
Proof.
  unfold bind. destruct (m st) as [[a | e |] st1]; eauto 6.
Qed.

Lemma goto_Navigated c u a st : Navigated c u st (snd (goto c u a st)).
Proof.
  repeat split. exists []. split; reflexivity.
Qed.

Lemma goto_not_returned c u a st : fst (goto c u a st) <> Returned.
Proof.
  unfold goto, bind, emit, modify, await_; simpl. destruct (aw_answer a); discriminate.
Qed.

(** A navigation followed by a block that stays inside the attempt. *)
Lemma goto_then {B} c u a (k : unit -> M B) st :
  (forall x, preserves (k x)) ->
  Navigated c u st (snd (bind (goto c u a) k st)) /\
  fst (bind (goto c u a) k st) <> Returned.
Proof.
  intros Hk. pose proof (goto_Navigated c u a st) as HN.
  pose proof (goto_not_returned c u a st) as HR.
  destruct (bind_cases (goto c u a) k st) as
    [(x & st1 & E & ->) | [(e & st1 & E & ->) | (st1 & E & ->)]];
    rewrite E in HN, HR; simpl in *.
  - destruct (Hk x st1) as [F N]. split; [eapply Navigated_Frame; eauto | exact N].
  - split; [exact HN | discriminate].
  - now contradiction HR.
Qed.

(** ** Lemmas on traces *)

Lemma last_goto_app x y :
  last_goto (x ++ y) =
  match last_goto y with
  | Some u => Some u
  | None => last_goto x
  end.
Proof.
  induction x as [| ev x IH]; simpl.
  - now destruct (last_goto y).
  - rewrite IH. now destruct (last_goto y).
Qed.

Lemma quiet_last_goto q : forallb quiet q = true -> last_goto q = None.
Proof.
  induction q as [| ev q IH]; simpl; [reflexivity | ].
  intros H; apply andb_prop in H as [Q1 Q2]. rewrite (IH Q2).
  destruct ev; simpl in Q1; try discriminate; reflexivity.
Qed.

Lemma quiet_filter (p : Event -> bool) q :
  (forall ev, quiet ev = true -> p ev = false) ->
  forallb quiet q = true -> filter p q = [].
Proof.
  intros Hp. induction q as [| ev q IH]; simpl; [reflexivity | ].
  intros H; apply andb_prop in H as [Q1 Q2]. now rewrite (Hp _ Q1), (IH Q2).
Qed.

Lemma quiet_attempts q : forallb quiet q = true -> attempts q = 0.
Proof.
  intros Q. unfold attempts. rewrite quiet_filter; auto.
  intros []; simpl; auto; discriminate.
Qed.

Lemma quiet_attempts_of s q : forallb quiet q = true -> attempts_of s q = 0.
Proof.
  intros Q. unfold attempts_of. rewrite quiet_filter; auto.
  intros []; simpl; auto; discriminate.
Qed.

Lemma quiet_sleeps site q :
  page_site site = false -> forallb quiet q = true -> sleeps site q = 0.
Proof.
  intros P Q. unfold sleeps. rewrite quiet_filter; auto.
  intros [| | | | | site' n | |]; simpl; auto.
  destruct site, site'; simpl in *; try discriminate; auto.
Qed.

Lemma attempts_app x y : attempts (x ++ y) = attempts x + attempts y.
Proof. unfold attempts. now rewrite filter_app, length_app. Qed.

Lemma attempts_of_app s x y : attempts_of s (x ++ y) = attempts_of s x + attempts_of s y.
Proof. unfold attempts_of. now rewrite filter_app, length_app. Qed.

Lemma sleeps_app site x y : sleeps site (x ++ y) = sleeps site x + sleeps site y.
Proof. unfold sleeps. now rewrite filter_app, length_app. Qed.

Lemma results_of_app s x y : results_of s (x ++ y) = results_of s x + results_of s y.
Proof. unfold results_of. now rewrite filter_app, length_app. Qed.







Lemma filter_open_self c : filter (fun c' => negb (c' =? c)) [c] = [].
Proof. simpl. now rewrite Nat.eqb_refl. Qed.



Lemma AttemptTrace_last_goto s a c evs :
  AttemptTrace s a c evs -> exists u, last_goto evs = Some u.
Proof.
  induction 1 as [a c u q Q | a c c' u q evs G Q HT [u' IH]].
  - exists u. rewrite last_goto_app, last_goto_app. simpl.
    now rewrite (quiet_last_goto q Q).
  - exists u'. rewrite last_goto_app, last_goto_app.
    change ([EvClose c; EvSleep RetryWait 5] ++ evs ++ [EvClose c])
      with ([EvClose c; EvSleep RetryWait 5] ++ (evs ++ [EvClose c])).
    rewrite last_goto_app, last_goto_app. simpl. now rewrite IH.
Qed.

Lemma attempts_of_head s s' a c u :
  attempts_of s' [EvTesting s a; EvOpen c; EvGoto c u] = if String.eqb s s' then 1 else 0.
Proof. unfold attempts_of; simpl. now destruct (String.eqb s s'). Qed.

(** Counting along the events of one call of the adaptive function. *)
Lemma AttemptTrace_counts s a c evs :
  AttemptTrace s a c evs ->
  attempts evs = S (sleeps RetryWait evs) /\
  (forall s', attempts_of s' evs = if String.eqb s s' then attempts evs else 0) /\
  sleeps BetweenStrategies evs = 0 /\
  sleeps RetryWait evs <= 2 - a.
Proof.
  induction 1 as [a c u q Q | a c c' u q evs G Q HT (IH1 & IH2 & IH3 & IH4)].
  - split; [ | split; [ | split]].
    + rewrite !attempts_app, !sleeps_app.
      rewrite (quiet_attempts q Q), (quiet_sleeps RetryWait q eq_refl Q). reflexivity.
    + intros s'. rewrite !attempts_of_app, !attempts_app, attempts_of_head.
      rewrite (quiet_attempts q Q), (quiet_attempts_of s' q Q).
      destruct (String.eqb s s'); reflexivity.
    + rewrite !sleeps_app, (quiet_sleeps BetweenStrategies q eq_refl Q). reflexivity.
    + rewrite !sleeps_app, (quiet_sleeps RetryWait q eq_refl Q).
      unfold sleeps; simpl. lia.
  - change ([EvClose c; EvSleep RetryWait 5] ++ evs ++ [EvClose c])
      with ([EvClose c; EvSleep RetryWait 5] ++ (evs ++ [EvClose c])).
    split; [ | split; [ | split]].
    + rewrite !attempts_app, !sleeps_app.
      rewrite (quiet_attempts q Q), (quiet_sleeps RetryWait q eq_refl Q), IH1.
      unfold attempts, sleeps; simpl. lia.
    + intros s'. rewrite !attempts_of_app, !attempts_app, attempts_of_head.
      rewrite (quiet_attempts q Q), (quiet_attempts_of s' q Q), (IH2 s').
      unfold attempts, attempts_of; simpl.
      destruct (String.eqb s s'); lia.
    + rewrite !sleeps_app, (quiet_sleeps BetweenStrategies q eq_refl Q), IH3. reflexivity.
    + rewrite !sleeps_app, (quiet_sleeps RetryWait q eq_refl Q).
      unfold sleeps at 1 2 4; simpl. destruct a as [| [| a]]; simpl in *; lia.
Qed.












(** ** The basic variant, one attempt *)

Section BasicAttempt.
Import SimpleSwapTester.
Variable w : World Page.

Lemma monitor_loop_preserves c : preserves (monitor_loop w c).
Proof. unfold monitor_loop. frame_tac. Qed.

Lemma monitor_simpleswap_page_preserves c s : preserves (monitor_simpleswap_page w c s).
Proof.
  unfold monitor_simpleswap_page. frame_tac. apply monitor_loop_preserves.
Qed.

Lemma watch_iframe_preserves c : preserves (watch_iframe w c).
Proof. unfold watch_iframe. frame_tac. Qed.

Lemma watch_redirect_preserves c s : preserves (watch_redirect w c s).
Proof.
  unfold watch_redirect. frame_tac. apply monitor_simpleswap_page_preserves.
Qed.

Lemma probe_Navigated c s st :
  Navigated c (base_url +++ "?strategy=" +++ s) st (snd (probe w c s st)) /\
  fst (probe w c s st) <> Returned.
Proof.
  unfold probe. cbv zeta. apply goto_then. intros _.
  frame_tac; auto using watch_iframe_preserves, watch_redirect_preserves.
Qed.

End BasicAttempt.

Section BasicCalls.
Import SimpleSwapTester.
Variable w : World Page.

Lemma collect_appends c s st :
  exists t u logs,
    collect w c s st =
    (Ok tt, set_results (fun rs => rs ++ [basic_result s t u logs]) (snd (now w st))).
Proof.
  exists (clock w (clock_reads st)), (url (live st c)), (console_logs (live st c)).
  reflexivity.
Qed.

Lemma on_exception_appends s e st :
  exists t,
    on_exception w s e st =
    (Ok tt, set_results (fun rs => rs ++ [basic_error_result s t e]) (snd (now w st))).
Proof. exists (clock w (clock_reads st)). reflexivity. Qed.

(** The [try] block either runs to the end and records a regular entry,
    or raises before anything was recorded. *)
Lemma try_block_cases c s st :
  (exists t u logs st2,
      Navigated c (base_url +++ "?strategy=" +++ s) st st2 /\
      try_block w c s st =
      (Ok tt, set_results (fun rs => rs ++ [basic_result s t u logs]) st2)) \/
  (exists e st2,
      Navigated c (base_url +++ "?strategy=" +++ s) st st2 /\
      try_block w c s st = (Raise e, st2)).
Proof.
  unfold try_block.
  destruct (probe_Navigated w c s st) as [HN HR].
  destruct (bind_cases (probe w c s) (fun _ => collect w c s) st) as
    [(x & st1 & E & ->) | [(e & st1 & E & ->) | (st1 & E & ->)]];
    rewrite E in HN, HR; simpl in *.
  - left. destruct (collect_appends c s st1) as (t & u & logs & ->).
    exists t, u, logs, (snd (now w st1)). split; [ | reflexivity].
    eapply Navigated_Frame; [exact HN | apply preserves_now].
  - right. eauto.
  - now contradiction HR.
Qed.

Lemma test_strategy_unfold s st :
  test_strategy w s st =
  match try_block w (next_ctx st) s (basic_entry s st) with
  | (Raise e, st2) =>
      (Ok tt, set_events (fun evs => evs ++ [EvClose (next_ctx st)])
                         (snd (on_exception w s e st2)))
  | (_, st2) => (Ok tt, set_events (fun evs => evs ++ [EvClose (next_ctx st)]) st2)
  end.
Proof.
  unfold test_strategy, def_, bind, emit, modify, new_context, try_finally, try_except,
    close, basic_entry; simpl.
  match goal with |- context [try_block w ?c s ?x] => destruct (try_block w c s x) as [[[] | e |] st2] end;
    reflexivity.
Qed.

Lemma basic_entry_fields s st :
  strategies (basic_entry s st) = strategies st /\
  results (basic_entry s st) = results st /\
  next_ctx (basic_entry s st) = S (next_ctx st) /\
  events (basic_entry s st) = events st ++ [EvTesting s None; EvOpen (next_ctx st)].
Proof.
  unfold basic_entry, bind, emit, modify, new_context; simpl.
  repeat split. now rewrite <- app_assoc.
Qed.

(** Every call of [test_strategy] returns normally and records one entry. *)
Lemma test_strategy_call s st :
  exists st' r, test_strategy w s st = (Ok tt, st') /\ BasicCall s st st' r.
Proof.
  rewrite test_strategy_unfold.
  destruct (basic_entry_fields s st) as (S0 & R0 & N0 & E0).
  destruct (try_block_cases (next_ctx st) s (basic_entry s st)) as
    [(t & u & logs & st2 & (S2 & R2 & N2 & q & E2 & Q) & ->) |
     (e & st2 & (S2 & R2 & N2 & q & E2 & Q) & ->)].
  - eexists; exists (basic_result s t u logs). split; [reflexivity | ].
    unfold BasicCall; simpl. repeat split; try congruence.
    + exists q. split; [ | exact Q]. rewrite E2, E0, <- !app_assoc. reflexivity.
    + left; eauto.
  - destruct (on_exception_appends s e st2) as (t & ->).
    eexists; exists (basic_error_result s t e). split; [reflexivity | ].
    unfold BasicCall; simpl. repeat split; try congruence.
    + exists q. split; [ | exact Q]. rewrite E2, E0, <- !app_assoc. reflexivity.
    + right; eauto.
Qed.

End BasicCalls.

Section BasicExceptions.
Import SimpleSwapTester.
Variable w : World Page.

(** When the [try] block raises, the call still returns normally and the
    entry it records is the one of the [except] block. *)
Lemma test_strategy_raise s st e st2 :
  try_block w (next_ctx st) s (basic_entry s st) = (Raise e, st2) ->
  exists t st',
    test_strategy w s st = (Ok tt, st') /\
    results st' = results st ++ [basic_error_result s t e].
Proof.
  intros H. rewrite test_strategy_unfold, H.
  destruct (basic_entry_fields s st) as (_ & R0 & _).
  destruct (try_block_cases w (next_ctx st) s (basic_entry s st)) as
    [(t & u & logs & st3 & _ & E) | (e' & st3 & (_ & R2 & _) & E)];
    rewrite H in E; [discriminate E | ].
  injection E as <- <-.
  destruct (on_exception_appends w s e st2) as (t & ->).
  exists t. eexists. split; [reflexivity | ]. simpl. congruence.
Qed.

End BasicExceptions.

(** ** The adaptive variant, one call *)

Lemma Retrying_preserves {A} T (m : M A) : preserves m -> Retrying T m.
Proof.
  intros Hm st. destruct (Hm st) as [F N].
  destruct (m st) as [[a | e |] st1]; simpl in *; auto. now contradiction N.
Qed.

Lemma Retrying_bind {A B} T (m : M A) (k : A -> M B) :
  preserves m -> (forall x, Retrying T (k x)) -> Retrying T (bind m k).
Proof.
  intros Hm Hk st. destruct (Hm st) as [F N]. unfold bind.
  destruct (m st) as [[a | e |] st1]; simpl in *; auto.
  - specialize (Hk a st1). destruct (k a st1) as [[b | e |] st2].
    + eapply Frame_trans; eauto.
    + eapply Frame_trans; eauto.
    + destruct Hk as (st2' & F' & HT). exists st2'. split; [eapply Frame_trans; eauto | exact HT].
  - now contradiction N.
Qed.

Lemma Retrying_then {A B} T (m : M A) (k : A -> M B) :
  Retrying T m -> (forall x, preserves (k x)) -> Retrying T (bind m k).
Proof.
  intros Hm Hk st. specialize (Hm st). unfold bind.
  destruct (m st) as [[a | e |] st1]; simpl in *; auto.
  destruct (Hk a st1) as [F' N'].
  destruct (k a st1) as [[b | e |] st2]; simpl in *.
  - eapply Frame_trans; eauto.
  - eapply Frame_trans; eauto.
  - now contradiction N'.
Qed.

Lemma Retrying_when T b (m : M unit) : Retrying T m -> Retrying T (when b m).
Proof.
  intros Hm; destruct b; simpl; [exact Hm | ].
  apply Retrying_preserves, preserves_ret.
Qed.

Lemma yields_ret {A} (v : A) : yields v (ret v).
Proof. intros st x st' E. unfold ret in E. congruence. Qed.

Lemma yields_bind {A B} (v : B) (m : M A) (k : A -> M B) :
  (forall a, yields v (k a)) -> yields v (bind m k).
Proof.
  intros Hk st x st' E. unfold bind in E.
  destruct (m st) as [[a | e |] st1]; try discriminate.
  eapply Hk; eauto.
Qed.

Section AdaptiveAttempt.
Import AdaptiveSimpleSwapTester.
Variable w : World Page.

Lemma log_insight_preserves i : preserves (log_insight w i).
Proof. unfold log_insight. frame_tac. Qed.

Hint Resolve log_insight_preserves : frame.

Lemma wait_for_cache_update_preserves c n : preserves (wait_for_cache_update w c n).
Proof. unfold wait_for_cache_update. frame_tac. Qed.

Lemma poll_preserves c s tick : preserves (poll w c s tick).
Proof. unfold poll, check_inputs, check_text, check_providers, set_amount_found,
    set_provider_found. frame_tac. Qed.

Lemma monitor_loop_with_learning_preserves c s : preserves (monitor_loop w c s).
Proof. unfold monitor_loop. frame_tac. apply poll_preserves. Qed.

Lemma monitor_simpleswap_with_learning_preserves c s :
  preserves (monitor_simpleswap_with_learning w c s).
Proof.
  unfold monitor_simpleswap_with_learning, learning_summary, take_screenshot,
    set_amount_found, set_provider_found.
  frame_tac. apply monitor_loop_with_learning_preserves.
Qed.

Lemma approach_Navigated c s u st :
  Navigated c u st (snd (approach w c s u st)) /\
  fst (approach w c s u st) <> Returned.
Proof.
  unfold approach. apply goto_then. intros _.
  frame_tac. apply wait_for_cache_update_preserves.
Qed.

Lemma analyze_patterns_preserves : preserves (analyze_patterns w).
Proof. unfold analyze_patterns. frame_tac. Qed.

Variable self_call : nat -> M unit.
Variable s : string.
Variable a : nat.
Hypothesis self_call_spec :
  a < 2 -> forall st, exists st' r,
    self_call (a + 1) st = (Ok tt, st') /\ AdaptiveCall s (S a) st st' r.

Lemma self_call_returns :
  a < 2 -> forall st, exists st', self_call (a + 1) st = (Ok tt, st').
Proof.
  intros G st. destruct (self_call_spec G st) as (st' & r & E & _). eauto.
Qed.

Lemma retry_Retrying c :
  Retrying (Retried self_call c a)
    (when (a <? 2) (close c ;; sleep RetryWait 5 ;; self_call (a + 1) ;; return_)).
Proof.
  intros st. destruct (a <? 2) eqn:G; simpl; [ | apply Frame_refl].
  apply Nat.ltb_lt in G.
  destruct (self_call_returns G (before_retry c st)) as (st3 & E).
  unfold bind, close, sleep, emit, modify, return_; simpl.
  unfold before_retry, bind, close, sleep, emit, modify in E; simpl in E.
  rewrite E. exists st. split; [apply Frame_refl | ].
  split; [exact G | ]. exact E.
Qed.

Lemma no_redirect_Retrying c :
  Retrying (Retried self_call c a) (no_redirect w self_call c s a).
Proof.
  unfold no_redirect.
  apply Retrying_bind; [auto with frame | intros _].
  apply Retrying_bind; [auto with frame | intros logs].
  apply Retrying_bind; [frame_tac | intros _].
  apply Retrying_then; [ | intros; auto with frame].
  destruct (last_item _); [ | apply Retrying_preserves; auto with frame].
  apply Retrying_when.
  apply Retrying_bind; [auto with frame | intros _].
  apply retry_Retrying.
Qed.

Lemma classify_Retrying c u cur :
  Retrying (Retried self_call c a) (classify w self_call c s a u cur).
Proof.
  unfold classify. destruct (String.eqb cur u).
  - apply no_redirect_Retrying.
  - apply Retrying_preserves.
    destruct (contains _ cur); frame_tac.
    apply monitor_simpleswap_with_learning_preserves.
Qed.

Lemma classify_same_url c u st sn st' :
  classify w self_call c s a u u st = (Ok sn, st') -> fst sn = false.
Proof.
  unfold classify. rewrite String.eqb_refl. intros E.
  assert (Y : yields (false, ["No redirect occurred"; "Checking console logs for cause"])
                     (no_redirect w self_call c s a)).
  { unfold no_redirect. repeat (apply yields_bind; intros ?). apply yields_ret. }
  now rewrite (Y _ _ _ E).
Qed.

Lemma adaptive_collect_appends c cur success notes st :
  exists t logs,
    collect w c s a cur success notes st =
    (Ok tt, set_results (fun rs => rs ++ [adaptive_result s a t success cur logs notes])
                        (snd (now w st))).
Proof.
  exists (clock w (clock_reads st)), (console_logs (live st c)). reflexivity.
Qed.

Lemma adaptive_on_exception_appends c e st :
  exists t logs st1,
    Frame st st1 /\
    on_exception w c s a e st =
    (Ok tt, set_results (fun rs => rs ++ [adaptive_error_result s a t e logs]) st1).
Proof.
  set (st1 := snd (now w (snd (log_insight w ("Exception in " +++ s +++ ": " +++ e) st)))).
  exists (clock w (S (clock_reads st))), (console_logs (live st c)), st1.
  split; [ | reflexivity].
  eapply Frame_trans; [apply log_insight_preserves | apply preserves_now].
Qed.

Lemma Navigated_now c u st st2 :
  Navigated c u (snd (now w st)) st2 -> Navigated c u st st2.
Proof. intros H; exact H. Qed.

Lemma adaptive_try_block_unfold c st :
  try_block w self_call c s a st =
  let u := request_url s (clock w (clock_reads st)) in
  match approach w c s u (snd (now w st)) with
  | (Ok _, st1) =>
      let cur := url (live st1 c) in
      match classify w self_call c s a u cur st1 with
      | (Ok sn, st2) => collect w c s a cur (fst sn) (snd sn) st2
      | (Raise e, st2) => (Raise e, st2)
      | (Returned, st2) => (Returned, st2)
      end
  | (Raise e, st1) => (Raise e, st1)
  | (Returned, st1) => (Returned, st1)
  end.
Proof. reflexivity. Qed.

(** The [try] block runs to the end and records a regular entry, or
    raises before anything was recorded, or returns through the retry. *)
Lemma adaptive_try_block_cases c st :
  let u := request_url s (clock w (clock_reads st)) in
  (exists st2 t success cur logs notes,
      Navigated c u st st2 /\
      (cur = u -> success = false) /\
      try_block w self_call c s a st =
      (Ok tt, set_results (fun rs => rs ++ [adaptive_result s a t success cur logs notes]) st2)) \/
  (exists e st2,
      Navigated c u st st2 /\
      try_block w self_call c s a st = (Raise e, st2)) \/
  (exists st2 st3,
      Navigated c u st st2 /\
      Retried self_call c a st2 st3 /\
      try_block w self_call c s a st = (Returned, st3)).
Proof.
  intros u. rewrite adaptive_try_block_unfold. cbv zeta. fold u.
  set (st0 := snd (now w st)).
  destruct (approach_Navigated c s u st0) as [HN HR].
  apply Navigated_now in HN.
  destruct (approach w c s u st0) as [[[] | e |] st1]; simpl in HN, HR.
  2: { right; left. eauto. }
  2: { now contradiction HR. }
  set (cur := url (live st1 c)).
  pose proof (classify_Retrying c u cur st1) as HC.
  pose proof (fun sn st' => classify_same_url c u st1 sn st') as HV.
  destruct (classify w self_call c s a u cur st1) as [[sn | e |] st2] eqn:EC.
  - left.
    destruct (adaptive_collect_appends c cur (fst sn) (snd sn) st2) as (t & logs & ->).
    exists (snd (now w st2)), t, (fst sn), cur, logs, (snd sn).
    split; [ | split; [ | reflexivity]].
    + eapply Navigated_Frame; [exact HN | ].
      eapply Frame_trans; [exact HC | apply preserves_now].
    + intros E. rewrite E in EC. eapply HV; eauto.
  - right; left. exists e, st2. split; [ | reflexivity].
    eapply Navigated_Frame; eauto.
  - right; right. destruct HC as (st2' & F & HT).
    exists st2', st2. split; [eapply Navigated_Frame; eauto | ]. split; [exact HT | reflexivity].
Qed.

Lemma body_unfold st :
  test_strategy_with_learning_body w self_call s a st =
  match try_block w self_call (next_ctx st) s a (adaptive_entry s a st) with
  | (Raise e, st2) =>
      (Ok tt, set_events (fun evs => evs ++ [EvClose (next_ctx st)])
                         (snd (on_exception w (next_ctx st) s a e st2)))
  | (_, st2) => (Ok tt, set_events (fun evs => evs ++ [EvClose (next_ctx st)]) st2)
  end.
Proof.
  unfold test_strategy_with_learning_body, def_, bind, emit, modify, new_context, listen,
    try_finally, try_except, close, adaptive_entry; simpl.
  match goal with
  | |- context [try_block w self_call ?c s a ?x] =>
      destruct (try_block w self_call c s a x) as [[[] | e |] st2]
  end; reflexivity.
Qed.

Lemma adaptive_entry_fields st :
  strategies (adaptive_entry s a st) = strategies st /\
  results (adaptive_entry s a st) = results st /\
  events (adaptive_entry s a st) = events st ++ [EvTesting s (Some a); EvOpen (next_ctx st)].
Proof.
  unfold adaptive_entry, bind, emit, modify, new_context, listen; simpl.
  repeat split. now rewrite <- app_assoc.
Qed.

Lemma single_last_goto c u q u' :
  forallb quiet q = true ->
  last_goto ([EvTesting s (Some a); EvOpen c; EvGoto c u] ++ q ++ [EvClose c]) = Some u' ->
  u' = u.
Proof.
  intros Q. rewrite !last_goto_app. simpl. rewrite (quiet_last_goto q Q). congruence.
Qed.

(** One level of the function, given that the nested call behaves. *)
Lemma body_call st :
  exists st' r,
    test_strategy_with_learning_body w self_call s a st = (Ok tt, st') /\
    AdaptiveCall s a st st' r.
Proof.
  rewrite body_unfold.
  destruct (adaptive_entry_fields st) as (S0 & R0 & E0).
  set (c := next_ctx st) in *.
  destruct (adaptive_try_block_cases c (adaptive_entry s a st)) as
    [(st2 & t & success & cur & logs & notes & (S2 & R2 & _ & q & E2 & Q) & HS & ->) |
     [(e & st2 & (S2 & R2 & _ & q & E2 & Q) & ->) |
      (st2 & st3 & (S2 & R2 & _ & q & E2 & Q) & [G HT] & ->)]].
  - eexists; exists (adaptive_result s a t success cur logs notes). split; [reflexivity | ].
    unfold AdaptiveCall; simpl. repeat split; try congruence.
    + left. do 6 eexists; reflexivity.
    + eexists. split; [ | split].
      * rewrite E2, E0, <- !app_assoc. simpl. reflexivity.
      * apply (trace_single s a c _ q Q).
      * intros u' L. apply (single_last_goto c _ q u' Q) in L. subst u'.
        intros F. injection F as F. now rewrite (HS F).
  - destruct (adaptive_on_exception_appends c e st2) as (t & logs & st3 & (S3 & R3 & _ & q' & E3 & Q') & ->).
    eexists; exists (adaptive_error_result s a t e logs). split; [reflexivity | ].
    unfold AdaptiveCall; simpl. repeat split; try congruence.
    + right. do 4 eexists; reflexivity.
    + eexists. split; [ | split].
      * rewrite E3, E2, E0, <- !app_assoc. simpl. rewrite app_assoc. reflexivity.
      * apply (trace_single s a c _ (q ++ q')). now rewrite forallb_app, Q, Q'.
      * intros u' _ F. discriminate F.
  - destruct (self_call_spec G (before_retry c st2)) as (st3' & r & E & HC).
    rewrite HT in E. injection E as <-.
    destruct HC as (S3 & R3 & HE & evs & E3 & HTr & HL).
    assert (EB : events (before_retry c st2) = events st2 ++ [EvClose c; EvSleep RetryWait 5]).
    { unfold before_retry, bind, close, sleep, emit, modify; simpl. now rewrite <- app_assoc. }
    assert (SB : strategies (before_retry c st2) = strategies st2) by reflexivity.
    assert (RB : results (before_retry c st2) = results st2) by reflexivity.
    exists (set_events (fun evs => evs ++ [EvClose c]) st3), r. split; [reflexivity | ].
    unfold AdaptiveCall; simpl. repeat split; try congruence.
    exists ([EvTesting s (Some a); EvOpen c;
             EvGoto c (request_url s (clock w (clock_reads (adaptive_entry s a st))))] ++
            q ++ [EvClose c; EvSleep RetryWait 5] ++ evs ++ [EvClose c]).
    split; [ | split].
    + rewrite E3, EB, E2, E0, <- !app_assoc. simpl. reflexivity.
    + apply (trace_retry s a c _ _ q evs G Q HTr).
    + intros u'. destruct (AttemptTrace_last_goto _ _ _ _ HTr) as (u0 & L0).
      rewrite last_goto_app.
      change ([EvClose c; EvSleep RetryWait 5] ++ evs ++ [EvClose c])
        with ([EvClose c; EvSleep RetryWait 5] ++ (evs ++ [EvClose c])).
      rewrite !last_goto_app. simpl. rewrite L0. intros L. apply HL. congruence.
Qed.

End AdaptiveAttempt.

Section AdaptiveCalls.
Import AdaptiveSimpleSwapTester.
Variable w : World Page.

Lemma unroll_call depth : forall s a st,
  2 - a <= depth ->
  exists st' r, unroll w depth s a st = (Ok tt, st') /\ AdaptiveCall s a st st' r.
Proof.
  induction depth as [| depth IH]; intros s a st D; simpl.
  - apply body_call. intros G; lia.
  - apply body_call. intros G st0. rewrite Nat.add_1_r. apply IH. lia.
Qed.

(** Every call of [test_strategy_with_learning] returns normally and
    records one entry. *)
Lemma test_strategy_with_learning_call s a st :
  exists st' r,
    test_strategy_with_learning w s a st = (Ok tt, st') /\ AdaptiveCall s a st st' r.
Proof. apply unroll_call. lia. Qed.

End AdaptiveCalls.

(** ** The recursion of [test_strategy_with_learning] *)

Lemma same_refl {A} (m : M A) : same m m.
Proof. intros st; reflexivity. Qed.

Lemma same_bind {A B} (m1 m2 : M A) (k1 k2 : A -> M B) :
  same m1 m2 -> (forall x, same (k1 x) (k2 x)) -> same (bind m1 k1) (bind m2 k2).
Proof.
  intros Hm Hk st. unfold bind. rewrite Hm.
  destruct (m2 st) as [[a | e |] st1]; [apply Hk | reflexivity | reflexivity].
Qed.

Lemma same_when b (m1 m2 : M unit) : (b = true -> same m1 m2) -> same (when b m1) (when b m2).
Proof. intros H; destruct b; simpl; [now apply H | apply same_refl]. Qed.

Lemma same_def (m1 m2 : M unit) : same m1 m2 -> same (def_ m1) (def_ m2).
Proof. intros H st. unfold def_. now rewrite H. Qed.

Lemma same_try_except {A} (m1 m2 : M A) h : same m1 m2 -> same (try_except m1 h) (try_except m2 h).
Proof. intros H st. unfold try_except. now rewrite H. Qed.

Lemma same_try_finally {A} (m1 m2 : M A) f : same m1 m2 -> same (try_finally m1 f) (try_finally m2 f).
Proof. intros H st. unfold try_finally. now rewrite H. Qed.

Section Recursion.
Import AdaptiveSimpleSwapTester.
Variable w : World Page.

(** The body looks at its recursive call only for [attempt + 1], and only
    under [attempt < 2]. *)
Lemma body_same f g s a :
  (a < 2 -> same (f (a + 1)) (g (a + 1))) ->
  same (test_strategy_with_learning_body w f s a) (test_strategy_with_learning_body w g s a).
Proof.
  intros H. unfold test_strategy_with_learning_body.
  apply same_def. apply same_bind; [apply same_refl | intros _].
  apply same_bind; [apply same_refl | intros c].
  apply same_bind; [apply same_refl | intros _].
  apply same_try_finally, same_try_except.
  unfold try_block.
  apply same_bind; [apply same_refl | intros t]. cbv zeta.
  apply same_bind; [apply same_refl | intros _].
  apply same_bind; [apply same_refl | intros cur].
  apply same_bind; [ | intros; apply same_refl].
  unfold classify. destruct (String.eqb cur _); [ | apply same_refl].
  unfold no_redirect.
  apply same_bind; [apply same_refl | intros _].
  apply same_bind; [apply same_refl | intros logs].
  apply same_bind; [apply same_refl | intros _].
  apply same_bind; [ | intros; apply same_refl].
  destruct (last_item _); [ | apply same_refl].
  apply same_when; intros _.
  apply same_bind; [apply same_refl | intros _].
  apply same_when; intros G. apply Nat.ltb_lt in G.
  apply same_bind; [apply same_refl | intros _].
  apply same_bind; [apply same_refl | intros _].
  apply same_bind; [now apply H | intros; apply same_refl].
Qed.

(** The function satisfies the recursive equation of the source. *)
Lemma test_strategy_with_learning_unfold s a :
  same (test_strategy_with_learning w s a)
       (test_strategy_with_learning_body w (test_strategy_with_learning w s) s a).
Proof.
  unfold test_strategy_with_learning at 1.
  destruct (2 - a) as [| d] eqn:D; simpl; apply body_same; intros G; [lia | ].
  unfold test_strategy_with_learning. replace (2 - (a + 1)) with d by lia.
  apply same_refl.
Qed.

End Recursion.

Section AdaptiveExceptions.
Import AdaptiveSimpleSwapTester.
Variable w : World Page.

(** When the [try] block raises, the call still returns normally and the
    entry it records is the one of the [except] block. *)
Lemma test_strategy_with_learning_raise s a st e st2 :
  try_block w (test_strategy_with_learning w s) (next_ctx st) s a (adaptive_entry s a st)
  = (Raise e, st2) ->
  exists t logs st',
    test_strategy_with_learning w s a st = (Ok tt, st') /\
    results st' = results st ++ [adaptive_error_result s a t e logs].
Proof.
  intros H. rewrite test_strategy_with_learning_unfold, body_unfold, H.
  destruct (adaptive_entry_fields s a st) as (_ & R0 & _).
  assert (HS : a < 2 -> forall st0, exists st' r,
               test_strategy_with_learning w s (a + 1) st0 = (Ok tt, st') /\
               AdaptiveCall s (S a) st0 st' r).
  { intros _ st0. rewrite Nat.add_1_r. apply test_strategy_with_learning_call. }
  destruct (adaptive_try_block_cases w (test_strategy_with_learning w s) s a HS
              (next_ctx st) (adaptive_entry s a st)) as
    [(st3 & t & b & cur & logs & notes & _ & _ & E) |
     [(e' & st3 & (_ & R2 & _) & E) | (st3 & st4 & _ & _ & E)]];
    rewrite H in E; try discriminate E.
  injection E as <- <-.
  destruct (adaptive_on_exception_appends w s a (next_ctx st) e st2) as
    (t & logs & st3 & (_ & R3 & _) & ->).
  exists t, logs. eexists. split; [reflexivity | ]. simpl. congruence.
Qed.

End AdaptiveExceptions.

(** ** The main loops *)

Lemma for_each_Chain {A} (R : A -> State -> State -> Prop) (body : A -> M unit) :
  (forall x st, exists st', body x st = (Ok tt, st') /\ R x st st') ->
  forall l st, exists st', for_each l body st = (Ok tt, st') /\ Chain R l st st'.
Proof.
  intros Hb. induction l as [| x l IH]; intros st; simpl.
  - exists st. split; [reflexivity | constructor].
  - destruct (Hb x st) as (st1 & E1 & R1). destruct (IH st1) as (st2 & E2 & C2).
    exists st2. unfold bind. rewrite E1. split; [exact E2 | econstructor; eauto].
Qed.

(** The same for a loop body that relies on an invariant and keeps it. *)
Lemma for_each_Chain_inv {A} (Inv : State -> Prop)
      (R : A -> State -> State -> Prop) (body : A -> M unit) :
  (forall x st, Inv st -> exists st', body x st = (Ok tt, st') /\ R x st st' /\ Inv st') ->
  forall l st, Inv st ->
    exists st', for_each l body st = (Ok tt, st') /\ Chain R l st st' /\ Inv st'.
Proof.
  intros Hb. induction l as [| x l IH]; intros st HI; simpl.
  - exists st. split; [reflexivity | split; [constructor | exact HI]].
  - destruct (Hb x st HI) as (st1 & E1 & R1 & I1). destruct (IH st1 I1) as (st2 & E2 & C2 & I2).
    exists st2. unfold bind. rewrite E1. split; [exact E2 | split; [econstructor; eauto | exact I2]].
Qed.

Lemma count_if_pure {A} (l : list A) (p : A -> M bool) :
  Forall (fun x => exists b, forall st, p x st = (Ok b, st)) l ->
  exists n, forall st, count_if l p st = (Ok n, st).
Proof.
  induction 1 as [| x l (b & Hb) _ (n & Hn)]; simpl.
  - exists 0. reflexivity.
  - exists (if b then S n else n). intros st. unfold bind. now rewrite Hb, Hn.
Qed.

Lemma Chain_Round {A} (P : A -> Dict -> Prop) (Q : A -> list Event -> Prop) l st st' :
  Chain (Round P Q) l st st' ->
  strategies st' = strategies st /\
  exists rs evss,
    results st' = results st ++ rs /\
    events st' = events st ++ concat evss /\
    Forall2 P l rs /\ Forall2 Q l evss.
Proof.
  induction 1 as [st | x l st st1 st2 (S1 & r & evs & R1 & E1 & HP & HQ) _
                          (S2 & rs & evss & R2 & E2 & FP & FQ)].
  - split; [reflexivity | ]. exists [], []. simpl. rewrite !app_nil_r. auto.
  - split; [congruence | ]. exists (r :: rs), (evs :: evss). simpl.
    rewrite R2, R1, E2, E1, <- !app_assoc. auto.
Qed.

Lemma item_present k d v st : get k d = Some v -> item k d st = (Ok v, st).
Proof. intros E. unfold item. now rewrite E. Qed.

Lemma summary_loop_ok (rs : list Dict) st :
  Forall summarizable rs ->
  for_each (filter (fun r => truthy (get "success" r)) rs)
    (fun result =>
       _ <- item "strategy" result ;; _ <- item "final_url" result ;; ret tt) st = (Ok tt, st).
Proof.
  induction 1 as [| r rs [HS HF] _ IH]; simpl; [reflexivity | ].
  destruct (truthy (get "success" r)) eqn:T; [ | exact IH]. simpl.
  destruct (get "strategy" r) as [v1 |] eqn:E1; [ | congruence].
  destruct (get "final_url" r) as [v2 |] eqn:E2; [ | now contradiction (HF T)].
  unfold bind at 1 2. rewrite (item_present _ _ _ st E1).
  unfold bind at 1. rewrite (item_present _ _ _ st E2). simpl. exact IH.
Qed.

Lemma failed_loop_ok (rs : list Dict) st :
  Forall summarizable rs ->
  for_each (filter (fun r => negb (truthy (get "success" r))) rs)
    (fun result => _ <- item "strategy" result ;; ret tt) st = (Ok tt, st).
Proof.
  induction 1 as [| r rs [HS HF] _ IH]; simpl; [reflexivity | ].
  destruct (negb (truthy (get "success" r))); [ | exact IH]. simpl.
  destruct (get "strategy" r) as [v1 |] eqn:E1; [ | congruence].
  unfold bind at 1 2. rewrite (item_present _ _ _ st E1). simpl. exact IH.
Qed.

Lemma BasicEntry_summarizable s r : BasicEntry s r -> summarizable r.
Proof.
  intros [(t & u & logs & ->) | (t & e & ->)]; split; simpl; try discriminate.
Qed.

Lemma AdaptiveEntry_summarizable s r : AdaptiveEntry s r -> summarizable r.
Proof.
  intros [(a & t & b & u & logs & notes & ->) | (a & t & e & logs & ->)];
    split; simpl; try discriminate.
Qed.

Lemma Forall2_Forall_r {A B} (P : A -> B -> Prop) (Q : B -> Prop) l rs :
  (forall x r, P x r -> Q r) -> Forall2 P l rs -> Forall Q rs.
Proof. intros H; induction 1; constructor; eauto. Qed.

Section BasicRun.
Import SimpleSwapTester.
Variable w : World Page.

Lemma print_summary_ok st :
  Forall summarizable (results st) -> print_summary st = (Ok tt, st).
Proof.
  intros H. unfold print_summary, def_, bind at 1, gets. cbv zeta.
  unfold bind at 1. rewrite (summary_loop_ok _ st H).
  rewrite (failed_loop_ok _ st H). reflexivity.
Qed.

Lemma basic_round s st :
  exists st',
    (test_strategy w s ;; sleep BetweenStrategies 2) st = (Ok tt, st') /\
    Round BasicEntry BasicRoundTrace s st st'.
Proof.
  destruct (test_strategy_call w s st) as (st1 & r & E & S1 & R1 & N1 & (q & E1 & Q) & HE).
  exists (set_events (fun evs => evs ++ [EvSleep BetweenStrategies 2]) st1).
  unfold bind. rewrite E. split; [reflexivity | ].
  split; [exact S1 | ]. exists r. eexists. simpl. repeat split; eauto.
  - rewrite E1, <- app_assoc. reflexivity.
  - exists (next_ctx st), (base_url +++ "?strategy=" +++ s), q. split; [ | exact Q].
    simpl. rewrite <- !app_assoc. reflexivity.
Qed.

(** The loop of [run_all_tests], and what follows it. *)
Lemma run_all_tests_loop st :
  exists st1,
    Chain (Round BasicEntry BasicRoundTrace) (strategies st) st st1 /\
    run_all_tests w st =
    def_ print_summary
      (set_events (fun evs => evs ++
         [EvDump ("/tmp/simpleswap_results_" +++ str_int (clock w (clock_reads st1)) +++ ".json")])
         (snd (now w st1))).
Proof.
  destruct (for_each_Chain (Round BasicEntry BasicRoundTrace)
              (fun s => test_strategy w s ;; sleep BetweenStrategies 2)
              basic_round (strategies st) st) as (st1 & E & C).
  exists st1. split; [exact C | ].
  unfold run_all_tests, def_, bind at 1, gets.
  unfold bind at 1. rewrite E. reflexivity.
Qed.

End BasicRun.

Section AdaptiveRun.
Import AdaptiveSimpleSwapTester.
Variable w : World Page.

Lemma print_adaptive_summary_ok st :
  Forall summarizable (results st) -> print_adaptive_summary st = (Ok tt, st).
Proof.
  intros H. unfold print_adaptive_summary, def_, bind at 1, gets. cbv zeta.
  unfold bind at 1. rewrite (summary_loop_ok _ st H). reflexivity.
Qed.

Lemma has_error_log_pure r :
  iterable_logs r -> exists b, forall st, has_error_log r st = (Ok b, st).
Proof.
  unfold iterable_logs, has_error_log.
  destruct (get "console_logs" r) as [[] | ]; intros H; try contradiction; eexists; reflexivity.
Qed.

Lemma AdaptiveEntry_iterable s r : AdaptiveEntry s r -> iterable_logs r.
Proof.
  intros [(a & t & b & u & logs & notes & ->) | (a & t & e & logs & ->)]; exact I.
Qed.

(** On entries whose console logs can be iterated, [analyze_patterns]
    returns normally. *)
Lemma analyze_patterns_ok st :
  Forall iterable_logs (results st) ->
  exists st', analyze_patterns w st = (Ok tt, st') /\ Frame st st'.
Proof.
  intros H. destruct (analyze_patterns_preserves w st) as [F _].
  assert (E : exists st', analyze_patterns w st = (Ok tt, st')).
  { unfold analyze_patterns, def_, bind at 1, gets. cbv zeta.
    destruct (count_if_pure
                (filter (fun r => negb (truthy (get "success" r))) (results st))
                has_error_log) as (n & Hn).
    { apply Forall_forall. intros r HI. apply filter_In in HI as [HI _].
      apply has_error_log_pure. revert r HI. now apply Forall_forall. }
    unfold bind at 1.
    match goal with
    | |- context [when ?b (log_insight w ?i) st] =>
        assert (E1 : exists st1, when b (log_insight w i) st = (Ok tt, st1))
          by (destruct b; eexists; reflexivity);
        destruct E1 as (st1 & ->)
    end.
    match goal with |- context [when ?b _ st1] => destruct b end; simpl;
      [ | eexists; reflexivity].
    unfold bind. rewrite Hn. destruct (0 <? n); simpl; eexists; reflexivity. }
  destruct E as (st' & E). rewrite E in F. exists st'. split; [exact E | exact F].
Qed.

Lemma adaptive_round n (x : nat * string) st :
  Forall iterable_logs (results st) ->
  exists st',
    (let '(i, strategy) := x in
     test_strategy_with_learning w strategy 1 ;;
     when (0 <? i) (analyze_patterns w) ;;
     when (i <? n - 1) (sleep BetweenStrategies 3)) st = (Ok tt, st') /\
    Round (fun x => AdaptiveEntry (snd x)) (AdaptiveRoundTrace n) x st st' /\
    Forall iterable_logs (results st').
Proof.
  intros HI. destruct x as [i s].
  destruct (test_strategy_with_learning_call w s 1 st) as
    (st1 & r & E & S1 & R1 & HE & call & E1 & HT & _).
  unfold bind at 1. rewrite E.
  assert (I1 : Forall iterable_logs (results st1)).
  { rewrite R1. apply Forall_app. split; [exact HI | ].
    constructor; [ | constructor]. exact (AdaptiveEntry_iterable s r HE). }
  assert (HA : exists st2, when (0 <? i) (analyze_patterns w) st1 = (Ok tt, st2) /\ Frame st1 st2).
  { destruct (0 <? i); simpl.
    - exact (analyze_patterns_ok st1 I1).
    - exists st1. split; [reflexivity | apply Frame_refl]. }
  destruct HA as (st2 & EA & (S2 & R2 & _ & q & E2 & Q)).
  unfold bind. rewrite EA.
  exists (snd (when (i <? n - 1) (sleep BetweenStrategies 3) st2)).
  split; [destruct (i <? n - 1); reflexivity | ].
  split; [ | destruct (i <? n - 1); simpl; rewrite R2; exact I1].
  split; [destruct (i <? n - 1); simpl; congruence | ].
  exists r, (call ++ q ++ (if i <? n - 1 then [EvSleep BetweenStrategies 3] else [])).
  repeat split.
  - destruct (i <? n - 1); simpl; congruence.
  - destruct (i <? n - 1); simpl; rewrite E2, E1, <- !app_assoc; try reflexivity.
    now rewrite !app_nil_r.
  - exact HE.
  - exists (next_ctx st), call, q. auto.
Qed.

(** The loop of [run_adaptive_tests], and what follows it. *)
Lemma run_adaptive_tests_loop st :
  Forall iterable_logs (results st) ->
  exists st1,
    Chain (Round (fun x => AdaptiveEntry (snd x)) (AdaptiveRoundTrace (length (strategies st))))
          (enumerate (strategies st)) st st1 /\
    run_adaptive_tests w st =
    def_ print_adaptive_summary
      (set_events (fun evs => evs ++
         [EvDump ("/tmp/adaptive_results_" +++ str_int (clock w (clock_reads st1)) +++ ".json")])
         (snd (now w st1))).
Proof.
  intros HI.
  destruct (for_each_Chain_inv (fun st0 => Forall iterable_logs (results st0))
              (Round (fun x => AdaptiveEntry (snd x)) (AdaptiveRoundTrace (length (strategies st))))
              (fun '(i, strategy) =>
                 test_strategy_with_learning w strategy 1 ;;
                 when (0 <? i) (analyze_patterns w) ;;
                 when (i <? length (strategies st) - 1) (sleep BetweenStrategies 3))
              (adaptive_round (length (strategies st)))
              (enumerate (strategies st)) st HI) as (st1 & E & C & _).
  exists st1. split; [exact C | ].
  unfold run_adaptive_tests, def_, bind at 1, gets.
  unfold bind at 1. rewrite E. reflexivity.
Qed.

End AdaptiveRun.

(** ** Whole runs of a new tester *)

Lemma run_all_tests_shape (w : World SimpleSwapTester.Page) strats :
  exists st' evss t,
    SimpleSwapTester.run_all_tests w (tester_with strats) = (Ok tt, st') /\
    strategies st' = strats /\
    Forall2 BasicEntry strats (results st') /\
    events st' = concat evss ++ [EvDump ("/tmp/simpleswap_results_" +++ str_int t +++ ".json")] /\
    Forall2 BasicRoundTrace strats evss.
Proof.
  destruct (run_all_tests_loop w (tester_with strats)) as (st1 & C & E).
  apply Chain_Round in C as (S1 & rs & evss & R1 & E1 & FP & FQ). simpl in *.
  rewrite E. unfold def_. rewrite print_summary_ok.
  - eexists; exists evss; eexists. split; [reflexivity | ]. simpl.
    rewrite R1, E1. auto.
  - simpl. rewrite R1. eapply Forall2_Forall_r; [ | exact FP].
    intros x r. apply BasicEntry_summarizable.
Qed.

Lemma run_adaptive_tests_shape (w : World AdaptiveSimpleSwapTester.Page) strats :
  exists st' evss t,
    AdaptiveSimpleSwapTester.run_adaptive_tests w (tester_with strats) = (Ok tt, st') /\
    strategies st' = strats /\
    Forall2 (fun x => AdaptiveEntry (snd x)) (enumerate strats) (results st') /\
    events st' = concat evss ++ [EvDump ("/tmp/adaptive_results_" +++ str_int t +++ ".json")] /\
    Forall2 (AdaptiveRoundTrace (length strats)) (enumerate strats) evss.
Proof.
  destruct (run_adaptive_tests_loop w (tester_with strats) (Forall_nil _)) as (st1 & C & E).
  apply Chain_Round in C as (S1 & rs & evss & R1 & E1 & FP & FQ). simpl in *.
  rewrite E. unfold def_. rewrite print_adaptive_summary_ok.
  - eexists; exists evss; eexists. split; [reflexivity | ]. simpl.
    rewrite R1, E1. auto.
  - simpl. rewrite R1. eapply Forall2_Forall_r; [ | exact FP].
    intros x r. apply AdaptiveEntry_summarizable.
Qed.

Lemma enumerate_snd {A} (l : list A) : map snd (enumerate l) = l.
Proof.
  unfold enumerate. generalize 0. induction l as [| x l IH]; intros k; simpl.
  - reflexivity.
  - now rewrite IH.
Qed.


Lemma BasicEntry_strategy s r : BasicEntry s r -> get "strategy" r = Some (VStr s).
Proof. intros [(t & u & logs & ->) | (t & e & ->)]; reflexivity. Qed.

Lemma AdaptiveEntry_strategy s r : AdaptiveEntry s r -> get "strategy" r = Some (VStr s).
Proof.
  intros [(a & t & b & u & logs & notes & ->) | (a & t & e & logs & ->)]; reflexivity.
Qed.

Lemma Forall2_map_eq {A B C} (P : A -> B -> Prop) (f : B -> C) (g : A -> C) l rs :
  (forall x r, P x r -> f r = g x) -> Forall2 P l rs -> map f rs = map g l.
Proof. intros H; induction 1; simpl; [reflexivity | ]. f_equal; auto. Qed.

(** ** The monitoring functions *)

Section FrameByPrimitives.
Variable P : Event -> bool.

Lemma FrameBy_live st c f : FrameBy P st (set_live c f st).
Proof.
  repeat split; exists []; split; [simpl; now rewrite app_nil_r | reflexivity].
Qed.

Lemma FrameBy_event st ev :
  P ev = true -> FrameBy P st (set_events (fun evs => evs ++ [ev]) st).
Proof.
  intros Q; repeat split; exists [ev]; split; [reflexivity | simpl; now rewrite Q].
Qed.

Lemma stable_FrameBy_await {T} c (a : Await T) : stable (FrameBy P) (await_ c a).
Proof. intros st; apply FrameBy_live. Qed.

Lemma stable_FrameBy_set_live c f : stable (FrameBy P) (modify (set_live c f)).
Proof. intros st; apply FrameBy_live. Qed.

Lemma stable_FrameBy_now {W} (w : World W) : stable (FrameBy P) (now w).
Proof.
  intros st; repeat split; exists []; split; [simpl; now rewrite app_nil_r | reflexivity].
Qed.

Lemma stable_FrameBy_set_insights f : stable (FrameBy P) (modify (set_insights f)).
Proof.
  intros st; repeat split; exists []; split; [simpl; now rewrite app_nil_r | reflexivity].
Qed.

Lemma stable_FrameBy_emit ev : P ev = true -> stable (FrameBy P) (emit ev).
Proof. intros Q st; now apply FrameBy_event. Qed.

Lemma stable_FrameBy_sleep_on c site secs a :
  P (EvSleep site secs) = true -> stable (FrameBy P) (sleep_on c site secs a).
Proof.
  intros Q. unfold sleep_on. apply stable_bind; preorder_goal.
  - now apply stable_FrameBy_emit.
  - intros _; apply stable_FrameBy_set_live.
Qed.

Lemma stable_FrameBy_log_insight (w : World AdaptiveSimpleSwapTester.Page) i :
  stable (FrameBy P) (AdaptiveSimpleSwapTester.log_insight w i).
Proof.
  unfold AdaptiveSimpleSwapTester.log_insight. apply stable_bind; preorder_goal.
  - apply stable_FrameBy_now.
  - intros t; apply stable_FrameBy_set_insights.
Qed.

End FrameByPrimitives.

Create HintDb frameby.
#[export] Hint Resolve stable_FrameBy_await stable_FrameBy_set_live stable_FrameBy_now
  stable_FrameBy_set_insights stable_FrameBy_log_insight : frameby.

Ltac frameby_base :=
  first [ solve [auto with frameby]
        | apply stable_FrameBy_sleep_on; reflexivity
        | apply stable_FrameBy_emit; reflexivity ].

Lemma Chain_FrameBy {A} P (l : list A) st st' :
  Chain (fun _ => FrameBy P) l st st' -> FrameBy P st st'.
Proof.
  induction 1; [apply FrameBy_refl | eapply FrameBy_trans; eauto].
Qed.

Lemma swallow_returns (m : M unit) st :
  fst (m st) <> Returned -> exists st', swallow m st = (Ok tt, st').
Proof.
  unfold swallow, try_except. destruct (m st) as [[[] | e |] st1]; simpl; intros N.
  - eexists; reflexivity.
  - eexists; reflexivity.
  - now contradiction N.
Qed.

(** The prefix of a string with something appended. *)
Lemma prefix_app s t : String.prefix s (s +++ t) = true.
Proof.
  induction s as [| c s IH]; [now destruct t | ].
  change (String c s +++ t) with (String c (s +++ t)). cbn [String.prefix].
  destruct (ascii_dec c c) as [_ | N]; [exact IH | now contradiction N].
Qed.

Lemma contains_prefix s t : String.prefix s t = true -> contains s t = true.
Proof. intros H. destruct t; cbn [contains]; now rewrite H. Qed.

Lemma contains_app_r a s : contains s a = true -> forall b, contains s (b +++ a) = true.
Proof.
  intros H b. induction b as [| c b IH]; [exact H | ].
  change (String c b +++ a) with (String c (b +++ a)). cbn [contains]. rewrite IH.
  now destruct (String.prefix s (String c (b +++ a))).
Qed.

(** The screenshot path embeds the strategy label. *)
Lemma screenshot_path_embeds s t : contains s (screenshot_path s t) = true.
Proof.
  unfold screenshot_path. apply contains_app_r, contains_prefix, prefix_app.
Qed.

Section BasicMonitor.
Import SimpleSwapTester.
Variable w : World Page.

Lemma basic_monitor_loop_sleeps c :
  stable (FrameBy (is_sleep MonitorWait)) (monitor_loop w c).
Proof. unfold monitor_loop. stable_tac frameby_base. Qed.

Lemma monitor_simpleswap_page_screenshot c s st st1 :
  monitor_loop w c st = (Ok tt, st1) ->
  exists q,
    events (snd (monitor_simpleswap_page w c s st)) =
    events st ++ q ++ [EvScreenshot c (screenshot_path s (clock w (clock_reads st1))) false] /\
    forallb (is_sleep MonitorWait) q = true.
Proof.
  intros H. pose proof (basic_monitor_loop_sleeps c st) as F. rewrite H in F.
  destruct F as (_ & _ & _ & q & E & Q). simpl in E.
  exists q. split; [ | exact Q].
  unfold monitor_simpleswap_page, def_, bind. rewrite H.
  unfold now, emit, modify, await_; simpl.
  destruct (aw_answer (on_screenshot (page w c))); simpl; rewrite E, <- app_assoc; reflexivity.
Qed.

End BasicMonitor.

Section AdaptiveMonitor.
Import AdaptiveSimpleSwapTester.
Variable w : World Page.

Lemma poll_silent c s tick P : stable (FrameBy P) (poll w c s tick).
Proof.
  unfold poll, check_inputs, check_text, check_providers, set_amount_found,
    set_provider_found. stable_tac frameby_base.
Qed.

Lemma adaptive_monitor_round c s i st :
  exists st',
    (sleep_on c MonitorWait 1 (tk_wait (on_monitor (page w c) i)) ;;
     swallow (poll w c s (on_monitor (page w c) i))) st = (Ok tt, st') /\
    FrameBy (is_sleep MonitorWait) st st'.
Proof.
  set (tick := on_monitor (page w c) i).
  set (st1 := snd (sleep_on c MonitorWait 1 (tk_wait tick) st)).
  assert (E1 : sleep_on c MonitorWait 1 (tk_wait tick) st = (Ok tt, st1)) by reflexivity.
  assert (F1 : FrameBy (is_sleep MonitorWait) st st1)
    by (apply (stable_FrameBy_sleep_on (is_sleep MonitorWait)); reflexivity).
  destruct (swallow_returns (poll w c s tick) st1 (proj2 (poll_preserves w c s tick st1)))
    as (st' & E).
  assert (F2 : stable (FrameBy (is_sleep MonitorWait)) (swallow (poll w c s tick)))
    by (apply stable_swallow; preorder_goal; apply poll_silent).
  specialize (F2 st1). rewrite E in F2. simpl in F2.
  exists st'. unfold bind. rewrite E1, E. split; [reflexivity | ].
  eapply FrameBy_trans; eauto.
Qed.

(** The polling loop of the adaptive variant always runs to its end. *)
Lemma adaptive_monitor_loop_completes c s st :
  exists st',
    monitor_loop w c s st = (Ok tt, st') /\ FrameBy (is_sleep MonitorWait) st st'.
Proof.
  destruct (for_each_Chain (fun _ => FrameBy (is_sleep MonitorWait))
              (fun i => sleep_on c MonitorWait 1 (tk_wait (on_monitor (page w c) i)) ;;
                        swallow (poll w c s (on_monitor (page w c) i)))
              (adaptive_monitor_round c s) (seq 0 15) st) as (st' & E & C).
  exists st'. split; [exact E | now apply Chain_FrameBy in C].
Qed.

(** The learning summary logs insights and nothing else; it reports a
    provider flag that is set. *)
Lemma learning_summary_spec c s st :
  exists st',
    learning_summary w c s st = (Ok tt, st') /\
    events st' = events st /\
    live st' = live st /\
    (provider_found (live st c) = true ->
     In ("Provider detection successful in " +++ s) (map i_insight (learned_insights st'))).
Proof.
  unfold learning_summary, gets, when, log_insight, now, modify, bind.
  destruct (amount_found (live st c)); simpl;
    destruct (provider_found (live st c)); simpl;
    eexists; (split; [reflexivity | ]); (split; [reflexivity | ]); (split; [reflexivity | ]);
    intros H; try discriminate H;
    simpl; rewrite map_app, in_app_iff; right; left; reflexivity.
Qed.

Lemma take_screenshot_spec c s st :
  exists o st',
    take_screenshot w c s st = (o, st') /\
    events st' = events st ++ [EvScreenshot c (screenshot_path s (clock w (clock_reads st))) true] /\
    learned_insights st' = learned_insights st /\
    provider_found (live st' c) = provider_found (live st c).
Proof.
  unfold take_screenshot, now, emit, modify, await_, bind.
  destruct (aw_answer (on_screenshot (page w c))); simpl;
    do 2 eexists; (split; [reflexivity | ]); simpl; rewrite Nat.eqb_refl; repeat split.
Qed.

Lemma monitor_simpleswap_with_learning_unfold c s st :
  exists st0 st1 st2 o st3,
    st0 = snd ((set_amount_found c false ;; set_provider_found c false) st) /\
    monitor_loop w c s st0 = (Ok tt, st1) /\
    learning_summary w c s st1 = (Ok tt, st2) /\
    take_screenshot w c s st2 = (o, st3) /\
    snd (monitor_simpleswap_with_learning w c s st) = st3.
Proof.
  set (st0 := snd ((set_amount_found c false ;; set_provider_found c false) st)).
  destruct (adaptive_monitor_loop_completes c s st0) as (st1 & E1 & _).
  destruct (learning_summary_spec c s st1) as (st2 & E2 & _).
  destruct (take_screenshot_spec c s st2) as (o & st3 & E3 & _).
  exists st0, st1, st2, o, st3. repeat split; auto.
  unfold monitor_simpleswap_with_learning, def_.
  unfold bind at 1 2. unfold set_amount_found at 1, set_provider_found at 1, modify.
  cbv beta iota. unfold bind at 1.
  change (monitor_loop w c s _) with (monitor_loop w c s st0). rewrite E1.
  unfold bind. rewrite E2, E3. now destruct o.
Qed.

Lemma monitor_simpleswap_with_learning_screenshot c s st :
  exists q t,
    events (snd (monitor_simpleswap_with_learning w c s st)) =
    events st ++ q ++ [EvScreenshot c (screenshot_path s t) true] /\
    forallb (is_sleep MonitorWait) q = true.
Proof.
  destruct (monitor_simpleswap_with_learning_unfold c s st) as
    (st0 & st1 & st2 & o & st3 & E0 & E1 & E2 & E3 & ->).
  destruct (adaptive_monitor_loop_completes c s st0) as (st1' & E1' & (_ & _ & _ & q & EQ & Q)).
  rewrite E1 in E1'. injection E1' as <-.
  destruct (learning_summary_spec c s st1) as (st2' & E2' & EV2 & _).
  rewrite E2 in E2'. injection E2' as <-.
  destruct (take_screenshot_spec c s st2) as (o' & st3' & E3' & EV3 & _).
  rewrite E3 in E3'. injection E3' as <- <-.
  exists q, (clock w (clock_reads st2)). split; [ | exact Q].
  rewrite EV3, EV2, EQ, E0, <- app_assoc. reflexivity.
Qed.

End AdaptiveMonitor.

(** *** The provider flag *)

Section ProviderFlag.
Import AdaptiveSimpleSwapTester.
Variable w : World Page.
Variable c : nat.

















End ProviderFlag.

(** ** Counting over whole runs *)

Lemma sleeps_concat site evss :
  sleeps site (concat evss) = list_sum (map (sleeps site) evss).
Proof.
  induction evss as [| evs evss IH]; simpl; [reflexivity | ].
  now rewrite sleeps_app, IH.
Qed.


Lemma attempts_of_concat s evss :
  attempts_of s (concat evss) = list_sum (map (attempts_of s) evss).
Proof.
  induction evss as [| evs evss IH]; simpl; [reflexivity | ].
  now rewrite attempts_of_app, IH.
Qed.

Lemma list_sum_const {A} (l : list A) n : list_sum (map (fun _ => n) l) = length l * n.
Proof. induction l; simpl; [reflexivity | lia]. Qed.

Lemma BasicRoundTrace_counts s evs :
  BasicRoundTrace s evs ->
  sleeps BetweenStrategies evs = 1 /\ attempts evs = 1 /\ sleeps RetryWait evs = 0.
Proof.
  intros (c & u & q & -> & Q).
  rewrite !sleeps_app, !attempts_app.
  rewrite (quiet_sleeps BetweenStrategies q eq_refl Q), (quiet_sleeps RetryWait q eq_refl Q),
    (quiet_attempts q Q).
  repeat split.
Qed.

Lemma AdaptiveRoundTrace_counts n x evs :
  AdaptiveRoundTrace n x evs ->
  sleeps BetweenStrategies evs = (if fst x <? n - 1 then 1 else 0) /\
  attempts evs = S (sleeps RetryWait evs) /\
  attempts evs <= 2 /\
  forall s, attempts_of s evs = if String.eqb (snd x) s then attempts evs else 0.
Proof.
  intros (c & call & q & -> & HT & Q).
  destruct (AttemptTrace_counts _ _ _ _ HT) as (C1 & C2 & C3 & C4).
  rewrite !sleeps_app, !attempts_app.
  rewrite (quiet_sleeps BetweenStrategies q eq_refl Q), (quiet_sleeps RetryWait q eq_refl Q),
    (quiet_attempts q Q), C3.
  assert (Z1 : attempts (if fst x <? n - 1 then [EvSleep BetweenStrategies 3] else []) = 0)
    by (destruct (fst x <? n - 1); reflexivity).
  assert (Z2 : sleeps RetryWait (if fst x <? n - 1 then [EvSleep BetweenStrategies 3] else []) = 0)
    by (destruct (fst x <? n - 1); reflexivity).
  rewrite Z1, Z2. repeat split.
  - destruct (fst x <? n - 1); reflexivity.
  - lia.
  - simpl in C4. lia.
  - intros s. rewrite !attempts_of_app, (quiet_attempts_of s q Q), C2.
    assert (Z3 : attempts_of s (if fst x <? n - 1 then [EvSleep BetweenStrategies 3] else []) = 0)
      by (destruct (fst x <? n - 1); reflexivity).
    rewrite Z3. destruct (String.eqb (snd x) s); lia.
Qed.

(** Of the rounds [0 .. n-1], all but the last are followed by the sleep. *)
Lemma between_rounds {A} (l : list A) : forall k,
  list_sum (map (fun x : nat * A => if fst x <? (k + length l) - 1 then 1 else 0)
                (combine (seq k (length l)) l)) = length l - 1.
Proof.
  induction l as [| x l IH]; intros k; simpl; [reflexivity | ].
  specialize (IH (S k)). replace (S k + length l) with (k + S (length l)) in IH by lia.
  rewrite IH.
  destruct (k <? k + S (length l) - 1) eqn:G.
  - apply Nat.ltb_lt in G. lia.
  - apply Nat.ltb_ge in G. lia.
Qed.

Lemma Forall2_sum_eq {A} (Q : A -> list Event -> Prop) (f : list Event -> nat) (g : A -> nat) l evss :
  (forall x evs, Q x evs -> f evs = g x) ->
  Forall2 Q l evss -> list_sum (map f evss) = list_sum (map g l).
Proof.
  intros H; induction 1 as [| x evs l evss HQ _ IH]; simpl; [reflexivity | ].
  now rewrite (H _ _ HQ), IH.
Qed.

Lemma count_occ_sum (s : string) (l : list string) :
  list_sum (map (fun s' => if String.eqb s' s then 1 else 0) l) = count_occ string_dec l s.
Proof.
  induction l as [| s' l IH]; simpl; [reflexivity | ].
  destruct (string_dec s' s) as [-> | N].
  - rewrite String.eqb_refl, IH. reflexivity.
  - apply String.eqb_neq in N. now rewrite N, IH.
Qed.

Lemma AdaptiveEntry_has_strategy s s' r :
  AdaptiveEntry s r -> has_strategy s' r = String.eqb s s'.
Proof.
  intros [(a & t & b & u & logs & notes & ->) | (a & t & e & logs & ->)]; reflexivity.
Qed.

Lemma BasicEntry_has_strategy s s' r :
  BasicEntry s r -> has_strategy s' r = String.eqb s s'.
Proof. intros [(t & u & logs & ->) | (t & e & ->)]; reflexivity. Qed.

Lemma results_of_entries {A} (P : A -> Dict -> Prop) (label : A -> string) s l rs :
  (forall x r, P x r -> has_strategy s r = String.eqb (label x) s) ->
  Forall2 P l rs -> results_of s rs = count_occ string_dec (map label l) s.
Proof.
  intros H; induction 1 as [| x r l rs HP _ IH]; simpl; [reflexivity | ].
  unfold results_of in *; simpl. rewrite (H _ _ HP).
  destruct (string_dec (label x) s) as [-> | N].
  - rewrite String.eqb_refl. simpl. now rewrite IH.
  - apply String.eqb_neq in N. now rewrite N, IH.
Qed.

Lemma adaptive_attempts_of s n xs evss :
  Forall2 (AdaptiveRoundTrace n) xs evss ->
  attempts_of s (concat evss) <= 2 * count_occ string_dec (map snd xs) s.
Proof.
  induction 1 as [| x evs xs evss HQ _ IH]; simpl; [unfold attempts_of; simpl; lia | ].
  destruct (AdaptiveRoundTrace_counts _ _ _ HQ) as (_ & _ & C3 & C4).
  rewrite attempts_of_app, C4.
  destruct (string_dec (snd x) s) as [-> | N].
  - rewrite String.eqb_refl. lia.
  - apply String.eqb_neq in N. rewrite N. lia.
Qed.


Lemma Forall2_In_r {A B} (P : A -> B -> Prop) l rs r :
  Forall2 P l rs -> In r rs -> exists x, P x r.
Proof.
  induction 1 as [| x r' l rs HP _ IH]; simpl; [contradiction | ].
  intros [<- | HI]; eauto.
Qed.

Lemma BasicEntry_success_rule s r :
  BasicEntry s r ->
  (success_of r = true <->
   get "final_url" r <> None /\
   (final_url_contains "simpleswap.io" r = true \/ has_strategy "iframe" r = true)).
Proof.
  intros [(t & u & logs & ->) | (t & e & ->)];
    unfold success_of, final_url_contains, has_strategy; simpl.
  - rewrite orb_true_iff. split; [intros H; split; [discriminate | exact H] | intros [_ H]; exact H].
  - split; [discriminate | intros [N _]; now contradiction N].
Qed.

(** ** The claims *)

Lemma mem_In x l : AdaptiveSimpleSwapTester.mem x l = true <-> In x l.
Proof.
  unfold AdaptiveSimpleSwapTester.mem. rewrite existsb_exists. split.
  - intros (y & HI & E). apply String.eqb_eq in E. now subst.
  - intros HI. exists x. split; [exact HI | apply String.eqb_refl].
Qed.

Lemma findings_prefixed logs f :
  In f (AdaptiveSimpleSwapTester.analyze_console_logs logs) ->
  String.prefix "Found: " f = true.
Proof.
  unfold AdaptiveSimpleSwapTester.analyze_console_logs. rewrite in_flat_map.
  intros (log & _ & H). simpl in H. rewrite !in_app_iff in H.
  repeat match goal with
         | H : _ \/ _ |- _ => destruct H as [H | H]
         | H : In _ (if ?b then _ else _) |- _ => destruct b
         | H : In _ [] |- _ => destruct H
         | H : In _ [_] |- _ => destruct H as [H | []]
         end; subst; reflexivity.
Qed.

(** C10: in the adaptive variant, [final_analysis] recommends "Fix
    workingUrl variable initialization" exactly when some logged insight is
    the string "JavaScript variable scope issue detected", and "Use popup
    window instead of iframe" exactly when some logged insight is the
    string "CSP blocks iframe embedding"; insights that only contain these
    phrases, such as the "Found: ..." findings of [analyze_console_logs],
    bring no recommendation. *)
Theorem final_analysis_exact_match (st : State) :
  let insights := map i_insight (learned_insights st) in
  let recs := AdaptiveSimpleSwapTester.recommendations (AdaptiveSimpleSwapTester.final_analysis st) in
  (In "Fix workingUrl variable initialization" recs <->
   In "JavaScript variable scope issue detected" insights) /\
  (In "Use popup window instead of iframe" recs <->
   In "CSP blocks iframe embedding" insights) /\
  ((forall i, In i insights ->
      i <> "JavaScript variable scope issue detected" /\ i <> "CSP blocks iframe embedding") ->
   recs = []) /\
  (forall logs f, In f (AdaptiveSimpleSwapTester.analyze_console_logs logs) ->
      f <> "JavaScript variable scope issue detected" /\ f <> "CSP blocks iframe embedding").
Proof.
  intros insights recs. subst recs. unfold AdaptiveSimpleSwapTester.final_analysis; simpl.
  fold insights.
  pose proof (mem_In "JavaScript variable scope issue detected" insights) as H1.
  pose proof (mem_In "CSP blocks iframe embedding" insights) as H2.
  destruct (AdaptiveSimpleSwapTester.mem "JavaScript variable scope issue detected" insights);
    destruct (AdaptiveSimpleSwapTester.mem "CSP blocks iframe embedding" insights);
    simpl; (split; [ | split; [ | split]]).
  all: try (split; intros H;
            repeat match goal with
                   | H : _ \/ _ |- _ => destruct H as [H | H]
                   | H : False |- _ => contradiction
                   | H : _ = _ |- _ => discriminate H
                   end;
            solve [ auto | apply H1; reflexivity | apply H2; reflexivity
                  | apply H1 in H; discriminate H | apply H2 in H; discriminate H ]).
  all: try (intros H;
            try (destruct (H _ (proj1 H1 eq_refl)) as [N _]; now contradiction N);
            try (destruct (H _ (proj1 H2 eq_refl)) as [_ N]; now contradiction N);
            reflexivity).
  all: intros logs f HF; apply findings_prefixed in HF; split; intros ->; discriminate HF.
Qed.

(** A state whose only insight is a finding of [analyze_console_logs] about
    the frame refusal: it contains the phrase, and nothing is recommended. *)
Lemma final_analysis_exact_match_witness :
  let st := set_insights (fun _ => [mkInsight 0 "Found: CSP blocks iframe embedding"]) new_tester in
  contains "CSP blocks iframe embedding" "Found: CSP blocks iframe embedding" = true /\
  AdaptiveSimpleSwapTester.recommendations (AdaptiveSimpleSwapTester.final_analysis st) = [].
Proof.
  split; [reflexivity | ].
  apply (proj1 (proj2 (proj2 (final_analysis_exact_match
    (set_insights (fun _ => [mkInsight 0 "Found: CSP blocks iframe embedding"]) new_tester))))).
  simpl. intros i [<- | []]. split; discriminate.
Defined.

(** C9: in both variants, an entry appended on the exception path has no
    [final_url] field: its fields are exactly [strategy], ([attempt] in the
    adaptive variant,) [timestamp], [success] (false), [error],
    [console_logs] and [notes]. *)
Theorem exception_entry_fields :
  (forall (w : World SimpleSwapTester.Page) s st e st2,
      SimpleSwapTester.try_block w (next_ctx st) s (basic_entry s st) = (Raise e, st2) ->
      exists r,
        results (snd (SimpleSwapTester.test_strategy w s st)) = results st ++ [r] /\
        keys r = basic_error_keys /\
        get "final_url" r = None /\
        get "success" r = Some (VBool false)) /\
  (forall (w : World AdaptiveSimpleSwapTester.Page) s a st e st2,
      AdaptiveSimpleSwapTester.try_block w
        (AdaptiveSimpleSwapTester.test_strategy_with_learning w s)
        (next_ctx st) s a (adaptive_entry s a st) = (Raise e, st2) ->
      exists r,
        results (snd (AdaptiveSimpleSwapTester.test_strategy_with_learning w s a st))
        = results st ++ [r] /\
        keys r = adaptive_error_keys /\
        get "final_url" r = None /\
        get "success" r = Some (VBool false)).
Proof.
  split.
  - intros w s st e st2 H.
    destruct (test_strategy_raise w s st e st2 H) as (t & st' & E & R).
    exists (basic_error_result s t e). rewrite E. simpl. auto.
  - intros w s a st e st2 H.
    destruct (test_strategy_with_learning_raise w s a st e st2 H) as (t & logs & st' & E & R).
    exists (adaptive_error_result s a t e logs). rewrite E. simpl. auto.
Qed.

(** The buy button never appears: both scripts record an entry without
    [final_url]. *)
Lemma exception_entry_fields_witness :
  (fst (SimpleSwapTester.try_block (BasicScenario.world_of BasicScenario.timing_out)
          0 "basic" (basic_entry "basic" new_tester))
   = Raise "Timeout 10000ms exceeded." /\
   exists r,
     results (snd (SimpleSwapTester.test_strategy
                     (BasicScenario.world_of BasicScenario.timing_out) "basic" new_tester)) = [r] /\
     keys r = basic_error_keys /\ get "final_url" r = None) /\
  (fst (AdaptiveSimpleSwapTester.try_block (AdaptiveScenario.world_of AdaptiveScenario.timing_out)
          (AdaptiveSimpleSwapTester.test_strategy_with_learning
             (AdaptiveScenario.world_of AdaptiveScenario.timing_out) "basic")
          0 "basic" 1 (adaptive_entry "basic" 1 new_tester))
   = Raise "Timeout 15000ms exceeded." /\
   exists r,
     results (snd (AdaptiveSimpleSwapTester.test_strategy_with_learning
                     (AdaptiveScenario.world_of AdaptiveScenario.timing_out) "basic" 1 new_tester))
     = [r] /\
     keys r = adaptive_error_keys /\ get "final_url" r = None).
Proof.
  split; (split; [reflexivity | ]).
  - destruct (proj1 exception_entry_fields
                (BasicScenario.world_of BasicScenario.timing_out) "basic" new_tester
                "Timeout 10000ms exceeded."
                (snd (SimpleSwapTester.try_block (BasicScenario.world_of BasicScenario.timing_out)
                        0 "basic" (basic_entry "basic" new_tester)))
                eq_refl) as (r & R & K & F & _).
    exists r. auto.
  - destruct (proj2 exception_entry_fields
                (AdaptiveScenario.world_of AdaptiveScenario.timing_out) "basic" 1 new_tester
                "Timeout 15000ms exceeded."
                (snd (AdaptiveSimpleSwapTester.try_block
                        (AdaptiveScenario.world_of AdaptiveScenario.timing_out)
                        (AdaptiveSimpleSwapTester.test_strategy_with_learning
                           (AdaptiveScenario.world_of AdaptiveScenario.timing_out) "basic")
                        0 "basic" 1 (adaptive_entry "basic" 1 new_tester)))
                eq_refl) as (r & R & K & F & _).
    exists r. auto.
Defined.

(** C8: the fixed delay between strategies.  The adaptive variant sleeps
    after each strategy except the last, [n - 1] times for [n] strategies;
    the basic variant sleeps after every strategy, the last one included,
    [n] times. *)
Theorem inter_strategy_sleeps :
  (forall (w : World SimpleSwapTester.Page) strats,
      sleeps BetweenStrategies
        (events (snd (SimpleSwapTester.run_all_tests w (tester_with strats))))
      = length strats) /\
  (forall (w : World AdaptiveSimpleSwapTester.Page) strats,
      sleeps BetweenStrategies
        (events (snd (AdaptiveSimpleSwapTester.run_adaptive_tests w (tester_with strats))))
      = length strats - 1).
Proof.
  split; intros w strats.
  - destruct (run_all_tests_shape w strats) as (st' & evss & t & E & _ & _ & E1 & FQ).
    rewrite E. simpl. rewrite E1, sleeps_app, sleeps_concat.
    rewrite (Forall2_sum_eq BasicRoundTrace (sleeps BetweenStrategies) (fun _ => 1) strats evss);
      [ | | exact FQ].
    + rewrite list_sum_const. unfold sleeps; simpl. lia.
    + intros x evs HQ. apply (BasicRoundTrace_counts _ _ HQ).
  - destruct (run_adaptive_tests_shape w strats) as (st' & evss & t & E & _ & _ & E1 & FQ).
    rewrite E. simpl. rewrite E1, sleeps_app, sleeps_concat.
    rewrite (Forall2_sum_eq (AdaptiveRoundTrace (length strats)) (sleeps BetweenStrategies)
               (fun x => if fst x <? length strats - 1 then 1 else 0)
               (enumerate strats) evss); [ | | exact FQ].
    + pose proof (between_rounds strats 0) as B. simpl in B. unfold enumerate.
      rewrite B. unfold sleeps; simpl. lia.
    + intros x evs HQ. apply (AdaptiveRoundTrace_counts _ _ _ HQ).
Qed.

(** The basic script on its own list of ten strategies: ten sleeps, the
    last one right before the results are written. *)
Example basic_run_sleeps_after_last_strategy :
  let evs := events (snd (SimpleSwapTester.run_all_tests
                            (BasicScenario.world_of BasicScenario.staying) new_tester)) in
  ~ sleeps_between_only the_strategies evs /\
  sleeps BetweenStrategies evs = 10 /\
  last_n 2 evs = [EvSleep BetweenStrategies 2; EvDump "/tmp/simpleswap_results_1700000010.json"].
Proof.
  intros evs. split; [ | split].
  - unfold sleeps_between_only. vm_compute. discriminate.
  - vm_compute. reflexivity.
  - vm_compute. reflexivity.
Qed.



Lemma the_strategies_NoDup : NoDup the_strategies.
Proof.
  unfold the_strategies.
  repeat (constructor; [simpl; intuition discriminate | ]). constructor.
Qed.

(** C3: for every strategy label the adaptive variant makes at most two
    attempts per run: the function calls itself only for [attempt + 1] and
    only under [attempt < 2], so a call started with attempt number [a]
    retries at most [2 - a] times; and the results never hold more than
    two entries with that label. *)
Theorem at_most_two_attempts :
  (forall (w : World AdaptiveSimpleSwapTester.Page) s a,
      same (AdaptiveSimpleSwapTester.test_strategy_with_learning w s a)
           (AdaptiveSimpleSwapTester.test_strategy_with_learning_body w
              (AdaptiveSimpleSwapTester.test_strategy_with_learning w s) s a)) /\
  (forall (w : World AdaptiveSimpleSwapTester.Page) s a st,
      exists st' evs,
        AdaptiveSimpleSwapTester.test_strategy_with_learning w s a st = (Ok tt, st') /\
        events st' = events st ++ evs /\
        attempts evs = 1 + sleeps RetryWait evs /\
        sleeps RetryWait evs <= 2 - a) /\
  (forall (w : World AdaptiveSimpleSwapTester.Page) strats s,
      NoDup strats ->
      let st' := snd (AdaptiveSimpleSwapTester.run_adaptive_tests w (tester_with strats)) in
      attempts_of s (events st') <= 2 /\
      results_of s (results st') <= 2).
Proof.
  split; [ | split].
  - intros w s a. apply test_strategy_with_learning_unfold.
  - intros w s a st.
    destruct (test_strategy_with_learning_call w s a st) as
      (st' & r & E & _ & R & _ & evs & E1 & HT & _).
    exists st', evs. repeat split; auto; apply (AttemptTrace_counts _ _ _ _ HT).
  - intros w strats s ND st'. subst st'.
    destruct (run_adaptive_tests_shape w strats) as (st' & evss & t & E & _ & FP & E1 & FQ).
    rewrite E. simpl.
    pose proof (proj1 (NoDup_count_occ string_dec strats) ND s) as C.
    split.
    + rewrite E1, attempts_of_app.
      pose proof (adaptive_attempts_of s _ _ _ FQ) as A. rewrite enumerate_snd in A.
      unfold attempts_of at 2; simpl. lia.
    + rewrite (results_of_entries (fun x => AdaptiveEntry (snd x)) snd s _ _
                 (fun x r H => AdaptiveEntry_has_strategy _ s r H) FP).
      rewrite enumerate_snd. lia.
Qed.

(** The script's own ten strategies, the first context showing the script
    error: two attempts and one entry for "basic". *)
Lemma at_most_two_attempts_witness :
  let st' := snd (AdaptiveSimpleSwapTester.run_adaptive_tests AdaptiveScenario.flaky new_tester) in
  NoDup the_strategies /\
  attempts_of "basic" (events st') = 2 /\
  attempts_of "basic" (events st') <= 2 /\
  results_of "basic" (results st') <= 2.
Proof.
  intros st'. split; [exact the_strategies_NoDup | ]. split; [reflexivity | ].
  exact (proj2 (proj2 at_most_two_attempts) AdaptiveScenario.flaky the_strategies "basic"
           the_strategies_NoDup).
Defined.

(** C1: in the basic variant an entry is successful exactly when it has a
    [final_url] (it was not recorded by the [except] block) and that URL
    contains "simpleswap.io" or the strategy is "iframe"; in the adaptive
    variant, whenever the final URL of the recorded attempt equals the URL
    that attempt requested, the entry is not successful. *)
Theorem success_rule :
  (forall (w : World SimpleSwapTester.Page) strats r,
      In r (results (snd (SimpleSwapTester.run_all_tests w (tester_with strats)))) ->
      (success_of r = true <->
       get "final_url" r <> None /\
       (final_url_contains "simpleswap.io" r = true \/ has_strategy "iframe" r = true))) /\
  (forall (w : World AdaptiveSimpleSwapTester.Page) s a st,
      exists r evs,
        results (snd (AdaptiveSimpleSwapTester.test_strategy_with_learning w s a st))
        = results st ++ [r] /\
        events (snd (AdaptiveSimpleSwapTester.test_strategy_with_learning w s a st))
        = events st ++ evs /\
        forall u, last_goto evs = Some u ->
                  get "final_url" r = Some (VStr u) ->
                  success_of r = false).
Proof.
  split.
  - intros w strats r.
    destruct (run_all_tests_shape w strats) as (st' & evss & t & E & _ & FP & _).
    rewrite E. simpl. intros HI.
    destruct (Forall2_In_r _ _ _ _ FP HI) as (s & HE).
    now apply BasicEntry_success_rule with (s := s).
  - intros w s a st.
    destruct (test_strategy_with_learning_call w s a st) as
      (st' & r & E & _ & R & _ & evs & E1 & _ & HL).
    rewrite E. simpl. exists r, evs. repeat split; auto.
    intros u L F. unfold success_of. now rewrite (HL u L F).
Qed.

(** The adaptive script on a page that stays where it is: the entry's
    final URL is the request URL and the entry is not successful. *)
Lemma success_rule_witness :
  let w := AdaptiveScenario.world_of AdaptiveScenario.staying in
  let st' := snd (AdaptiveSimpleSwapTester.test_strategy_with_learning w "basic" 1 new_tester) in
  exists r u,
    results st' = [r] /\
    last_goto (events st') = Some u /\
    get "final_url" r = Some (VStr u) /\
    success_of r = false.
Proof.
  intros w st'.
  destruct (proj2 success_rule w "basic" 1 new_tester) as (r & evs & R & E & H).
  change (results st' = [r]) in R. change (events st' = evs) in E.
  exists r, (AdaptiveSimpleSwapTester.request_url "basic" 1700000000).
  assert (L : last_goto evs = Some (AdaptiveSimpleSwapTester.request_url "basic" 1700000000))
    by (rewrite <- E; vm_compute; reflexivity).
  assert (Hr : r = nth 0 (results st') []) by (rewrite R; reflexivity).
  assert (F : get "final_url" r
              = Some (VStr (AdaptiveSimpleSwapTester.request_url "basic" 1700000000)))
    by (rewrite Hr; vm_compute; reflexivity).
  split; [exact R | ]. split; [rewrite E; exact L | ]. split; [exact F | ].
  exact (H _ L F).
Defined.

(** The basic script on pages that stay where they are: the entry of the
    "iframe" strategy is successful and its final URL is the request URL,
    which does not contain "simpleswap.io". *)
Lemma iframe_entry_successful_without_redirect :
  ~ success_iff_destination
      (results (snd (SimpleSwapTester.run_all_tests
                       (BasicScenario.world_of BasicScenario.staying) new_tester))).
Proof.
  intros H.
  set (rs := results (snd (SimpleSwapTester.run_all_tests
                             (BasicScenario.world_of BasicScenario.staying) new_tester))) in H.
  assert (HI : In (nth 9 rs []) rs).
  { apply nth_In. vm_compute. repeat constructor. }
  destruct (H _ HI) as [H1 _].
  assert (C : final_url_contains "simpleswap.io" (nth 9 rs []) = true) by (apply H1; reflexivity).
  vm_compute in C. discriminate C.
Qed.

(** C6: in both variants, once the polling loop of the monitoring function
    has completed, a screenshot is taken and written to
    /tmp/simpleswap_{strategy}_{unixtime}.png, a path that embeds the
    strategy label passed to the monitoring function; the adaptive variant
    asks for a full-page screenshot, the basic variant does not.  In the
    adaptive variant the loop always completes. *)
Theorem screenshot_after_polling :
  (forall (w : World SimpleSwapTester.Page) c s st st1,
      SimpleSwapTester.monitor_loop w c st = (Ok tt, st1) ->
      exists q t,
        events (snd (SimpleSwapTester.monitor_simpleswap_page w c s st)) =
        events st ++ q ++
          [EvScreenshot c ("/tmp/simpleswap_" +++ s +++ "_" +++ str_int t +++ ".png") false] /\
        forallb (is_sleep MonitorWait) q = true /\
        contains s ("/tmp/simpleswap_" +++ s +++ "_" +++ str_int t +++ ".png") = true) /\
  (forall (w : World AdaptiveSimpleSwapTester.Page) c s st,
      exists q t,
        events (snd (AdaptiveSimpleSwapTester.monitor_simpleswap_with_learning w c s st)) =
        events st ++ q ++
          [EvScreenshot c ("/tmp/simpleswap_" +++ s +++ "_" +++ str_int t +++ ".png") true] /\
        forallb (is_sleep MonitorWait) q = true /\
        contains s ("/tmp/simpleswap_" +++ s +++ "_" +++ str_int t +++ ".png") = true).
Proof.
  split.
  - intros w c s st st1 H.
    destruct (monitor_simpleswap_page_screenshot w c s st st1 H) as (q & E & Q).
    exists q, (clock w (clock_reads st1)). split; [exact E | ]. split; [exact Q | ].
    apply screenshot_path_embeds.
  - intros w c s st.
    destruct (monitor_simpleswap_with_learning_screenshot w c s st) as (q & t & E & Q).
    exists q, t. split; [exact E | ]. split; [exact Q | ].
    apply screenshot_path_embeds.
Qed.

(** The basic monitoring of a page of the exchange: ten sleeps, then the
    screenshot. *)
Lemma screenshot_after_polling_witness :
  let w := BasicScenario.world_of BasicScenario.redirecting in
  fst (SimpleSwapTester.monitor_loop w 0 new_tester) = Ok tt /\
  exists q t,
    events (snd (SimpleSwapTester.monitor_simpleswap_page w 0 "basic" new_tester)) =
    q ++ [EvScreenshot 0 ("/tmp/simpleswap_" +++ "basic" +++ "_" +++ str_int t +++ ".png") false] /\
    forallb (is_sleep MonitorWait) q = true.
Proof.
  intros w. split; [reflexivity | ].
  destruct (proj1 screenshot_after_polling w 0 "basic" new_tester
              (snd (SimpleSwapTester.monitor_loop w 0 new_tester)) eq_refl)
    as (q & t & E & Q & _).
  exists q, t. split; [exact E | exact Q].
Defined.

(** The basic script on pages that go to the exchange: its screenshots are
    not full-page screenshots. *)
Lemma basic_screenshot_is_not_full_page :
  ~ screenshots_full_page
      (events (snd (SimpleSwapTester.run_all_tests
                      (BasicScenario.world_of BasicScenario.redirecting) new_tester))).
Proof.
  intros H.
  set (evs := events (snd (SimpleSwapTester.run_all_tests
                             (BasicScenario.world_of BasicScenario.redirecting) new_tester))) in H.
  assert (HI : In (nth 16 evs (EvClick 0)) evs).
  { apply nth_In. vm_compute. repeat constructor. }
  assert (E : nth 16 evs (EvClick 0)
              = EvScreenshot 0 "/tmp/simpleswap_basic_1700000000.png" false)
    by (vm_compute; reflexivity).
  rewrite E in HI. specialize (H _ _ _ HI). discriminate H.
Qed.




(** ** Further properties of the two scripts *)

(** *** [final_analysis] *)

(** The three counts of [final_analysis] agree: every entry is counted as
    successful or as failed, never as both; and insights and
    recommendations come in pairs, two at most. *)
Theorem final_analysis_counts (st : State) :
  let a := AdaptiveSimpleSwapTester.final_analysis st in
  AdaptiveSimpleSwapTester.total_tests a = length (results st) /\
  AdaptiveSimpleSwapTester.successful a + AdaptiveSimpleSwapTester.failed a
  = AdaptiveSimpleSwapTester.total_tests a /\
  length (AdaptiveSimpleSwapTester.key_insights a)
  = length (AdaptiveSimpleSwapTester.recommendations a) /\
  length (AdaptiveSimpleSwapTester.recommendations a) <= 2.
Proof.
  unfold AdaptiveSimpleSwapTester.final_analysis; simpl.
  split; [reflexivity | ]. split; [apply filter_length | ].
  set (insights := map i_insight (learned_insights st)).
  destruct (AdaptiveSimpleSwapTester.mem "JavaScript variable scope issue detected" insights);
    destruct (AdaptiveSimpleSwapTester.mem "CSP blocks iframe embedding" insights);
    simpl; split; auto.
Qed.

(** *** [analyze_console_logs] *)

(** A finding is reported exactly when some log line contains the pattern
    of one of the three known errors, and it is "Found: " followed by the
    meaning of that pattern. *)
Theorem analyze_console_logs_findings (logs : list string) (f : string) :
  In f (AdaptiveSimpleSwapTester.analyze_console_logs logs) <->
  exists log pattern meaning,
    In log logs /\
    In (pattern, meaning) AdaptiveSimpleSwapTester.error_patterns /\
    contains pattern log = true /\
    f = "Found: " +++ meaning.
Proof.
  unfold AdaptiveSimpleSwapTester.analyze_console_logs. rewrite in_flat_map. split.
  - intros (log & HL & HF). apply in_flat_map in HF as ([pattern meaning] & HP & HF).
    simpl in HF. destruct (contains pattern log) eqn:C; [ | contradiction].
    destruct HF as [<- | []]. exists log, pattern, meaning. auto.
  - intros (log & pattern & meaning & HL & HP & C & ->).
    exists log. split; [exact HL | ]. apply in_flat_map.
    exists (pattern, meaning). split; [exact HP | ]. simpl. rewrite C. left; reflexivity.
Qed.

(** The analysis goes line by line: the findings of two batches of logs
    are those of the first followed by those of the second, no log gives
    more than three findings, and no logs give none. *)
Theorem analyze_console_logs_by_line (logs1 logs2 : list string) :
  AdaptiveSimpleSwapTester.analyze_console_logs (logs1 ++ logs2)
  = AdaptiveSimpleSwapTester.analyze_console_logs logs1
    ++ AdaptiveSimpleSwapTester.analyze_console_logs logs2 /\
  length (AdaptiveSimpleSwapTester.analyze_console_logs logs1) <= 3 * length logs1 /\
  AdaptiveSimpleSwapTester.analyze_console_logs [] = [].
Proof.
  unfold AdaptiveSimpleSwapTester.analyze_console_logs.
  split; [apply flat_map_app | ]. split; [ | reflexivity].
  assert (H3 : forall log,
             length (flat_map (fun pm : string * string =>
                                 if contains (fst pm) log then ["Found: " +++ snd pm] else [])
                              AdaptiveSimpleSwapTester.error_patterns) <= 3).
  { intros log. unfold AdaptiveSimpleSwapTester.error_patterns. cbn [flat_map fst snd].
    rewrite !length_app.
    destruct (contains "ReferenceError: workingUrl is not defined" log);
      destruct (contains "Refused to frame" log);
      destruct (contains "networkidle timeout" log); cbn [length]; lia. }
  induction logs1 as [| log logs IH]; [cbn [flat_map length]; lia | ].
  cbn [flat_map length]. rewrite length_app. specialize (H3 log). lia.
Qed.

(** *** The summaries *)

Lemma for_each_reading {A} (good : A -> bool) (body : A -> M unit) :
  (forall x st, snd (body x st) = st /\
                (fst (body x st) = Ok tt <-> good x = true) /\
                fst (body x st) <> Returned) ->
  forall l st,
    snd (for_each l body st) = st /\
    (fst (for_each l body st) = Ok tt <-> forallb good l = true) /\
    fst (for_each l body st) <> Returned.
Proof.
  intros Hb. induction l as [| x l IH]; intros st; cbn [for_each forallb].
  - repeat split; auto; discriminate.
  - destruct (Hb x st) as (S1 & O1 & N1). destruct (IH st) as (S2 & O2 & N2).
    unfold bind. destruct (body x st) as [[[] | e |] st1]; simpl in *; subst st1.
    + destruct O1 as [O1 _]. rewrite (O1 eq_refl). simpl. auto.
    + split; [reflexivity | ]. split; [ | discriminate].
      split; [discriminate | ]. intros H. apply andb_prop in H as [H _].
      apply O1 in H. discriminate H.
    + now contradiction N1.
Qed.

Lemma item_reads k d st :
  snd (item k d st) = st /\
  (forall v, fst (item k d st) = Ok v <-> get k d = Some v) /\
  fst (item k d st) <> Returned /\
  (get k d = None -> fst (item k d st) = Raise ("'" +++ k +++ "'")).
Proof.
  unfold item. destruct (get k d) as [v |]; simpl; repeat split;
    try discriminate; try congruence.
Qed.

Lemma success_line_reads (r : Dict) st :
  snd ((_ <- item "strategy" r ;; _ <- item "final_url" r ;; ret tt) st) = st /\
  (fst ((_ <- item "strategy" r ;; _ <- item "final_url" r ;; ret tt) st) = Ok tt <->
   has_key "strategy" r && has_key "final_url" r = true) /\
  fst ((_ <- item "strategy" r ;; _ <- item "final_url" r ;; ret tt) st) <> Returned.
Proof.
  unfold bind, item, has_key, ret, raise.
  destruct (get "strategy" r), (get "final_url" r); simpl; repeat split;
    try discriminate; auto.
Qed.

Lemma failure_line_reads (r : Dict) st :
  snd ((_ <- item "strategy" r ;; ret tt) st) = st /\
  (fst ((_ <- item "strategy" r ;; ret tt) st) = Ok tt <-> has_key "strategy" r = true) /\
  fst ((_ <- item "strategy" r ;; ret tt) st) <> Returned.
Proof.
  unfold bind, item, has_key, ret, raise.
  destruct (get "strategy" r); simpl; repeat split; try discriminate; auto.
Qed.

Lemma forallb_filter_success (rs : list Dict) :
  forallb (fun r => has_key "strategy" r && has_key "final_url" r)
          (filter (fun r => truthy (get "success" r)) rs) = true <->
  Forall printable_success rs.
Proof.
  induction rs as [| r rs IH]; simpl.
  - split; auto.
  - unfold has_key in *.
    destruct (truthy (get "success" r)) eqn:T; simpl.
    + rewrite andb_true_iff, IH. split.
      * intros [H1 H2]. constructor; [ | exact H2].
        intros _. apply andb_prop in H1 as [K1 K2].
        destruct (get "strategy" r), (get "final_url" r); try discriminate.
        split; discriminate.
      * intros H. inversion H as [| ? ? H1 H2]; subst. split; [ | exact H2].
        unfold printable_success, success_of in H1. destruct (H1 T) as [K1 K2].
        destruct (get "strategy" r), (get "final_url" r); try reflexivity;
          try (now contradiction K1); now contradiction K2.
    + rewrite IH. split.
      * intros H. constructor; [ | exact H].
        unfold printable_success, success_of. rewrite T. discriminate.
      * intros H. now inversion H.
Qed.

Lemma forallb_filter_failure (rs : list Dict) :
  forallb (has_key "strategy")
          (filter (fun r => negb (truthy (get "success" r))) rs) = true <->
  Forall printable_failure rs.
Proof.
  induction rs as [| r rs IH]; simpl.
  - split; auto.
  - unfold has_key in *.
    destruct (truthy (get "success" r)) eqn:T; simpl.
    + rewrite IH. split.
      * intros H. constructor; [ | exact H].
        unfold printable_failure, success_of. rewrite T. discriminate.
      * intros H. now inversion H.
    + rewrite andb_true_iff, IH. split.
      * intros [H1 H2]. constructor; [ | exact H2].
        intros _. destruct (get "strategy" r); [discriminate | discriminate H1].
      * intros H. inversion H as [| ? ? H1 H2]; subst. split; [ | exact H2].
        unfold printable_failure, success_of in H1. specialize (H1 T).
        destruct (get "strategy" r); [reflexivity | now contradiction H1].
Qed.

Lemma reading_seq (m1 m2 : M unit) st :
  snd (m1 st) = st -> fst (m1 st) <> Returned ->
  snd (m2 st) = st -> fst (m2 st) <> Returned ->
  snd (def_ (m1 ;; m2) st) = st /\
  (fst (def_ (m1 ;; m2) st) = Ok tt <-> fst (m1 st) = Ok tt /\ fst (m2 st) = Ok tt) /\
  (forall e, fst (def_ (m1 ;; m2) st) = Raise e ->
             fst (m1 st) = Raise e \/ fst (m2 st) = Raise e).
Proof.
  unfold def_, bind. intros S1 N1 S2 N2.
  destruct (m1 st) as [[[] | e1 |] st1]; simpl in *; subst.
  - destruct (m2 st) as [[[] | e2 |] st2]; simpl in *; subst.
    + repeat split; auto; discriminate.
    + split; [reflexivity | ]. split; [split; [discriminate | intros [_ H]; discriminate H] | auto].
    + now contradiction N2.
  - split; [reflexivity | ]. split; [split; [discriminate | intros [H _]; discriminate H] | auto].
  - now contradiction N1.
Qed.

Lemma success_loop_raises (l : list Dict) st e :
  fst (for_each l (fun result =>
         _ <- item "strategy" result ;; _ <- item "final_url" result ;; ret tt) st) = Raise e ->
  e = "'strategy'" \/ e = "'final_url'".
Proof.
  induction l as [| r l IH]; cbn [for_each].
  - discriminate.
  - unfold bind at 1 2 3, item at 1 2.
    destruct (get "strategy" r); [ | simpl; intros [= <-]; auto].
    destruct (get "final_url" r); [ | simpl; intros [= <-]; auto].
    simpl. exact IH.
Qed.

Lemma failure_loop_raises (l : list Dict) st e :
  fst (for_each l (fun result => _ <- item "strategy" result ;; ret tt) st) = Raise e ->
  e = "'strategy'".
Proof.
  induction l as [| r l IH]; cbn [for_each].
  - discriminate.
  - unfold bind at 1 2, item at 1.
    destruct (get "strategy" r); [ | simpl; intros [= <-]; auto].
    simpl. exact IH.
Qed.

(** [print_summary] only reads the tester.  It returns normally exactly
    when every successful entry has its [strategy] and [final_url] and
    every failed entry its [strategy]; on entries from elsewhere that lack
    one of them the subscript raises [KeyError]. *)
Theorem print_summary_key_errors (st : State) :
  snd (SimpleSwapTester.print_summary st) = st /\
  (fst (SimpleSwapTester.print_summary st) = Ok tt <->
   Forall printable_success (results st) /\ Forall printable_failure (results st)) /\
  (forall e, fst (SimpleSwapTester.print_summary st) = Raise e ->
             e = "'strategy'" \/ e = "'final_url'").
Proof.
  set (successful := filter (fun r => truthy (get "success" r)) (results st)).
  set (failed := filter (fun r => negb (truthy (get "success" r))) (results st)).
  set (loop1 := for_each successful
                  (fun result => _ <- item "strategy" result ;; _ <- item "final_url" result ;; ret tt)).
  set (loop2 := for_each failed (fun result => _ <- item "strategy" result ;; ret tt)).
  assert (E : SimpleSwapTester.print_summary st = def_ (loop1 ;; loop2) st) by reflexivity.
  rewrite E.
  destruct (for_each_reading _ _ success_line_reads successful st) as (S1 & O1 & N1).
  destruct (for_each_reading _ _ failure_line_reads failed st) as (S2 & O2 & N2).
  unfold successful in O1. unfold failed in O2.
  rewrite forallb_filter_success in O1. rewrite forallb_filter_failure in O2.
  destruct (reading_seq loop1 loop2 st S1 N1 S2 N2) as (S & O & R).
  split; [exact S | ]. split.
  - rewrite O. split; intros [A B]; split.
    + exact (proj1 O1 A).
    + exact (proj1 O2 B).
    + exact (proj2 O1 A).
    + exact (proj2 O2 B).
  - intros e H. destruct (R e H) as [H1 | H2].
    + now apply success_loop_raises in H1.
    + apply failure_loop_raises in H2. auto.
Qed.

(** [print_adaptive_summary] has no loop over the failed entries: it
    returns normally exactly when every successful entry has its
    [strategy] and [final_url]. *)
Theorem print_adaptive_summary_key_errors (st : State) :
  snd (AdaptiveSimpleSwapTester.print_adaptive_summary st) = st /\
  (fst (AdaptiveSimpleSwapTester.print_adaptive_summary st) = Ok tt <->
   Forall printable_success (results st)) /\
  (forall e, fst (AdaptiveSimpleSwapTester.print_adaptive_summary st) = Raise e ->
             e = "'strategy'" \/ e = "'final_url'").
Proof.
  set (successful := filter (fun r => truthy (get "success" r)) (results st)).
  set (loop1 := for_each successful
                  (fun result => _ <- item "strategy" result ;; _ <- item "final_url" result ;; ret tt)).
  assert (E : AdaptiveSimpleSwapTester.print_adaptive_summary st
              = def_ (loop1 ;; (_ <- gets AdaptiveSimpleSwapTester.final_analysis ;; ret tt)) st)
    by reflexivity.
  rewrite E.
  destruct (for_each_reading _ _ success_line_reads successful st) as (S1 & O1 & N1).
  unfold successful in O1. rewrite forallb_filter_success in O1.
  destruct (reading_seq loop1 (_ <- gets AdaptiveSimpleSwapTester.final_analysis ;; ret tt) st
              S1 N1 eq_refl ltac:(discriminate)) as (S & O & R).
  split; [exact S | ]. split.
  - rewrite O. split.
    + intros [A _]. exact (proj1 O1 A).
    + intros A. split; [exact (proj2 O1 A) | reflexivity].
  - intros e H. destruct (R e H) as [H1 | H2].
    + now apply success_loop_raises in H1.
    + discriminate H2.
Qed.

(** An entry that claims success without a [final_url]: both summaries
    raise the [KeyError] of the missing key. *)
Lemma print_summary_key_errors_witness :
  fst (SimpleSwapTester.print_summary (set_results (fun _ => [bare_success]) new_tester))
  = Raise "'final_url'" /\
  ("'final_url'" = "'strategy'" \/ "'final_url'" = "'final_url'").
Proof.
  split; [reflexivity | ].
  exact (proj2 (proj2 (print_summary_key_errors
                         (set_results (fun _ => [bare_success]) new_tester))) _ eq_refl).
Defined.

Lemma print_adaptive_summary_key_errors_witness :
  fst (AdaptiveSimpleSwapTester.print_adaptive_summary
         (set_results (fun _ => [bare_success]) new_tester))
  = Raise "'final_url'" /\
  ("'final_url'" = "'strategy'" \/ "'final_url'" = "'final_url'").
Proof.
  split; [reflexivity | ].
  exact (proj2 (proj2 (print_adaptive_summary_key_errors
                         (set_results (fun _ => [bare_success]) new_tester))) _ eq_refl).
Defined.

(** *** The console tail of an entry *)

Lemma last_n_length {A} n (l : list A) : length (last_n n l) <= n.
Proof. unfold last_n. rewrite length_skipn. lia. Qed.

Lemma last_n_suffix {A} n (l : list A) : exists front, l = front ++ last_n n l.
Proof.
  unfold last_n. exists (firstn (length l - n) l). symmetry. apply firstn_skipn.
Qed.

Lemma last_n_short {A} n (l : list A) : length l <= n -> last_n n l = l.
Proof. intros H. unfold last_n. replace (length l - n) with 0 by lia. reflexivity. Qed.

Lemma BasicEntry_console s r :
  BasicEntry s r ->
  length (get_list "console_logs" r) <= 10 /\
  (get "error" r <> None -> get_list "console_logs" r = []).
Proof.
  intros [(t & u & logs & ->) | (t & e & ->)]; unfold get_list; simpl.
  - split; [apply last_n_length | intros N; now contradiction N].
  - split; [lia | reflexivity].
Qed.

Lemma AdaptiveEntry_console s r :
  AdaptiveEntry s r ->
  length (get_list "console_logs" r) <= 10 /\
  (get "error" r <> None -> length (get_list "console_logs" r) <= 5).
Proof.
  intros [(a & t & b & u & logs & notes & ->) | (a & t & e & logs & ->)];
    unfold get_list; simpl.
  - split; [apply last_n_length | intros N; now contradiction N].
  - destruct logs as [| l logs]; simpl; [split; lia | ].
    pose proof (last_n_length 5 (l :: logs)). split; [lia | auto].
Qed.

(** Every entry of a run keeps a bounded tail of the console: at most ten
    lines; an entry of the exception path keeps none in the basic variant
    and at most five in the adaptive variant. *)
Theorem console_tail_bounded :
  (forall (w : World SimpleSwapTester.Page) strats r,
      In r (results (snd (SimpleSwapTester.run_all_tests w (tester_with strats)))) ->
      length (get_list "console_logs" r) <= 10 /\
      (get "error" r <> None -> get_list "console_logs" r = [])) /\
  (forall (w : World AdaptiveSimpleSwapTester.Page) strats r,
      In r (results (snd (AdaptiveSimpleSwapTester.run_adaptive_tests w (tester_with strats)))) ->
      length (get_list "console_logs" r) <= 10 /\
      (get "error" r <> None -> length (get_list "console_logs" r) <= 5)).
Proof.
  split; intros w strats r.
  - destruct (run_all_tests_shape w strats) as (st' & evss & t & E & _ & FP & _).
    rewrite E. simpl. intros HI.
    destruct (Forall2_In_r _ _ _ _ FP HI) as (s & HE).
    now apply BasicEntry_console with (s := s).
  - destruct (run_adaptive_tests_shape w strats) as (st' & evss & t & E & _ & FP & _).
    rewrite E. simpl. intros HI.
    destruct (Forall2_In_r _ _ _ _ FP HI) as (x & HE).
    now apply AdaptiveEntry_console with (s := snd x).
Qed.

(** The twelve lines of a chatty page: the entry keeps the last ten. *)
Lemma console_tail_bounded_witness :
  let rs := results (snd (AdaptiveSimpleSwapTester.run_adaptive_tests
                            (AdaptiveScenario.world_of chatty) (tester_with ["basic"]))) in
  In (nth 0 rs []) rs /\
  get_list "console_logs" (nth 0 rs [])
  = map log_console (skipn 2 twelve_lines) /\
  length (get_list "console_logs" (nth 0 rs [])) <= 10.
Proof.
  intros rs.
  assert (HI : In (nth 0 rs []) rs) by (apply nth_In; vm_compute; repeat constructor).
  split; [exact HI | ]. split; [vm_compute; reflexivity | ].
  exact (proj1 (proj2 console_tail_bounded (AdaptiveScenario.world_of chatty) ["basic"]
                  (nth 0 rs []) HI)).
Defined.

(** *** The polling loops *)

Lemma FrameBy_no_event st st' : FrameBy no_event st st' -> events st' = events st.
Proof.
  intros (_ & _ & _ & q & E & Q). destruct q as [| ev q]; [ | discriminate Q].
  now rewrite E, app_nil_r.
Qed.

Lemma repeat_snoc {A} (x : A) k : repeat x k ++ [x] = x :: repeat x k.
Proof. induction k as [| k IH]; simpl; [reflexivity | now rewrite IH]. Qed.

(** A loop whose rounds sleep one second and then do something that leaves
    no event: it sleeps once per round it starts. *)
Lemma polling_events {A} (c : nat) (wait : A -> Await unit) (rest : A -> M unit) :
  (forall x, stable (FrameBy no_event) (rest x)) ->
  forall (l : list A) st,
    exists k,
      events (snd (for_each l (fun x => bind (sleep_on c MonitorWait 1 (wait x))
                                             (fun _ => rest x)) st))
      = events st ++ repeat poll_sleep k /\
      k <= length l /\
      (fst (for_each l (fun x => bind (sleep_on c MonitorWait 1 (wait x))
                                      (fun _ => rest x)) st) = Ok tt -> k = length l) /\
      (forall e, fst (for_each l (fun x => bind (sleep_on c MonitorWait 1 (wait x))
                                                (fun _ => rest x)) st) = Raise e -> 1 <= k).
Proof.
  intros Hr. induction l as [| x l IH]; intros st; cbn [for_each].
  - exists 0. simpl. rewrite app_nil_r. repeat split; auto. discriminate.
  - set (st1 := snd (sleep_on c MonitorWait 1 (wait x) st)).
    assert (E1 : sleep_on c MonitorWait 1 (wait x) st = (Ok tt, st1)) by reflexivity.
    assert (V1 : events st1 = events st ++ [poll_sleep]) by reflexivity.
    pose proof (FrameBy_no_event _ _ (Hr x st1)) as V2.
    unfold bind at 1 2 4 5 7 8. rewrite E1.
    destruct (rest x st1) as [[[] | e |] st2]; cbn [fst snd length] in V2 |- *.
    + destruct (IH st2) as (k & V & L & O & R). exists (S k).
      split; [rewrite V, V2, V1, <- app_assoc; reflexivity | ].
      split; [lia | ]. split; [intros H; rewrite (O H); reflexivity | intros; lia].
    + exists 1. split; [rewrite V2; exact V1 | ]. split; [lia | ].
      split; [discriminate | intros; lia].
    + exists 1. split; [rewrite V2; exact V1 | ]. split; [lia | ].
      split; [discriminate | intros; lia].
Qed.

Section PollingLoops.
Variable wb : World SimpleSwapTester.Page.
Variable wa : World AdaptiveSimpleSwapTester.Page.

Lemma basic_monitor_polls c st :
  exists k,
    events (snd (SimpleSwapTester.monitor_loop wb c st)) = events st ++ repeat poll_sleep k /\
    k <= 10 /\
    (fst (SimpleSwapTester.monitor_loop wb c st) = Ok tt -> k = 10) /\
    (forall e, fst (SimpleSwapTester.monitor_loop wb c st) = Raise e -> 1 <= k).
Proof.
  unfold SimpleSwapTester.monitor_loop. cbv zeta.
  eapply (polling_events c (fun i => SimpleSwapTester.tk_wait (SimpleSwapTester.on_monitor (page wb c) i))).
  intros i. stable_tac frameby_base.
Qed.

Lemma adaptive_monitor_polls c s st :
  exists st1,
    AdaptiveSimpleSwapTester.monitor_loop wa c s st = (Ok tt, st1) /\
    events st1 = events st ++ repeat poll_sleep 15.
Proof.
  destruct (adaptive_monitor_loop_completes wa c s st) as (st1 & E & _).
  exists st1. split; [exact E | ].
  assert (H : exists k,
             events (snd (AdaptiveSimpleSwapTester.monitor_loop wa c s st))
             = events st ++ repeat poll_sleep k /\
             k <= 15 /\
             (fst (AdaptiveSimpleSwapTester.monitor_loop wa c s st) = Ok tt -> k = 15) /\
             (forall e, fst (AdaptiveSimpleSwapTester.monitor_loop wa c s st) = Raise e -> 1 <= k)).
  { unfold AdaptiveSimpleSwapTester.monitor_loop. cbv zeta.
    eapply (polling_events c
              (fun i => AdaptiveSimpleSwapTester.tk_wait (AdaptiveSimpleSwapTester.on_monitor (page wa c) i))).
    intros i. apply stable_swallow; preorder_goal. apply poll_silent. }
  destruct H as (k & V & _ & O & _). rewrite E in V, O. simpl in V, O.
  now rewrite V, (O eq_refl).
Qed.

End PollingLoops.

(** *** The tester's lists are append-only *)

#[export] Instance extends_PreOrder {A} (f : State -> list A) : PreOrder (extends f).
Proof.
  split.
  - intros st. exists []. now rewrite app_nil_r.
  - intros st1 st2 st3 [l1 E1] [l2 E2]. exists (l1 ++ l2). now rewrite E2, E1, app_assoc.
Qed.

#[export] Instance unchanged_PreOrder {A} (f : State -> A) : PreOrder (unchanged f).
Proof.
  split; [intros st; reflexivity | intros st1 st2 st3 E1 E2; unfold unchanged in *; congruence].
Qed.

Lemma stable_try_finally (I : State -> State -> Prop) `{PreOrder _ I}
      {A} (m : M A) (fin : M unit) :
  stable I m -> stable I fin -> stable I (try_finally m fin).
Proof.
  intros Hm Hf st. specialize (Hm st). unfold try_finally.
  destruct (m st) as [o st1]. specialize (Hf st1).
  destruct (fin st1) as [[[] | e |] st2]; simpl in *; etransitivity; eauto.
Qed.

Lemma snd_def (m : M unit) st : snd (def_ m st) = snd (m st).
Proof. unfold def_. now destruct (m st) as [[[] | e |] st1]. Qed.

Lemma stable_extends_same {A B} (f : State -> list A) (m : M B) :
  (forall st, f (snd (m st)) = f st) -> stable (extends f) m.
Proof. intros H st. exists []. now rewrite H, app_nil_r. Qed.

Lemma stable_unchanged_same {A B} (f : State -> A) (m : M B) :
  (forall st, f (snd (m st)) = f st) -> stable (unchanged f) m.
Proof. intros H st. apply H. Qed.

Lemma stable_results_append r : stable (extends results) (append_result r).
Proof. intros st. exists [r]. reflexivity. Qed.

Lemma stable_insights_log (w : World AdaptiveSimpleSwapTester.Page) i :
  stable (extends learned_insights) (AdaptiveSimpleSwapTester.log_insight w i).
Proof. intros st. eexists. reflexivity. Qed.

(** The statements that touch the state, for the three relations. *)
Ltac lists_base :=
  first
    [ apply stable_results_append
    | apply stable_insights_log
    | assumption
    | match goal with H : forall a, stable _ (_ a) |- _ => apply H end
    | match goal with H : forall s a, stable _ (_ s a) |- _ => apply H end
    | apply stable_extends_same; intros ?;
      first [ reflexivity
            | unfold await_; simpl; reflexivity
            | unfold item; match goal with |- context [get ?k ?d] => destruct (get k d) end;
              reflexivity ]
    | apply stable_unchanged_same; intros ?;
      first [ reflexivity
            | unfold item; match goal with |- context [get ?k ?d] => destruct (get k d) end;
              reflexivity ] ].

Ltac lists_step :=
  match goal with
  | |- stable _ (try_finally _ _) => apply stable_try_finally; [typeclasses eauto | | ]
  | |- stable _ (close _) => unfold close
  | |- stable _ (sleep _ _) => unfold sleep
  | |- stable _ (goto _ _ _) => unfold goto
  | |- stable _ (sleep_on _ _ _ _) => unfold sleep_on
  | |- stable _ (listen _) => unfold listen
  | |- stable _ (let '(_, _) := ?x in _) => destruct x
  | |- _ => stable_step lists_base
  end.

Ltac lists_tac := cbv zeta; repeat (lists_step; cbv zeta).

Section Lists.
Variable wb : World SimpleSwapTester.Page.
Variable wa : World AdaptiveSimpleSwapTester.Page.

Lemma basic_test_strategy_lists s :
  stable (extends results) (SimpleSwapTester.test_strategy wb s) /\
  stable (unchanged learned_insights) (SimpleSwapTester.test_strategy wb s) /\
  stable (unchanged strategies) (SimpleSwapTester.test_strategy wb s).
Proof.
  unfold SimpleSwapTester.test_strategy, SimpleSwapTester.try_block, SimpleSwapTester.probe,
    SimpleSwapTester.collect, SimpleSwapTester.on_exception, SimpleSwapTester.watch_iframe,
    SimpleSwapTester.watch_redirect, SimpleSwapTester.monitor_simpleswap_page,
    SimpleSwapTester.monitor_loop.
  repeat split; lists_tac.
Qed.

Lemma basic_print_summary_reads st : snd (SimpleSwapTester.print_summary st) = st.
Proof.
  assert (H : stable (unchanged (fun st : State => st)) SimpleSwapTester.print_summary).
  { unfold SimpleSwapTester.print_summary. lists_tac. }
  exact (H st).
Qed.

Lemma adaptive_print_summary_reads st :
  snd (AdaptiveSimpleSwapTester.print_adaptive_summary st) = st.
Proof.
  assert (H : stable (unchanged (fun st : State => st))
                     AdaptiveSimpleSwapTester.print_adaptive_summary).
  { unfold AdaptiveSimpleSwapTester.print_adaptive_summary. lists_tac. }
  exact (H st).
Qed.

Ltac adaptive_unfold :=
  unfold AdaptiveSimpleSwapTester.test_strategy_with_learning_body,
    AdaptiveSimpleSwapTester.try_block, AdaptiveSimpleSwapTester.approach,
    AdaptiveSimpleSwapTester.classify, AdaptiveSimpleSwapTester.no_redirect,
    AdaptiveSimpleSwapTester.collect, AdaptiveSimpleSwapTester.on_exception,
    AdaptiveSimpleSwapTester.monitor_simpleswap_with_learning,
    AdaptiveSimpleSwapTester.monitor_loop, AdaptiveSimpleSwapTester.poll,
    AdaptiveSimpleSwapTester.check_inputs, AdaptiveSimpleSwapTester.check_text,
    AdaptiveSimpleSwapTester.check_providers, AdaptiveSimpleSwapTester.learning_summary,
    AdaptiveSimpleSwapTester.take_screenshot, AdaptiveSimpleSwapTester.wait_for_cache_update,
    AdaptiveSimpleSwapTester.set_amount_found, AdaptiveSimpleSwapTester.set_provider_found,
    AdaptiveSimpleSwapTester.analyze_patterns.

Lemma adaptive_body_lists self_call s a :
  (forall a', keeps_lists (self_call a')) ->
  keeps_lists (AdaptiveSimpleSwapTester.test_strategy_with_learning_body wa self_call s a).
Proof.
  intros HS.
  assert (H1 : forall a', stable (extends results) (self_call a')) by (intros; apply HS).
  assert (H2 : forall a', stable (extends learned_insights) (self_call a')) by (intros; apply HS).
  assert (H3 : forall a', stable (unchanged strategies) (self_call a')) by (intros; apply HS).
  clear HS. adaptive_unfold. repeat split; lists_tac.
Qed.

Lemma adaptive_unroll_lists depth s a :
  keeps_lists (AdaptiveSimpleSwapTester.unroll wa depth s a).
Proof.
  revert a; induction depth as [| depth IH]; intros a; simpl;
    apply adaptive_body_lists; intros a'; [ | apply IH].
  repeat split; lists_tac.
Qed.

Lemma adaptive_run_lists :
  keeps_lists (AdaptiveSimpleSwapTester.run_adaptive_tests wa).
Proof.
  assert (H : forall s a, keeps_lists (AdaptiveSimpleSwapTester.test_strategy_with_learning wa s a))
    by (intros; apply adaptive_unroll_lists).
  assert (H1 : forall s a, stable (extends results)
             (AdaptiveSimpleSwapTester.test_strategy_with_learning wa s a)) by (intros; apply H).
  assert (H2 : forall s a, stable (extends learned_insights)
             (AdaptiveSimpleSwapTester.test_strategy_with_learning wa s a)) by (intros; apply H).
  assert (H3 : forall s a, stable (unchanged strategies)
             (AdaptiveSimpleSwapTester.test_strategy_with_learning wa s a)) by (intros; apply H).
  clear H.
  unfold AdaptiveSimpleSwapTester.run_adaptive_tests,
    AdaptiveSimpleSwapTester.print_adaptive_summary.
  adaptive_unfold.
  repeat split; lists_tac.
Qed.

Lemma basic_run_lists :
  stable (unchanged learned_insights) (SimpleSwapTester.run_all_tests wb).
Proof.
  pose proof (fun s => proj1 (proj2 (basic_test_strategy_lists s))) as H.
  unfold SimpleSwapTester.run_all_tests, SimpleSwapTester.print_summary. lists_tac.
Qed.

End Lists.

(** *** The monitoring and the tester's lists *)

Lemma adaptive_monitoring_lists (w : World AdaptiveSimpleSwapTester.Page) c s :
  stable (unchanged results) (AdaptiveSimpleSwapTester.monitor_simpleswap_with_learning w c s) /\
  stable (unchanged strategies) (AdaptiveSimpleSwapTester.monitor_simpleswap_with_learning w c s) /\
  stable (extends learned_insights)
         (AdaptiveSimpleSwapTester.monitor_simpleswap_with_learning w c s).
Proof.
  unfold AdaptiveSimpleSwapTester.monitor_simpleswap_with_learning,
    AdaptiveSimpleSwapTester.monitor_loop, AdaptiveSimpleSwapTester.poll,
    AdaptiveSimpleSwapTester.check_inputs, AdaptiveSimpleSwapTester.check_text,
    AdaptiveSimpleSwapTester.check_providers, AdaptiveSimpleSwapTester.learning_summary,
    AdaptiveSimpleSwapTester.take_screenshot, AdaptiveSimpleSwapTester.set_amount_found,
    AdaptiveSimpleSwapTester.set_provider_found.
  repeat split; lists_tac.
Qed.

Lemma basic_monitoring_lists (w : World SimpleSwapTester.Page) c s :
  stable (unchanged results) (SimpleSwapTester.monitor_simpleswap_page w c s) /\
  stable (unchanged strategies) (SimpleSwapTester.monitor_simpleswap_page w c s) /\
  stable (unchanged learned_insights) (SimpleSwapTester.monitor_simpleswap_page w c s).
Proof.
  unfold SimpleSwapTester.monitor_simpleswap_page, SimpleSwapTester.monitor_loop.
  repeat split; lists_tac.
Qed.

(** The monitoring in the trace of events and in the tester's lists.  In
    the trace, the polling loop shows one one-second sleep per iteration
    and no other event between them (the queries of an iteration and the
    printed lines are no events).  The adaptive variant always does its
    fifteen iterations and then takes the screenshot.  The basic variant
    does its ten iterations and takes the screenshot when no element query
    raises; when one raises, the monitoring stops in that iteration, takes
    no screenshot and passes the exception on.  Neither monitoring touches
    the results or the strategies; the adaptive one logs insights, which
    it appends to those already there, the basic one logs none. *)
Theorem monitoring_polls :
  (forall (w : World AdaptiveSimpleSwapTester.Page) c s st,
      exists t,
        events (snd (AdaptiveSimpleSwapTester.monitor_simpleswap_with_learning w c s st))
        = events st ++ repeat poll_sleep 15 ++ [EvScreenshot c (screenshot_path s t) true]) /\
  (forall (w : World SimpleSwapTester.Page) c s st,
      fst (SimpleSwapTester.monitor_loop w c st) = Ok tt ->
      exists t,
        events (snd (SimpleSwapTester.monitor_simpleswap_page w c s st))
        = events st ++ repeat poll_sleep 10 ++ [EvScreenshot c (screenshot_path s t) false]) /\
  (forall (w : World SimpleSwapTester.Page) c s st e,
      fst (SimpleSwapTester.monitor_loop w c st) = Raise e ->
      fst (SimpleSwapTester.monitor_simpleswap_page w c s st) = Raise e /\
      exists k,
        1 <= k <= 10 /\
        events (snd (SimpleSwapTester.monitor_simpleswap_page w c s st))
        = events st ++ repeat poll_sleep k) /\
  (forall (w : World AdaptiveSimpleSwapTester.Page) c s st,
      let st' := snd (AdaptiveSimpleSwapTester.monitor_simpleswap_with_learning w c s st) in
      results st' = results st /\
      strategies st' = strategies st /\
      exists ins, learned_insights st' = learned_insights st ++ ins) /\
  (forall (w : World SimpleSwapTester.Page) c s st,
      let st' := snd (SimpleSwapTester.monitor_simpleswap_page w c s st) in
      results st' = results st /\
      strategies st' = strategies st /\
      learned_insights st' = learned_insights st).
Proof.
  split; [ | split; [ | split; [ | split]]].
  - intros w c s st.
    destruct (monitor_simpleswap_with_learning_unfold w c s st) as
      (st0 & st1 & st2 & o & st3 & E0 & E1 & E2 & E3 & ->).
    destruct (adaptive_monitor_polls w c s st0) as (st1' & E1' & V1).
    rewrite E1 in E1'. injection E1' as <-.
    destruct (learning_summary_spec w c s st1) as (st2' & E2' & V2 & _).
    rewrite E2 in E2'. injection E2' as <-.
    destruct (take_screenshot_spec w c s st2) as (o' & st3' & E3' & V3 & _).
    rewrite E3 in E3'. injection E3' as <- <-.
    exists (clock w (clock_reads st2)).
    rewrite V3, V2, V1, E0, <- app_assoc. reflexivity.
  - intros w c s st H.
    destruct (basic_monitor_polls w c st) as (k & V & _ & O & _).
    rewrite (O H) in V.
    destruct (SimpleSwapTester.monitor_loop w c st) as [o st1] eqn:E.
    simpl in H, V. subst o.
    destruct (monitor_simpleswap_page_screenshot w c s st st1 E) as (q & EV & _).
    exists (clock w (clock_reads st1)).
    unfold SimpleSwapTester.monitor_simpleswap_page, def_, bind. rewrite E.
    unfold now, emit, modify, await_.
    destruct (aw_answer (SimpleSwapTester.on_screenshot (page w c)));
      simpl; rewrite V, <- app_assoc; reflexivity.
  - intros w c s st e H.
    destruct (basic_monitor_polls w c st) as (k & V & L & _ & R).
    specialize (R e H).
    unfold SimpleSwapTester.monitor_simpleswap_page, def_, bind.
    destruct (SimpleSwapTester.monitor_loop w c st) as [o st1].
    simpl in H, V. subst o. simpl. split; [reflexivity | ].
    exists k. split; [lia | exact V].
  - intros w c s st st'. subst st'.
    destruct (adaptive_monitoring_lists w c s) as (H1 & H2 & H3).
    split; [apply H1 | split; [apply H2 | apply H3]].
  - intros w c s st st'. subst st'.
    destruct (basic_monitoring_lists w c s) as (H1 & H2 & H3).
    split; [apply H1 | split; [apply H2 | apply H3]].
Qed.

(** The third iteration of the basic monitoring cannot query the page:
    three sleeps, no screenshot, and the exception goes on to the attempt. *)
Lemma monitoring_polls_witness :
  let w := BasicScenario.world_of breaking in
  fst (SimpleSwapTester.monitor_loop w 0 probing) = Raise "Execution context was destroyed" /\
  fst (SimpleSwapTester.monitor_simpleswap_page w 0 "basic" probing)
  = Raise "Execution context was destroyed" /\
  events (snd (SimpleSwapTester.monitor_simpleswap_page w 0 "basic" probing))
  = [EvOpen 0; poll_sleep; poll_sleep; poll_sleep].
Proof.
  intros w.
  assert (H : fst (SimpleSwapTester.monitor_loop w 0 probing)
              = Raise "Execution context was destroyed") by (vm_compute; reflexivity).
  split; [exact H | ].
  split; [exact (proj1 (proj1 (proj2 (proj2 monitoring_polls)) w 0 "basic" probing _ H)) | ].
  vm_compute; reflexivity.
Defined.


(** A run of the definitions above works on the tester as it finds it. *)
Lemma basic_run_appends (w : World SimpleSwapTester.Page) st :
  let st' := snd (SimpleSwapTester.run_all_tests w st) in
  strategies st' = strategies st /\
  exists rs, results st' = results st ++ rs /\ Forall2 BasicEntry (strategies st) rs.
Proof.
  destruct (run_all_tests_loop w st) as (st1 & C & E).
  apply Chain_Round in C as (S1 & rs & evss & R1 & E1 & FP & FQ).
  cbv zeta. rewrite E, snd_def, basic_print_summary_reads. simpl.
  split; [exact S1 | exists rs; split; assumption].
Qed.

Lemma adaptive_run_appends (w : World AdaptiveSimpleSwapTester.Page) st :
  Forall iterable_logs (results st) ->
  let st' := snd (AdaptiveSimpleSwapTester.run_adaptive_tests w st) in
  strategies st' = strategies st /\
  exists rs, results st' = results st ++ rs /\
             Forall2 (fun x => AdaptiveEntry (snd x)) (enumerate (strategies st)) rs.
Proof.
  intros HI. destruct (run_adaptive_tests_loop w st HI) as (st1 & C & E).
  apply Chain_Round in C as (S1 & rs & evss & R1 & E1 & FP & FQ).
  cbv zeta. rewrite E, snd_def, adaptive_print_summary_reads. simpl.
  split; [exact S1 | exists rs; split; assumption].
Qed.

(** The insights are an append-only log of the adaptive variant: a
    call of test_strategy_with_learning, with whatever attempt number, and
    a whole run keep the insights already logged, in their order, and only
    add to their end; the basic variant never touches them. *)
Theorem insights_are_append_only :
  (forall (w : World AdaptiveSimpleSwapTester.Page) s a st,
     exists ins,
       learned_insights (snd (AdaptiveSimpleSwapTester.test_strategy_with_learning w s a st)) =
       learned_insights st ++ ins) /\
  (forall (w : World AdaptiveSimpleSwapTester.Page) st,
     exists ins,
       learned_insights (snd (AdaptiveSimpleSwapTester.run_adaptive_tests w st)) =
       learned_insights st ++ ins) /\
  (forall (w : World SimpleSwapTester.Page) st,
     learned_insights (snd (SimpleSwapTester.run_all_tests w st)) = learned_insights st).
Proof.
  repeat split.
  - intros w s a st. exact (proj1 (proj2 (adaptive_unroll_lists w (2 - a) s a)) st).
  - intros w st. exact (proj1 (proj2 (adaptive_run_lists w)) st).
  - intros w st. exact (basic_run_lists w st).
Qed.

(** *** The attempt number and the monitoring behind a recorded entry *)

Section AttemptDetails.
Variable w : World AdaptiveSimpleSwapTester.Page.

Lemma adaptive_monitoring_events c s st :
  exists t,
    events (snd (AdaptiveSimpleSwapTester.monitor_simpleswap_with_learning w c s st))
    = events st ++ repeat poll_sleep 15 ++ [EvScreenshot c (screenshot_path s t) true].
Proof.
  destruct (monitor_simpleswap_with_learning_unfold w c s st) as
    (st0 & st1 & st2 & o & st3 & E0 & E1 & E2 & E3 & <-).
  destruct (adaptive_monitor_polls w c s st0) as (st1' & E1' & V1).
  rewrite E1 in E1'. injection E1' as <-.
  destruct (learning_summary_spec w c s st1) as (st2' & E2' & V2 & _).
  rewrite E2 in E2'. injection E2' as <-.
  destruct (take_screenshot_spec w c s st2) as (o' & st3' & E3' & V3 & _).
  rewrite E3 in E3'. injection E3' as <- <-.
  exists (clock w (clock_reads st2)).
  rewrite V3, V2, V1, E0, <- app_assoc. reflexivity.
Qed.

Variable self_call : nat -> M unit.
Variable s : string.
Variable a : nat.

(** A classification that says success went through the monitoring. *)
Lemma classify_success c u cur st sn st' :
  AdaptiveSimpleSwapTester.classify w self_call c s a u cur st = (Ok sn, st') ->
  fst sn = true ->
  exists t,
    events st' = events st ++ repeat poll_sleep 15 ++ [EvScreenshot c (screenshot_path s t) true].
Proof.
  unfold AdaptiveSimpleSwapTester.classify.
  destruct (String.eqb cur u).
  - intros E T.
    assert (Y : yields (false, ["No redirect occurred"; "Checking console logs for cause"])
                       (AdaptiveSimpleSwapTester.no_redirect w self_call c s a)).
    { unfold AdaptiveSimpleSwapTester.no_redirect.
      repeat (apply yields_bind; intros ?). apply yields_ret. }
    rewrite (Y _ _ _ E) in T. discriminate T.
  - destruct (contains "simpleswap.io" cur).
    + intros E _.
      set (st1 := snd (AdaptiveSimpleSwapTester.log_insight w ("Successful redirect with " +++ s) st)).
      assert (E1 : AdaptiveSimpleSwapTester.log_insight w ("Successful redirect with " +++ s) st
                   = (Ok tt, st1)) by reflexivity.
      destruct (adaptive_monitoring_events c s st1) as (t & V).
      exists t. unfold bind at 1 in E. rewrite E1 in E. unfold bind in E.
      destruct (AdaptiveSimpleSwapTester.monitor_simpleswap_with_learning w c s st1)
        as [[[] | e |] st2]; try discriminate E.
      injection E as _ <-. exact V.
    + intros E T. unfold bind in E. simpl in E. injection E as <- _. discriminate T.
Qed.

Hypothesis self_call_spec :
  a < 2 -> forall st, exists st' r,
    self_call (a + 1) st = (Ok tt, st') /\ AdaptiveCall s (S a) st st' r.

(** The [try] block that runs to its end. *)
Lemma try_block_details c st st' :
  AdaptiveSimpleSwapTester.try_block w self_call c s a st = (Ok tt, st') ->
  exists r q,
    results st' = results st ++ [r] /\
    events st' = events st ++ q /\
    attempts q = 0 /\ sleeps RetryWait q = 0 /\
    get "attempt" r = Some (VNat a) /\
    (success_of r = true ->
     exists pre t, q = pre ++ repeat poll_sleep 15 ++ [EvScreenshot c (screenshot_path s t) true]).
Proof.
  rewrite adaptive_try_block_unfold. cbv zeta.
  set (u := AdaptiveSimpleSwapTester.request_url s (clock w (clock_reads st))).
  set (st0 := snd (now w st)).
  destruct (approach_Navigated w c s u st0) as [HN HR].
  destruct (AdaptiveSimpleSwapTester.approach w c s u st0) as [[[] | e |] st1];
    simpl in HN, HR; try discriminate.
  set (cur := url (live st1 c)).
  pose proof (classify_Retrying w self_call s a self_call_spec c u cur st1) as HC.
  destruct (AdaptiveSimpleSwapTester.classify w self_call c s a u cur st1)
    as [[sn | e |] st2] eqn:EC; try discriminate.
  destruct (adaptive_collect_appends w s a c cur (fst sn) (snd sn) st2) as (t & logs & ->).
  intros E. injection E as <-.
  destruct HN as (_ & R1 & _ & q0 & E1 & Q0).
  destruct HC as (_ & R2 & _ & q1 & E2 & Q1).
  exists (adaptive_result s a t (fst sn) cur logs (snd sn)), (EvGoto c u :: q0 ++ q1).
  assert (Q : forallb quiet (q0 ++ q1) = true) by now rewrite forallb_app, Q0, Q1.
  split; [simpl; now rewrite R2, R1 | ].
  split; [simpl; rewrite E2, E1, <- app_assoc; reflexivity | ].
  split; [exact (quiet_attempts _ Q) | ].
  split; [exact (quiet_sleeps RetryWait _ eq_refl Q) | ].
  split; [reflexivity | ].
  intros T. change (fst sn = true) in T.
  destruct (classify_success c u cur st1 sn st2 EC T) as (t' & V).
  rewrite E2 in V. apply app_inv_head in V. subst q1.
  exists (EvGoto c u :: q0), t'. reflexivity.
Qed.

Hypothesis self_call_details :
  a < 2 -> forall st st', self_call (a + 1) st = (Ok tt, st') -> CallDetails s (S a) st st'.

Lemma body_details st st' :
  AdaptiveSimpleSwapTester.test_strategy_with_learning_body w self_call s a st = (Ok tt, st') ->
  CallDetails s a st st'.
Proof.
  rewrite body_unfold.
  destruct (adaptive_entry_fields s a st) as (S0 & R0 & E0).
  set (c := next_ctx st) in *.
  destruct (adaptive_try_block_cases w self_call s a self_call_spec c (adaptive_entry s a st)) as
    [(st2 & t & success & cur & logs & notes & _ & _ & ET) |
     [(e & st2 & (_ & R2 & _ & q & E2 & Q) & ET) |
      (st2 & st3 & (_ & R2 & _ & q & E2 & Q) & [G HT] & ET)]].
  - destruct (try_block_details c _ _ ET) as (r & q & R & Ev & At & Sl & Ga & Su).
    rewrite ET. intros E. injection E as <-.
    exists r, ([EvTesting s (Some a); EvOpen c] ++ q ++ [EvClose c]).
    split; [exact (eq_trans R (f_equal (fun l => l ++ [r]) R0)) | ].
    split.
    { change (events st2 ++ [EvClose c] =
              events st ++ [EvTesting s (Some a); EvOpen c] ++ q ++ [EvClose c]).
      change (events st2 = events (adaptive_entry s a st) ++ q) in Ev.
      rewrite Ev, E0, <- !app_assoc. reflexivity. }
    split; [rewrite !attempts_app, !sleeps_app, At, Sl; reflexivity | ].
    split; [rewrite !sleeps_app, Sl, Ga; unfold sleeps; simpl; now rewrite Nat.add_0_r | ].
    intros T. destruct (Su T) as (pre & t' & ->).
    exists ([EvTesting s (Some a); EvOpen c] ++ pre), c, t', [EvClose c].
    split; [ | reflexivity]. rewrite <- !app_assoc. reflexivity.
  - destruct (adaptive_on_exception_appends w s a c e st2) as
      (t & logs & st3 & (_ & R3 & _ & q' & E3 & Q') & EX).
    rewrite ET, EX. intros E. injection E as <-.
    assert (QQ : forallb quiet (q ++ q') = true) by now rewrite forallb_app, Q, Q'.
    exists (adaptive_error_result s a t e logs),
      ([EvTesting s (Some a); EvOpen c;
        EvGoto c (AdaptiveSimpleSwapTester.request_url s
                    (clock w (clock_reads (adaptive_entry s a st))))] ++ (q ++ q') ++ [EvClose c]).
    split; [simpl; now rewrite R3, R2, R0 | ].
    split; [simpl; rewrite E3, E2, E0, <- !app_assoc; reflexivity | ].
    split; [rewrite !attempts_app, !sleeps_app, (quiet_attempts _ Q), (quiet_attempts _ Q'),
              (quiet_sleeps RetryWait _ eq_refl Q), (quiet_sleeps RetryWait _ eq_refl Q');
            reflexivity | ].
    split; [rewrite !sleeps_app, (quiet_sleeps RetryWait _ eq_refl Q),
              (quiet_sleeps RetryWait _ eq_refl Q'); unfold sleeps; simpl;
            now rewrite Nat.add_0_r | ].
    intros T. discriminate T.
  - rewrite ET. intros E. injection E as <-.
    destruct (self_call_details G _ _ HT) as (r & evs & R3 & E3 & At & Ga & Su).
    assert (EB : events (before_retry c st2) = events st2 ++ [EvClose c; EvSleep RetryWait 5]).
    { unfold before_retry, bind, close, sleep, emit, modify; simpl. now rewrite <- app_assoc. }
    assert (RB : results (before_retry c st2) = results st2) by reflexivity.
    exists r,
      ([EvTesting s (Some a); EvOpen c;
        EvGoto c (AdaptiveSimpleSwapTester.request_url s
                    (clock w (clock_reads (adaptive_entry s a st))))] ++
       q ++ [EvClose c; EvSleep RetryWait 5] ++ evs ++ [EvClose c]).
    assert (SL : sleeps RetryWait
                   ([EvTesting s (Some a); EvOpen c;
                     EvGoto c (AdaptiveSimpleSwapTester.request_url s
                                 (clock w (clock_reads (adaptive_entry s a st))))] ++
                    q ++ [EvClose c; EvSleep RetryWait 5] ++ evs ++ [EvClose c])
                 = S (sleeps RetryWait evs)).
    { change ([EvClose c; EvSleep RetryWait 5] ++ evs ++ [EvClose c])
        with ([EvClose c; EvSleep RetryWait 5] ++ (evs ++ [EvClose c])).
      rewrite !sleeps_app, (quiet_sleeps RetryWait q eq_refl Q).
      unfold sleeps at 1 2 4; simpl. lia. }
    split; [simpl; now rewrite R3, RB, R2, R0 | ].
    split; [simpl; rewrite E3, EB, E2, E0, <- !app_assoc; reflexivity | ].
    split.
    { rewrite SL.
      change ([EvClose c; EvSleep RetryWait 5] ++ evs ++ [EvClose c])
        with ([EvClose c; EvSleep RetryWait 5] ++ (evs ++ [EvClose c])).
      rewrite !attempts_app, (quiet_attempts q Q), At. unfold attempts; simpl. lia. }
    split; [rewrite SL, Ga; do 2 f_equal; lia | ].
    intros T. destruct (Su T) as (pre & c' & t' & closes & -> & CL).
    exists ([EvTesting s (Some a); EvOpen c;
             EvGoto c (AdaptiveSimpleSwapTester.request_url s
                         (clock w (clock_reads (adaptive_entry s a st))))] ++
            q ++ [EvClose c; EvSleep RetryWait 5] ++ pre), c', t', (closes ++ [EvClose c]).
    split; [ | now rewrite forallb_app, CL].
    rewrite <- ?app_assoc. cbn [app]. rewrite <- ?app_assoc. reflexivity.
Qed.

End AttemptDetails.

Lemma unroll_details (w : World AdaptiveSimpleSwapTester.Page) depth : forall s a st st',
  2 - a <= depth ->
  AdaptiveSimpleSwapTester.unroll w depth s a st = (Ok tt, st') ->
  CallDetails s a st st'.
Proof.
  induction depth as [| depth IH]; intros s a st st' D; simpl; apply body_details.
  - intros G; lia.
  - intros G; lia.
  - intros G st0. rewrite Nat.add_1_r. apply unroll_call. lia.
  - intros G st0 st1. rewrite Nat.add_1_r. apply IH. lia.
Qed.

Lemma last_item_snoc {A} (l : list A) x : last_item (l ++ [x]) = Some x.
Proof. unfold last_item. now rewrite rev_unit. Qed.

Lemma skipn_length_app {A} (l l' : list A) : skipn (length l) (l ++ l') = l'.
Proof. induction l as [| x l IH]; simpl; auto. Qed.



(** An entry of the adaptive variant is recorded as successful only after
    the monitoring of the attempt that recorded it ran to its end: the
    events of the call end with the fifteen polling sleeps, the full-page
    screenshot named after the strategy, and the closing of the contexts. *)
Theorem successful_entry_was_monitored
        (w : World AdaptiveSimpleSwapTester.Page) (s : string) (a : nat) (st : State) (r : Dict) :
  last_item (results (snd (AdaptiveSimpleSwapTester.test_strategy_with_learning w s a st)))
  = Some r ->
  success_of r = true ->
  monitored_last s
    (skipn (length (events st))
           (events (snd (AdaptiveSimpleSwapTester.test_strategy_with_learning w s a st)))).
Proof.
  destruct (test_strategy_with_learning_call w s a st) as (st' & r0 & E & _).
  destruct (unroll_details w (2 - a) s a st st' (le_n _) E) as (r' & evs & R & Ev & _ & _ & Su).
  rewrite E. cbn [snd]. rewrite R, Ev, last_item_snoc, skipn_length_app.
  intros L T. injection L as <-. exact (Su T).
Qed.

(** The first context shows the script error and is retried; the second
    is sent to the exchange: the entry is the one of attempt 2, it is
    successful, and the call ends with the monitoring, the screenshot and
    the closing of both contexts. *)
Lemma successful_entry_was_monitored_witness :
  exists r,
    last_item (results (snd (AdaptiveSimpleSwapTester.test_strategy_with_learning
                               recovering "basic" 1 new_tester))) = Some r /\
    success_of r = true /\
    get "attempt" r = Some (VNat 2) /\
    monitored_last "basic"
      (skipn (length (events new_tester))
             (events (snd (AdaptiveSimpleSwapTester.test_strategy_with_learning
                             recovering "basic" 1 new_tester)))).
Proof.
  eexists.
  split; [vm_compute; reflexivity | ].
  split; [vm_compute; reflexivity | ].
  split; [vm_compute; reflexivity | ].
  eapply (successful_entry_was_monitored recovering "basic" 1 new_tester);
    vm_compute; reflexivity.
Defined.

(** *** Every retry leaves its reason among the insights *)

#[export] Instance retry_explained_PreOrder : PreOrder retry_explained.
Proof.
  split.
  - intros st. exists [], []. rewrite !app_nil_r. repeat split.
    unfold sleeps; simpl; lia.
  - intros st1 st2 st3 (q1 & i1 & E1 & I1 & H1) (q2 & i2 & E2 & I2 & H2).
    exists (q1 ++ q2), (i1 ++ i2).
    split; [now rewrite E2, E1, app_assoc | ].
    split; [now rewrite I2, I1, app_assoc | ].
    rewrite sleeps_app, map_app, in_app_iff. intros H.
    destruct (sleeps RetryWait q1); [right; apply H2; lia | left; apply H1; lia].
Qed.

Lemma retry_explained_grows {A} (m : M A) :
  stable retry_explained m ->
  stable (extends events) m /\ stable (extends learned_insights) m.
Proof.
  intros H. split; intros st; destruct (H st) as (q & ins & E & I & _); eexists; eauto.
Qed.

(** A statement that sleeps for no retry. *)
Lemma stable_explained_step {A} (m : M A) :
  (forall st, exists q ins,
      events (snd (m st)) = events st ++ q /\
      learned_insights (snd (m st)) = learned_insights st ++ ins /\
      sleeps RetryWait q = 0) ->
  stable retry_explained m.
Proof.
  intros H st. destruct (H st) as (q & ins & E & I & Z).
  exists q, ins. repeat split; auto. rewrite Z. lia.
Qed.

(** Once the scope issue is logged, whatever follows is explained. *)
Lemma explained_after_scope_issue (w : World AdaptiveSimpleSwapTester.Page) (m : M unit) :
  stable (extends events) m ->
  stable (extends learned_insights) m ->
  stable retry_explained (bind (AdaptiveSimpleSwapTester.log_insight w scope_issue) (fun _ => m)).
Proof.
  intros He Hi st.
  set (st1 := snd (AdaptiveSimpleSwapTester.log_insight w scope_issue st)).
  assert (E1 : AdaptiveSimpleSwapTester.log_insight w scope_issue st = (Ok tt, st1)) by reflexivity.
  unfold bind. rewrite E1.
  destruct (He st1) as (q & Eq). destruct (Hi st1) as (ins & Ei).
  exists q, (mkInsight (clock w (clock_reads st)) scope_issue :: ins).
  split; [exact Eq | ]. split; [rewrite Ei; simpl; now rewrite <- app_assoc | ].
  intros _. left. reflexivity.
Qed.

Lemma stable_events_emit ev : stable (extends events) (emit ev).
Proof. intros st. exists [ev]. reflexivity. Qed.

Lemma stable_events_new_context : stable (extends events) new_context.
Proof. intros st. eexists. reflexivity. Qed.

Ltac growth_base :=
  first
    [ apply stable_events_emit
    | apply stable_events_new_context
    | lists_base ].

Ltac growth_step :=
  match goal with
  | |- stable _ (try_finally _ _) => apply stable_try_finally; [typeclasses eauto | | ]
  | |- stable _ (close _) => unfold close
  | |- stable _ (sleep _ _) => unfold sleep
  | |- stable _ (goto _ _ _) => unfold goto
  | |- stable _ (sleep_on _ _ _ _) => unfold sleep_on
  | |- stable _ (listen _) => unfold listen
  | |- stable _ (let '(_, _) := ?x in _) => destruct x
  | |- _ => stable_step growth_base
  end.

Ltac growth_tac := cbv zeta; repeat (growth_step; cbv zeta).

Lemma stable_explained_log_insight (w : World AdaptiveSimpleSwapTester.Page) i :
  stable retry_explained (AdaptiveSimpleSwapTester.log_insight w i).
Proof.
  apply stable_explained_step. intros st. exists []. eexists.
  rewrite app_nil_r. repeat split; reflexivity.
Qed.

Ltac explained_base :=
  first
    [ assumption
    | apply stable_explained_log_insight
    | match goal with H : forall a, stable _ (_ a) |- _ => apply H end
    | match goal with H : forall s a, stable _ (_ s a) |- _ => apply H end
    | apply stable_explained_step; intros ?;
      first [ exists [], []; rewrite !app_nil_r; repeat split; reflexivity
            | eexists [_], []; rewrite app_nil_r; repeat split; reflexivity
            | unfold item; match goal with |- context [get ?k ?d] => destruct (get k d) end;
              exists [], []; rewrite !app_nil_r; repeat split; reflexivity ] ].

Ltac explained_step :=
  match goal with
  | |- stable retry_explained
         (bind (AdaptiveSimpleSwapTester.log_insight _ "JavaScript variable scope issue detected") _) =>
      apply explained_after_scope_issue; growth_tac
  | |- stable _ (try_finally _ _) => apply stable_try_finally; [typeclasses eauto | | ]
  | |- stable _ (close _) => unfold close
  | |- stable _ (sleep _ _) => unfold sleep
  | |- stable _ (goto _ _ _) => unfold goto
  | |- stable _ (sleep_on _ _ _ _) => unfold sleep_on
  | |- stable _ (listen _) => unfold listen
  | |- stable _ (let '(_, _) := ?x in _) => destruct x
  | |- _ => stable_step explained_base
  end.

Ltac explained_tac := cbv zeta; repeat (explained_step; cbv zeta).

Ltac adaptive_blocks :=
  unfold AdaptiveSimpleSwapTester.test_strategy_with_learning_body,
    AdaptiveSimpleSwapTester.try_block, AdaptiveSimpleSwapTester.approach,
    AdaptiveSimpleSwapTester.classify, AdaptiveSimpleSwapTester.no_redirect,
    AdaptiveSimpleSwapTester.collect, AdaptiveSimpleSwapTester.on_exception,
    AdaptiveSimpleSwapTester.monitor_simpleswap_with_learning,
    AdaptiveSimpleSwapTester.monitor_loop, AdaptiveSimpleSwapTester.poll,
    AdaptiveSimpleSwapTester.check_inputs, AdaptiveSimpleSwapTester.check_text,
    AdaptiveSimpleSwapTester.check_providers, AdaptiveSimpleSwapTester.learning_summary,
    AdaptiveSimpleSwapTester.take_screenshot, AdaptiveSimpleSwapTester.wait_for_cache_update,
    AdaptiveSimpleSwapTester.set_amount_found, AdaptiveSimpleSwapTester.set_provider_found,
    AdaptiveSimpleSwapTester.analyze_patterns.

Section RetryExplained.
Variable w : World AdaptiveSimpleSwapTester.Page.

Lemma body_explained self_call s a :
  (forall a', stable retry_explained (self_call a')) ->
  stable retry_explained (AdaptiveSimpleSwapTester.test_strategy_with_learning_body w self_call s a).
Proof.
  intros H.
  assert (He : forall a', stable (extends events) (self_call a'))
    by (intros a'; apply retry_explained_grows, H).
  assert (Hi : forall a', stable (extends learned_insights) (self_call a'))
    by (intros a'; apply retry_explained_grows, H).
  adaptive_blocks. explained_tac.
Qed.

Lemma unroll_explained depth s a :
  stable retry_explained (AdaptiveSimpleSwapTester.unroll w depth s a).
Proof.
  revert a; induction depth as [| depth IH]; intros a; simpl;
    apply body_explained; intros a'; [ | apply IH].
  explained_tac.
Qed.

Lemma run_explained : stable retry_explained (AdaptiveSimpleSwapTester.run_adaptive_tests w).
Proof.
  assert (H : forall s a, stable retry_explained
                (AdaptiveSimpleSwapTester.test_strategy_with_learning w s a))
    by (intros; apply unroll_explained).
  unfold AdaptiveSimpleSwapTester.run_adaptive_tests,
    AdaptiveSimpleSwapTester.print_adaptive_summary.
  adaptive_blocks. explained_tac.
Qed.

End RetryExplained.

(** A run that retried a strategy says so in its analysis: the insight
    logged before the retry is still among the insights at the end of the
    run, so the analysis of the tester lists the scoping problem among its
    key insights and the fix of workingUrl among its recommendations. *)
Theorem retries_reach_the_recommendations
        (w : World AdaptiveSimpleSwapTester.Page) (st : State) :
  0 < sleeps RetryWait
        (skipn (length (events st))
               (events (snd (AdaptiveSimpleSwapTester.run_adaptive_tests w st)))) ->
  In "JavaScript variable scoping needs fixing"
     (AdaptiveSimpleSwapTester.key_insights
        (AdaptiveSimpleSwapTester.final_analysis
           (snd (AdaptiveSimpleSwapTester.run_adaptive_tests w st)))) /\
  In "Fix workingUrl variable initialization"
     (AdaptiveSimpleSwapTester.recommendations
        (AdaptiveSimpleSwapTester.final_analysis
           (snd (AdaptiveSimpleSwapTester.run_adaptive_tests w st)))).
Proof.
  destruct (run_explained w st) as (q & ins & E & I & H).
  rewrite E, skipn_length_app. intros R. specialize (H R).
  assert (M : AdaptiveSimpleSwapTester.mem scope_issue
                (map i_insight
                     (learned_insights (snd (AdaptiveSimpleSwapTester.run_adaptive_tests w st))))
              = true).
  { apply mem_In. rewrite I, map_app, in_app_iff. right. exact H. }
  unfold scope_issue in M. unfold AdaptiveSimpleSwapTester.final_analysis.
  cbn [AdaptiveSimpleSwapTester.key_insights AdaptiveSimpleSwapTester.recommendations].
  rewrite M. split; left; reflexivity.
Qed.

(** The first context of the only strategy shows the script error: it is
    retried once, and the analysis recommends the fix. *)
Lemma retries_reach_the_recommendations_witness :
  0 < sleeps RetryWait
        (skipn (length (events (tester_with ["basic"])))
               (events (snd (AdaptiveSimpleSwapTester.run_adaptive_tests
                               AdaptiveScenario.flaky (tester_with ["basic"]))))) /\
  In "JavaScript variable scoping needs fixing"
     (AdaptiveSimpleSwapTester.key_insights
        (AdaptiveSimpleSwapTester.final_analysis
           (snd (AdaptiveSimpleSwapTester.run_adaptive_tests
                   AdaptiveScenario.flaky (tester_with ["basic"]))))) /\
  In "Fix workingUrl variable initialization"
     (AdaptiveSimpleSwapTester.recommendations
        (AdaptiveSimpleSwapTester.final_analysis
           (snd (AdaptiveSimpleSwapTester.run_adaptive_tests
                   AdaptiveScenario.flaky (tester_with ["basic"]))))).
Proof.
  assert (H : 0 < sleeps RetryWait
        (skipn (length (events (tester_with ["basic"])))
               (events (snd (AdaptiveSimpleSwapTester.run_adaptive_tests
                               AdaptiveScenario.flaky (tester_with ["basic"]))))))
    by (vm_compute; lia).
  split; [exact H | ].
  exact (retries_reach_the_recommendations AdaptiveScenario.flaky (tester_with ["basic"]) H).
Defined.

(** *** The monitoring behind a successful entry of the basic variant *)

Section BasicMonitored.
Variable w : World SimpleSwapTester.Page.

Lemma basic_monitoring_events c s st st' :
  SimpleSwapTester.monitor_simpleswap_page w c s st = (Ok tt, st') ->
  exists t,
    events st' = events st ++ repeat poll_sleep 10 ++ [EvScreenshot c (screenshot_path s t) false].
Proof.
  intros H.
  destruct (basic_monitor_polls w c st) as (k & V & _ & O & _).
  pose proof (proj2 (monitor_loop_preserves w c st)) as NR.
  unfold SimpleSwapTester.monitor_simpleswap_page, def_, bind in H.
  destruct (SimpleSwapTester.monitor_loop w c st) as [[[] | e |] st1];
    simpl in V, O, NR; [ | discriminate H | now contradiction NR].
  rewrite (O eq_refl) in V.
  exists (clock w (clock_reads st1)).
  unfold now, emit, modify, await_ in H.
  destruct (aw_answer (SimpleSwapTester.on_screenshot (page w c))); simpl in H;
    [ | discriminate H].
  injection H as _ <-. simpl. rewrite V, <- app_assoc. reflexivity.
Qed.

Lemma watch_redirect_monitored c s st st' :
  SimpleSwapTester.watch_redirect w c s st = (Ok tt, st') -> monitored_tail c s st st'.
Proof.
  unfold SimpleSwapTester.watch_redirect.
  set (st1 := snd (sleep_on c RedirectWait 2 (SimpleSwapTester.on_redirect_wait (page w c)) st)).
  assert (E1 : sleep_on c RedirectWait 2 (SimpleSwapTester.on_redirect_wait (page w c)) st
               = (Ok tt, st1)) by reflexivity.
  assert (V1 : events st1 = events st ++ [EvSleep RedirectWait 2]) by reflexivity.
  unfold bind at 1. rewrite E1. unfold bind at 1, page_url, gets.
  destruct (contains "simpleswap.io" (url (live st1 c))) eqn:C.
  - unfold bind, await_.
    destruct (aw_answer (SimpleSwapTester.on_load_state (page w c))); [ | discriminate].
    intros H _. apply basic_monitoring_events in H as (t & V).
    exists [EvSleep RedirectWait 2], t. rewrite V.
    change (events (set_live c (deliver (SimpleSwapTester.on_load_state (page w c))) st1))
      with (events st1).
    rewrite V1, <- app_assoc. reflexivity.
  - intros H. injection H as <-. intros C'. rewrite C in C'. discriminate C'.
Qed.

Lemma monitored_tail_bind {A} c s (m : M A) (k : A -> M unit) :
  stable (extends events) m ->
  (forall a st st', k a st = (Ok tt, st') -> monitored_tail c s st st') ->
  forall st st', bind m k st = (Ok tt, st') -> monitored_tail c s st st'.
Proof.
  intros Hm Hk st st' H. unfold bind in H.
  destruct (Hm st) as (q & Eq).
  destruct (m st) as [[a | e |] st1]; try discriminate H. simpl in Eq.
  intros C. destruct (Hk a st1 st' H C) as (pre & t & V).
  exists (q ++ pre), t. rewrite V, Eq, <- !app_assoc. reflexivity.
Qed.

Lemma probe_monitored c s st st' :
  s <> "iframe" ->
  SimpleSwapTester.probe w c s st = (Ok tt, st') -> monitored_tail c s st st'.
Proof.
  intros NI. apply String.eqb_neq in NI.
  unfold SimpleSwapTester.probe. cbv zeta. rewrite NI. revert st st'.
  do 8 (apply monitored_tail_bind; [growth_tac | intros ?]).
  apply watch_redirect_monitored.
Qed.

(** The [try] block of an attempt for a strategy other than iframe. *)
Lemma basic_try_block_monitored c s st st' :
  s <> "iframe" ->
  SimpleSwapTester.try_block w c s st = (Ok tt, st') ->
  exists r,
    results st' = results st ++ [r] /\
    (success_of r = true ->
     exists pre t,
       events st' = events st ++ pre ++ repeat poll_sleep 10 ++
                    [EvScreenshot c (screenshot_path s t) false]).
Proof.
  intros NI. unfold SimpleSwapTester.try_block. unfold bind at 1.
  destruct (probe_Navigated w c s st) as [(_ & R1 & _) _].
  pose proof (probe_monitored c s st) as PM.
  destruct (SimpleSwapTester.probe w c s st) as [[[] | e |] st1]; try discriminate.
  specialize (PM st1 NI eq_refl). simpl in R1.
  intros H. unfold SimpleSwapTester.collect, bind, now, page_url, get_console, gets,
              append_result, modify in H.
  injection H as <-. eexists. split; [simpl; rewrite R1; reflexivity | ].
  apply String.eqb_neq in NI. unfold success_of. simpl. rewrite NI, orb_false_r.
  exact PM.
Qed.

End BasicMonitored.

(** An entry of the basic variant for a strategy other than iframe is
    recorded as successful only after the monitoring ran to its end: the
    events of the call end with the ten polling sleeps, the screenshot
    named after the strategy, and the closing of the context. *)
Theorem basic_success_was_monitored
        (w : World SimpleSwapTester.Page) (s : string) (st : State) (r : Dict) :
  s <> "iframe" ->
  last_item (results (snd (SimpleSwapTester.test_strategy w s st))) = Some r ->
  success_of r = true ->
  exists pre t,
    skipn (length (events st)) (events (snd (SimpleSwapTester.test_strategy w s st))) =
    pre ++ repeat poll_sleep 10 ++
    [EvScreenshot (next_ctx st) (screenshot_path s t) false; EvClose (next_ctx st)].
Proof.
  intros NI. rewrite test_strategy_unfold.
  destruct (basic_entry_fields s st) as (_ & R0 & _ & E0).
  destruct (try_block_cases w (next_ctx st) s (basic_entry s st)) as
    [(t & u & logs & st2 & _ & ET) | (e & st2 & (_ & R2 & _) & ET)].
  - destruct (basic_try_block_monitored w _ _ _ _ NI ET) as (r' & R & Su).
    rewrite ET. cbn [snd].
    change (results (set_events ?f ?x)) with (results x).
    rewrite R, last_item_snoc. intros L T. injection L as <-.
    destruct (Su T) as (pre & t' & V).
    exists ([EvTesting s None; EvOpen (next_ctx st)] ++ pre), t'.
    change (events (set_events (fun evs => evs ++ [EvClose (next_ctx st)]) ?x))
      with (events x ++ [EvClose (next_ctx st)]).
    rewrite V, E0, <- !app_assoc, skipn_length_app. cbn [app]. rewrite <- ?app_assoc.
    reflexivity.
  - rewrite ET. destruct (on_exception_appends w s e st2) as (t & ->). cbn [snd].
    change (results (set_events ?f ?x)) with (results x).
    change (results (set_results ?f ?x)) with (f (results x)).
    cbv beta. change (results (snd (now w st2))) with (results st2).
    rewrite last_item_snoc. intros L T. injection L as <-. discriminate T.
Qed.

(** The page is sent to the exchange: the entry is successful and the
    call ends with the monitoring, the screenshot and the closing. *)
Lemma basic_success_was_monitored_witness :
  "basic" <> "iframe" /\
  exists r,
    last_item (results (snd (SimpleSwapTester.test_strategy
                               (BasicScenario.world_of BasicScenario.redirecting)
                               "basic" new_tester))) = Some r /\
    success_of r = true /\
    exists pre t,
      skipn (length (events new_tester))
            (events (snd (SimpleSwapTester.test_strategy
                            (BasicScenario.world_of BasicScenario.redirecting)
                            "basic" new_tester))) =
      pre ++ repeat poll_sleep 10 ++
      [EvScreenshot (next_ctx new_tester) (screenshot_path "basic" t) false;
       EvClose (next_ctx new_tester)].
Proof.
  assert (NI : "basic" <> "iframe") by discriminate.
  split; [exact NI | ].
  eexists.
  split; [vm_compute; reflexivity | ].
  split; [vm_compute; reflexivity | ].
  eapply (basic_success_was_monitored (BasicScenario.world_of BasicScenario.redirecting)
            "basic" new_tester _ NI);
    vm_compute; reflexivity.
Defined.

(** *** Which exceptions the basic monitoring lets through *)

Lemma for_each_outcome {A} (p : A -> bool) (body : A -> M unit) :
  (forall x st, fst (body x st) <> Returned) ->
  (forall x st, fst (body x st) = Ok tt <-> p x = true) ->
  forall l st,
    (fst (for_each l body st) = Ok tt <-> forallb p l = true) /\
    fst (for_each l body st) <> Returned.
Proof.
  intros NR Hp. induction l as [| x l IH]; intros st; cbn [for_each forallb].
  - split; [split; reflexivity | discriminate].
  - unfold bind. specialize (NR x st). specialize (Hp x st).
    destruct (body x st) as [[[] | e |] st1]; cbn [fst] in *.
    + rewrite (proj1 Hp eq_refl). apply IH.
    + split; [ | discriminate]. split; [discriminate | ].
      intros H. apply andb_prop in H as [H _]. apply Hp in H. discriminate H.
    + now contradiction NR.
Qed.

Lemma for_each_ok {A} (body : A -> M unit) :
  (forall x st, fst (body x st) = Ok tt) ->
  forall l st, fst (for_each l body st) = Ok tt.
Proof.
  intros Hb. induction l as [| x l IH]; intros st; cbn [for_each]; [reflexivity | ].
  unfold bind. specialize (Hb x st).
  destruct (body x st) as [[[] | e |] st1]; cbn [fst] in Hb; try discriminate Hb. apply IH.
Qed.

Lemma swallowed_ok (m : M unit) : preserves m -> forall st, fst (swallow m st) = Ok tt.
Proof.
  intros H st. destruct (swallow_returns m st (proj2 (H st))) as (st' & ->). reflexivity.
Qed.

Section BasicQueries.
Variable w : World SimpleSwapTester.Page.
Variable c : nat.

(** Lines 151-165: one selector of the amount checks. *)
Lemma selector_outcome (tick : SimpleSwapTester.Tick) (body : Elem -> M unit) selector st :
  (forall x st0, fst (body x st0) = Ok tt) ->
  (fst (bind (await_ c (SimpleSwapTester.tk_query tick selector))
             (fun elements => for_each elements body) st) = Ok tt <->
   answered (SimpleSwapTester.tk_query tick selector) = true) /\
  fst (bind (await_ c (SimpleSwapTester.tk_query tick selector))
            (fun elements => for_each elements body) st) <> Returned.
Proof.
  intros Hb. unfold bind, await_, answered.
  destruct (aw_answer (SimpleSwapTester.tk_query tick selector)) as [l | e]; cbn [fst].
  - rewrite (for_each_ok body Hb). split; [split; reflexivity | discriminate].
  - split; [split; discriminate | discriminate].
Qed.

Lemma provider_outcome (tick : SimpleSwapTester.Tick) (body : Elem -> M unit) st :
  (forall x st0, fst (body x st0) = Ok tt) ->
  (fst (bind (await_ c (SimpleSwapTester.tk_query tick "*"))
             (fun elements => for_each (firstn 100 elements) body) st) = Ok tt <->
   answered (SimpleSwapTester.tk_query tick "*") = true) /\
  fst (bind (await_ c (SimpleSwapTester.tk_query tick "*"))
            (fun elements => for_each (firstn 100 elements) body) st) <> Returned.
Proof.
  intros Hb. unfold bind, await_, answered.
  destruct (aw_answer (SimpleSwapTester.tk_query tick "*")) as [l | e]; cbn [fst].
  - rewrite (for_each_ok body Hb). split; [split; reflexivity | discriminate].
  - split; [split; discriminate | discriminate].
Qed.

End BasicQueries.

Lemma bind_outcome (m : M unit) (k : unit -> M unit) (p q : bool) :
  (forall st, (fst (m st) = Ok tt <-> p = true) /\ fst (m st) <> Returned) ->
  (forall x st, (fst (k x st) = Ok tt <-> q = true) /\ fst (k x st) <> Returned) ->
  forall st, (fst (bind m k st) = Ok tt <-> p && q = true) /\ fst (bind m k st) <> Returned.
Proof.
  intros Hm Hk st. unfold bind. specialize (Hm st).
  destruct (m st) as [[[] | e |] st1]; cbn [fst] in Hm |- *.
  - rewrite (proj1 (proj1 Hm) eq_refl), andb_true_l. apply Hk.
  - split; [ | discriminate]. split; [discriminate | ].
    intros H. apply andb_prop in H as [H _]. apply (proj1 Hm) in H. discriminate H.
  - now contradiction (proj2 Hm).
Qed.

Section BasicLoopOutcome.
Variable w : World SimpleSwapTester.Page.
Variable c : nat.

(** Lines 147-176: one polling iteration. *)
Lemma round_outcome (round : M unit) (tick : SimpleSwapTester.Tick)
      (amounts providers : Elem -> M unit) st :
  (forall x st0, fst (amounts x st0) = Ok tt) ->
  (forall x st0, fst (providers x st0) = Ok tt) ->
  round =
    bind (sleep_on c MonitorWait 1 (SimpleSwapTester.tk_wait tick))
      (fun _ =>
         bind (for_each SimpleSwapTester.amount_checks
                 (fun selector =>
                    bind (await_ c (SimpleSwapTester.tk_query tick selector))
                         (fun elements => for_each elements amounts)))
           (fun _ =>
              bind (await_ c (SimpleSwapTester.tk_query tick "*"))
                   (fun elements => for_each (firstn 100 elements) providers))) ->
  (fst (round st) = Ok tt <-> queries_answered tick = true) /\ fst (round st) <> Returned.
Proof.
  intros Ha Hp ->.
  unfold queries_answered. rewrite forallb_app. cbn [forallb]. rewrite andb_true_r.
  apply (bind_outcome
           (sleep_on c MonitorWait 1 (SimpleSwapTester.tk_wait tick)) _ true
           (forallb (fun selector => answered (SimpleSwapTester.tk_query tick selector))
                    SimpleSwapTester.amount_checks &&
            answered (SimpleSwapTester.tk_query tick "*"))).
  - intros st0. split; [split; reflexivity | discriminate].
  - intros _. apply bind_outcome.
    + apply for_each_outcome; intros x st0; apply selector_outcome, Ha.
    + intros _ st0. apply provider_outcome, Hp.
Qed.

Lemma monitor_loop_outcome st :
  (fst (SimpleSwapTester.monitor_loop w c st) = Ok tt <->
   forallb (fun i => queries_answered (SimpleSwapTester.on_monitor (page w c) i)) (seq 0 10)
   = true) /\
  fst (SimpleSwapTester.monitor_loop w c st) <> Returned.
Proof.
  unfold SimpleSwapTester.monitor_loop.
  apply (for_each_outcome
           (fun i => queries_answered (SimpleSwapTester.on_monitor (page w c) i))).
  - intros i st0. cbv zeta.
    eapply (round_outcome _ (SimpleSwapTester.on_monitor (page w c) i));
      [ | | reflexivity]; intros x st1; apply swallowed_ok; frame_tac.
  - intros i st0. cbv zeta.
    eapply (round_outcome _ (SimpleSwapTester.on_monitor (page w c) i));
      [ | | reflexivity]; intros x st1; apply swallowed_ok; frame_tac.
Qed.

End BasicLoopOutcome.

(** The polling loop of the basic monitoring ends normally exactly when
    every query_selector_all of its ten iterations answers: the five
    amount selectors and the catch-all selector of the providers.  What
    the elements found answer, or throw, plays no part; any other outcome
    is the exception of a query. *)
Theorem basic_monitoring_raises_on_queries_only :
  forall (w : World SimpleSwapTester.Page) c st,
    (fst (SimpleSwapTester.monitor_loop w c st) = Ok tt <->
     forallb (fun i => queries_answered (SimpleSwapTester.on_monitor (page w c) i)) (seq 0 10)
     = true) /\
    (fst (SimpleSwapTester.monitor_loop w c st) = Ok tt \/
     exists e, fst (SimpleSwapTester.monitor_loop w c st) = Raise e).
Proof.
  intros w c st. destruct (monitor_loop_outcome w c st) as [IFF NR].
  split; [exact IFF | ].
  destruct (fst (SimpleSwapTester.monitor_loop w c st)) as [[] | e |].
  - left; reflexivity.
  - right; exists e; reflexivity.
  - now contradiction NR.
Qed.

(** After the click of the iframe strategy, only the three queries made
    before the inner try can raise: the overlay, the iframe in it and its
    src.  Whatever content_frame(), the elements of the frame and their
    texts answer or throw, the statement ends normally. *)
Theorem iframe_content_errors_are_swallowed :
  forall (w : World SimpleSwapTester.Page) c st,
    fst (SimpleSwapTester.watch_iframe w c st) =
    match iframe_queries_error (page w c) with
    | Some e => Raise e
    | None => Ok tt
    end.
Proof.
  intros w c st. unfold SimpleSwapTester.watch_iframe, iframe_queries_error.
  set (st1 := snd (sleep_on c IframeWait 3 (SimpleSwapTester.on_iframe_wait (page w c)) st)).
  assert (E1 : sleep_on c IframeWait 3 (SimpleSwapTester.on_iframe_wait (page w c)) st
               = (Ok tt, st1)) by reflexivity.
  unfold bind at 1. rewrite E1. unfold bind at 1, await_ at 1.
  destruct (aw_answer (SimpleSwapTester.on_container (page w c))) as [[container | ] | e];
    [ | reflexivity | reflexivity].
  unfold bind at 1, await_ at 1.
  destruct (aw_answer (SimpleSwapTester.ct_iframe container)) as [[fr | ] | e];
    [ | reflexivity | reflexivity].
  unfold bind at 1, await_ at 1.
  destruct (aw_answer (SimpleSwapTester.if_src fr)) as [v | e]; [ | reflexivity].
  apply swallowed_ok. frame_tac.
Qed.

(** *** A debug output without text *)

(** When the page has a debug output whose text_content() is None, the
    slice of the text raises the TypeError inside the [try]: the attempt
    ends before the click, and its entry is the one of the exception.  In
    the adaptive variant the wait for the cache was taken before: five
    seconds when fewer than three results were recorded, else two. *)
Theorem debug_output_without_text :
  (forall (w : World SimpleSwapTester.Page) s st el,
     aw_answer (SimpleSwapTester.on_goto (page w (next_ctx st))) = Done tt ->
     aw_answer (SimpleSwapTester.on_wait_selector (page w (next_ctx st))) = Done tt ->
     aw_answer (SimpleSwapTester.on_debug (page w (next_ctx st))) = Done (Some el) ->
     aw_answer (el_text el) = Done None ->
     exists t,
       results (snd (SimpleSwapTester.test_strategy w s st)) =
       results st ++ [basic_error_result s t none_error] /\
       events (snd (SimpleSwapTester.test_strategy w s st)) =
       events st ++ [EvTesting s None; EvOpen (next_ctx st);
                     EvGoto (next_ctx st) (base_url +++ "?strategy=" +++ s);
                     EvSleep Settle 2; EvClose (next_ctx st)]) /\
  (forall (w : World AdaptiveSimpleSwapTester.Page) s a st el,
     aw_answer (AdaptiveSimpleSwapTester.on_goto (page w (next_ctx st))) = Done tt ->
     aw_answer (AdaptiveSimpleSwapTester.on_wait_selector (page w (next_ctx st))) = Done tt ->
     aw_answer (AdaptiveSimpleSwapTester.on_debug (page w (next_ctx st))) = Done (Some el) ->
     aw_answer (el_text el) = Done None ->
     exists t logs u,
       results (snd (AdaptiveSimpleSwapTester.test_strategy_with_learning w s a st)) =
       results st ++ [adaptive_error_result s a t none_error logs] /\
       events (snd (AdaptiveSimpleSwapTester.test_strategy_with_learning w s a st)) =
       events st ++ [EvTesting s (Some a); EvOpen (next_ctx st); EvGoto (next_ctx st) u;
                     EvSleep CacheWait (if length (results st) <? 3 then 5 else 2);
                     EvClose (next_ctx st)]).
Proof.
  split.
  - intros w s st el H1 H2 H3 H4.
    rewrite test_strategy_unfold.
    unfold SimpleSwapTester.try_block, SimpleSwapTester.probe. cbv zeta.
    unfold bind, goto, await_, sleep_on, emit, modify, basic_entry. simpl.
    rewrite H1, H2, H3, H4. simpl.
    eexists. split; [reflexivity | ]. rewrite <- !app_assoc. reflexivity.
  - intros w s a st el H1 H2 H3 H4.
    rewrite test_strategy_with_learning_unfold, body_unfold.
    unfold AdaptiveSimpleSwapTester.try_block, AdaptiveSimpleSwapTester.approach. cbv zeta.
    unfold AdaptiveSimpleSwapTester.wait_for_cache_update.
    unfold bind, goto, await_, sleep_on, emit, modify, now, gets, adaptive_entry. simpl.
    rewrite H1, H2, H3, H4. simpl.
    do 3 eexists. split; [reflexivity | ]. rewrite <- !app_assoc. reflexivity.
Qed.

(** Both scripts on a page whose debug output has no text. *)
Lemma debug_output_without_text_witness :
  (exists t,
     results (snd (SimpleSwapTester.test_strategy
                     (BasicScenario.world_of basic_textless_debug) "basic" new_tester)) =
     results new_tester ++ [basic_error_result "basic" t none_error] /\
     events (snd (SimpleSwapTester.test_strategy
                    (BasicScenario.world_of basic_textless_debug) "basic" new_tester)) =
     events new_tester ++ [EvTesting "basic" None; EvOpen (next_ctx new_tester);
                           EvGoto (next_ctx new_tester) (base_url +++ "?strategy=" +++ "basic");
                           EvSleep Settle 2; EvClose (next_ctx new_tester)]) /\
  (exists t logs u,
     results (snd (AdaptiveSimpleSwapTester.test_strategy_with_learning
                     (AdaptiveScenario.world_of adaptive_textless_debug) "basic" 1 new_tester)) =
     results new_tester ++ [adaptive_error_result "basic" 1 t none_error logs] /\
     events (snd (AdaptiveSimpleSwapTester.test_strategy_with_learning
                    (AdaptiveScenario.world_of adaptive_textless_debug) "basic" 1 new_tester)) =
     events new_tester ++ [EvTesting "basic" (Some 1); EvOpen (next_ctx new_tester);
                           EvGoto (next_ctx new_tester) u;
                           EvSleep CacheWait (if length (results new_tester) <? 3 then 5 else 2);
                           EvClose (next_ctx new_tester)]).
Proof.
  split.
  - exact (proj1 debug_output_without_text
             (BasicScenario.world_of basic_textless_debug) "basic" new_tester textless
             eq_refl eq_refl eq_refl eq_refl).
  - exact (proj2 debug_output_without_text
             (AdaptiveScenario.world_of adaptive_textless_debug) "basic" 1 new_tester textless
             eq_refl eq_refl eq_refl eq_refl).
Defined.

(** ** The scripts with their browser *)

Section Lifting.
Import Browsers.

Lemma same'_refl {A} (m : Script A) : same' m m.
Proof. intros st; reflexivity. Qed.

Lemma same'_sym {A} (m1 m2 : Script A) : same' m1 m2 -> same' m2 m1.
Proof. intros H st; symmetry; apply H. Qed.

Lemma same'_trans {A} (m1 m2 m3 : Script A) : same' m1 m2 -> same' m2 m3 -> same' m1 m3.
Proof. intros H1 H2 st; rewrite H1; apply H2. Qed.

Lemma same'_bind {A B} (m1 m2 : Script A) (k1 k2 : A -> Script B) :
  same' m1 m2 -> (forall a, same' (k1 a) (k2 a)) -> same' (bind' m1 k1) (bind' m2 k2).
Proof.
  intros Hm Hk st. unfold bind'. rewrite Hm.
  destruct (m2 st) as [[a | x |] st1]; auto. apply Hk.
Qed.

Lemma same'_def (m1 m2 : Script unit) : same' m1 m2 -> same' (def' m1) (def' m2).
Proof. intros H st. unfold def'. now rewrite H. Qed.

Lemma same'_try_except {A} (m1 m2 : Script A) (h1 h2 : string -> Script A) :
  same' m1 m2 -> (forall e, same' (h1 e) (h2 e)) ->
  same' (try_except' m1 h1) (try_except' m2 h2).
Proof.
  intros Hm Hh st. unfold try_except'. rewrite Hm.
  destruct (m2 st) as [[a | [e | e] |] st1]; auto. apply Hh.
Qed.

Lemma same'_try_finally {A} (m1 m2 : Script A) (f1 f2 : Script unit) :
  same' m1 m2 -> same' f1 f2 -> same' (try_finally' m1 f1) (try_finally' m2 f2).
Proof.
  intros Hm Hf st. unfold try_finally'. rewrite Hm.
  destruct (m2 st) as [r st1]. now rewrite Hf.
Qed.

Lemma same'_when b (m1 m2 : Script unit) :
  (b = true -> same' m1 m2) -> same' (when' b m1) (when' b m2).
Proof. intros H. destruct b; simpl; [now apply H | apply same'_refl]. Qed.

Lemma same'_for_each {A} (l : list A) (f1 f2 : A -> Script unit) :
  (forall x, same' (f1 x) (f2 x)) -> same' (for_each' l f1) (for_each' l f2).
Proof.
  intros H. induction l as [| x l IH]; simpl; [apply same'_refl | ].
  apply same'_bind; [apply H | intros _; exact IH].
Qed.

Lemma lift_ret {A} (a : A) : same' (lift (ret a)) (ret' a).
Proof. intros st; reflexivity. Qed.

Lemma lift_return {A} : same' (lift (@return_ A)) return'.
Proof. intros st; reflexivity. Qed.

Lemma lift_bind {A B} (m : M A) (k : A -> M B) :
  same' (lift (bind m k)) (bind' (lift m) (fun a => lift (k a))).
Proof.
  intros st. unfold lift, bind, bind'. destruct (m st) as [[a | e |] st1]; reflexivity.
Qed.

Lemma lift_def (m : M unit) : same' (lift (def_ m)) (def' (lift m)).
Proof.
  intros st. unfold lift, def_, def'. destruct (m st) as [[[] | e |] st1]; reflexivity.
Qed.

Lemma lift_try_except {A} (m : M A) (h : string -> M A) :
  same' (lift (try_except m h)) (try_except' (lift m) (fun e => lift (h e))).
Proof.
  intros st. unfold lift, try_except, try_except'.
  destruct (m st) as [[a | e |] st1]; reflexivity.
Qed.

Lemma lift_try_finally {A} (m : M A) (f : M unit) :
  same' (lift (try_finally m f)) (try_finally' (lift m) (lift f)).
Proof.
  intros st. unfold lift, try_finally, try_finally'.
  destruct (m st) as [[a | e |] st1]; destruct (f st1) as [[[] | e' |] st2]; reflexivity.
Qed.

Lemma lift_when b (m : M unit) : same' (lift (when b m)) (when' b (lift m)).
Proof. destruct b; intros st; reflexivity. Qed.

Lemma lift_for_each {A} (l : list A) (f : A -> M unit) :
  same' (lift (for_each l f)) (for_each' l (fun x => lift (f x))).
Proof.
  induction l as [| x l IH]; simpl; [apply lift_ret | ].
  eapply same'_trans; [apply lift_bind | ].
  apply same'_bind; [apply same'_refl | intros _; exact IH].
Qed.

Lemma lift_Ok {A} (m : M A) st a st' : m st = (Ok a, st') -> lift m st = (Fine a, st').
Proof. intros E. unfold lift. now rewrite E. Qed.

Lemma lift_Raise {A} (m : M A) st e st' :
  m st = (Raise e, st') -> lift m st = (Throw (AnException e), st').
Proof. intros E. unfold lift. now rewrite E. Qed.

Lemma snd_lift {A} (m : M A) st : snd (lift m st) = snd (m st).
Proof. unfold lift. now destruct (m st) as [[a | e |] st1]. Qed.

(** An operation that answers leaves no mark. *)
Lemma ask_Replies {A} r (k : unit -> Script A) :
  r = Replies -> same' (bind' (ask r) k) (k tt).
Proof. intros -> st. reflexivity. Qed.

End Lifting.

(** *** One call of the basic [test_strategy] *)

Ltac script_unfold :=
  cbv beta iota zeta delta
    [Browsers.test_strategy Browsers.def' Browsers.bind' Browsers.lift Browsers.new_context
     Browsers.new_page Browsers.close Browsers.ask Browsers.try_finally' Browsers.try_except'
     Browsers.cancelled_goto Browsers.raise' Browsers.ret'
     close emit modify gets new_context basic_entry bind].

Section BasicCallCases.
Import Browsers.
Variable b : Browser.
Variable w : World SimpleSwapTester.Page.

(** The browser does not create the context: the exception leaves the
    function before anything else happened. *)
Lemma basic_call_refused s st x :
  br_new_context b (next_ctx st) = Fails x ->
  Browsers.test_strategy b w s st =
  (Throw x, set_events (fun evs => evs ++ [EvTesting s None]) st).
Proof.
  intros H. script_unfold. cbn [next_ctx set_events]. rewrite H. reflexivity.
Qed.

(** The context is created and its page is not: the exception leaves the
    function with the context open. *)
Lemma basic_call_pageless s st x :
  br_new_context b (next_ctx st) = Replies ->
  br_new_page b (next_ctx st) = Fails x ->
  Browsers.test_strategy b w s st = (Throw x, basic_entry s st).
Proof.
  intros H1 H2. script_unfold. cbn [next_ctx set_events fst snd]. rewrite H1, H2. reflexivity.
Qed.

(** Context and page are created: the attempt goes as in the definitions
    above, and the call ends as the closing of the context ends. *)
Lemma basic_call_entered s st :
  br_new_context b (next_ctx st) = Replies ->
  br_new_page b (next_ctx st) = Replies ->
  br_cancelled b (next_ctx st) = false ->
  Browsers.test_strategy b w s st =
  (exit_of (br_close b (next_ctx st)), snd (SimpleSwapTester.test_strategy w s st)).
Proof.
  intros H1 H2 H3. rewrite test_strategy_unfold.
  script_unfold. cbn [next_ctx set_events fst snd]. rewrite H1, H2, H3.
  match goal with
  | |- context [SimpleSwapTester.try_block w ?c s ?x] =>
      destruct (SimpleSwapTester.try_block w c s x) as [[[] | e |] st2]
  end.
  - destruct (br_close b (next_ctx st)); reflexivity.
  - destruct (on_exception_appends w s e st2) as (t & ->).
    destruct (br_close b (next_ctx st)); reflexivity.
  - destruct (br_close b (next_ctx st)); reflexivity.
Qed.

(** The task is cancelled during the navigation: no handler matches, the
    [finally] clause closes the context, and the exception goes on. *)
Lemma basic_call_cancelled s st :
  br_new_context b (next_ctx st) = Replies ->
  br_new_page b (next_ctx st) = Replies ->
  br_cancelled b (next_ctx st) = true ->
  Browsers.test_strategy b w s st =
  (match br_close b (next_ctx st) with
   | Replies => Throw cancelled_error
   | Fails x => Throw x
   end, cancelled_entry s st).
Proof.
  intros H1 H2 H3.
  script_unfold. cbn [next_ctx set_events fst snd]. rewrite H1, H2, H3.
  destruct (br_close b (next_ctx st)); reflexivity.
Qed.

End BasicCallCases.

(** *** The basic run *)

Section BasicRunCases.
Import Browsers.
Variable w : World SimpleSwapTester.Page.

Lemma basic_call_transfer b s :
  reliable b -> same' (Browsers.test_strategy b w s) (lift (SimpleSwapTester.test_strategy w s)).
Proof.
  intros (_ & _ & Hc & Hp & Hcl & _ & _ & _ & Hca) st.
  rewrite (basic_call_entered b w s st (Hc _) (Hp _) (Hca _)), Hcl.
  destruct (test_strategy_call w s st) as (st' & r & E & _).
  rewrite (lift_Ok _ _ _ _ E), E. reflexivity.
Qed.

Lemma basic_loop_transfer b l :
  reliable b ->
  same' (for_each' l (fun strategy =>
           bind' (Browsers.test_strategy b w strategy)
                 (fun _ => lift (sleep BetweenStrategies 2))))
        (lift (for_each l (fun strategy =>
           bind (SimpleSwapTester.test_strategy w strategy)
                (fun _ => sleep BetweenStrategies 2)))).
Proof.
  intros HR. eapply same'_trans; [ | apply same'_sym, lift_for_each].
  apply same'_for_each. intros s.
  eapply same'_trans; [ | apply same'_sym, lift_bind].
  apply same'_bind; [now apply basic_call_transfer | intros _; apply same'_refl].
Qed.

(** On a browser all of whose operations answer, the run is the one of
    the definitions above. *)
Lemma basic_run_transfer b :
  reliable b -> same' (Browsers.run_all_tests b w) (lift (SimpleSwapTester.run_all_tests w)).
Proof.
  intros HR st. pose proof (basic_loop_transfer b (strategies st) HR st) as HL.
  destruct HR as (Hs & Hl & _ & _ & _ & Hq & Hst & Hw & _).
  unfold Browsers.run_all_tests, SimpleSwapTester.run_all_tests.
  rewrite Hs, Hl, Hq, Hst, Hw.
  cbv beta iota zeta delta [def' bind' ask try_finally' def_ bind gets] in *.
  unfold lift at 1. cbv beta iota. rewrite HL.
  unfold lift at 1 5.
  match goal with
  | |- context [for_each ?l ?f st] => destruct (for_each l f st) as [[[] | e |] st1]
  end; try reflexivity.
  unfold lift, now, emit, modify. cbv beta iota.
  match goal with
  | |- context [SimpleSwapTester.print_summary ?x] =>
      destruct (SimpleSwapTester.print_summary x) as [[[] | e |] st2]
  end; reflexivity.
Qed.

End BasicRunCases.

(** *** A basic run whose browser refuses a context *)

Section BasicRunAborts.
Import Browsers.
Variable w : World SimpleSwapTester.Page.
Variable k : nat.
Variable x : Thrown.

Lemma basic_loop_aborts : forall l st,
  next_ctx st <= k ->
  k - next_ctx st < length l ->
  exists st' rs,
    for_each' l (fun strategy =>
      bind' (Browsers.test_strategy (BrowserScenario.no_context_at k x) w strategy)
            (fun _ => lift (sleep BetweenStrategies 2))) st = (Throw x, st') /\
    results st' = results st ++ rs /\
    Forall2 BasicEntry (firstn (k - next_ctx st) l) rs.
Proof.
  induction l as [| s l IH]; intros st Hle Hlt; cbn [length] in Hlt; [lia | ].
  cbn [for_each']. unfold bind' at 1 2.
  destruct (Nat.eq_dec (next_ctx st) k) as [E | NE].
  - rewrite (basic_call_refused _ w s st x).
    + eexists; exists []. split; [reflexivity | ].
      rewrite E, Nat.sub_diag, app_nil_r. split; [reflexivity | constructor].
    + cbn [BrowserScenario.no_context_at br_new_context]. now rewrite E, Nat.eqb_refl.
  - assert (NB : (next_ctx st =? k) = false) by now apply Nat.eqb_neq.
    rewrite (basic_call_entered _ w s st).
    2: { cbn [BrowserScenario.no_context_at br_new_context]. now rewrite NB. }
    2: reflexivity.
    2: reflexivity.
    destruct (test_strategy_call w s st) as (st1 & r & E1 & _ & R1 & N1 & _ & HE).
    rewrite E1. cbn [BrowserScenario.no_context_at br_close exit_of snd].
    set (st2 := set_events (fun evs => evs ++ [EvSleep BetweenStrategies 2]) st1).
    assert (E2 : lift (sleep BetweenStrategies 2) st1 = (Fine tt, st2)) by reflexivity.
    rewrite E2.
    destruct (IH st2) as (st' & rs & EL & RL & FL).
    { cbn [st2 set_events next_ctx]. lia. }
    { cbn [st2 set_events next_ctx]. lia. }
    exists st', (r :: rs). split; [exact EL | ].
    split.
    + rewrite RL. cbn [st2 set_events results]. rewrite R1, <- app_assoc. reflexivity.
    + replace (k - next_ctx st) with (S (k - next_ctx st2))
        by (cbn [st2 set_events next_ctx]; lia).
      cbn [firstn]. constructor; [exact HE | exact FL].
Qed.

(** The browser cannot create its context number [k]: the run records
    the strategies before that one and ends with the browser's exception. *)
Lemma basic_run_aborts strats :
  k < length strats ->
  exists st',
    Browsers.run_all_tests (BrowserScenario.no_context_at k x) w (tester_with strats)
    = (Throw x, st') /\
    Forall2 BasicEntry (firstn k strats) (results st').
Proof.
  intros Hk.
  destruct (basic_loop_aborts strats (tester_with strats)) as (st' & rs & EL & RL & FL).
  { cbn [tester_with next_ctx]. lia. }
  { cbn [tester_with next_ctx]. lia. }
  exists st'. split.
  - unfold Browsers.run_all_tests.
    set (body := fun strategy : string =>
                   bind' (Browsers.test_strategy (BrowserScenario.no_context_at k x) w strategy)
                         (fun _ => lift (sleep BetweenStrategies 2))) in *.
    cbv beta iota zeta delta [def' bind' ask try_finally' lift gets BrowserScenario.no_context_at
                              br_start br_launch br_stop br_quit].
    change (strategies (tester_with strats)) with strats.
    rewrite EL. reflexivity.
  - cbn [tester_with next_ctx results] in RL, FL. rewrite Nat.sub_0_r in FL.
    rewrite RL. exact FL.
Qed.

End BasicRunAborts.

(** *** The adaptive script on a browser that answers *)

Lemma close_transfer b c :
  Browsers.reliable b -> same' (Browsers.close b c) (Browsers.lift (close c)).
Proof.
  intros (_ & _ & _ & _ & Hcl & _) st.
  unfold Browsers.close, Browsers.bind', Browsers.lift, Browsers.ask, close, emit, modify.
  now rewrite Hcl.
Qed.

Lemma new_context_transfer b :
  Browsers.reliable b -> same' (Browsers.new_context b) (Browsers.lift new_context).
Proof.
  intros (_ & _ & Hc & _) st.
  unfold Browsers.new_context, Browsers.bind', Browsers.lift, Browsers.ask, gets.
  now rewrite Hc.
Qed.

(** Walks through two blocks that go statement by statement together. *)
Ltac transfer_step :=
  match goal with
  | |- same' (Browsers.bind' _ _) (Browsers.lift (bind _ _)) =>
      eapply same'_trans; [ | apply same'_sym, lift_bind]; apply same'_bind; [ | intros ? ]
  | |- same' (Browsers.when' ?c _) (Browsers.lift (when ?c _)) =>
      eapply same'_trans; [ | apply same'_sym, lift_when]; apply same'_when; intros ?
  | |- same' (Browsers.def' _) (Browsers.lift (def_ _)) =>
      eapply same'_trans; [ | apply same'_sym, lift_def]; apply same'_def
  | |- same' (Browsers.try_finally' _ _) (Browsers.lift (try_finally _ _)) =>
      eapply same'_trans; [ | apply same'_sym, lift_try_finally]; apply same'_try_finally
  | |- same' (Browsers.try_except' _ _) (Browsers.lift (try_except _ _)) =>
      eapply same'_trans; [ | apply same'_sym, lift_try_except];
      apply same'_try_except; [ | intros ? ]
  | |- same' (Browsers.ret' _) (Browsers.lift (ret _)) => apply same'_sym, lift_ret
  | |- same' Browsers.return' (Browsers.lift return_) => apply same'_sym, lift_return
  | |- same' (Browsers.lift ?m) (Browsers.lift ?m) => apply same'_refl
  | |- same' (Browsers.close _ _) (Browsers.lift (close _)) => apply close_transfer; assumption
  | |- same' (Browsers.new_context _) (Browsers.lift new_context) =>
      apply new_context_transfer; assumption
  | |- same' (match ?x with _ => _ end) (Browsers.lift (match ?x with _ => _ end)) => destruct x
  | H : forall a, same' (?f a) _ |- same' (?f _) _ => apply H
  end.

Ltac transfer_tac := cbv zeta; repeat (transfer_step; cbv zeta).

Section AdaptiveTransfer.
Variable b : Browsers.Browser.
Variable w : World AdaptiveSimpleSwapTester.Page.
Hypothesis b_reliable : Browsers.reliable b.
Variable self' : nat -> Browsers.Script unit.
Variable self_call : nat -> M unit.
Hypothesis self_transfer : forall a, same' (self' a) (Browsers.lift (self_call a)).

Lemma no_redirect_transfer c s a :
  same' (Browsers.no_redirect b w self' c s a)
        (Browsers.lift (AdaptiveSimpleSwapTester.no_redirect w self_call c s a)).
Proof.
  unfold Browsers.no_redirect, AdaptiveSimpleSwapTester.no_redirect. transfer_tac.
Qed.

Lemma classify_transfer c s a u cur :
  same' (Browsers.classify b w self' c s a u cur)
        (Browsers.lift (AdaptiveSimpleSwapTester.classify w self_call c s a u cur)).
Proof.
  unfold Browsers.classify, AdaptiveSimpleSwapTester.classify.
  destruct (String.eqb cur u); [apply no_redirect_transfer | ].
  destruct (contains "simpleswap.io" cur); transfer_tac.
Qed.

Lemma try_block_transfer c s a :
  same' (Browsers.try_block b w self' c s a)
        (Browsers.lift (AdaptiveSimpleSwapTester.try_block w self_call c s a)).
Proof.
  unfold Browsers.try_block, AdaptiveSimpleSwapTester.try_block.
  rewrite (proj2 (proj2 (proj2 (proj2 (proj2 (proj2 (proj2 (proj2 b_reliable))))))) c).
  transfer_tac. apply classify_transfer.
Qed.

Lemma body_transfer s a :
  same' (Browsers.test_strategy_with_learning_body b w self' s a)
        (Browsers.lift (AdaptiveSimpleSwapTester.test_strategy_with_learning_body w self_call s a)).
Proof.
  unfold Browsers.test_strategy_with_learning_body,
    AdaptiveSimpleSwapTester.test_strategy_with_learning_body.
  transfer_step. transfer_step; [transfer_step | ].
  transfer_step; [transfer_step | ].
  eapply same'_trans.
  { unfold Browsers.new_page. apply ask_Replies. apply b_reliable. }
  transfer_tac. apply try_block_transfer.
Qed.

End AdaptiveTransfer.

Section AdaptiveRunTransfer.
Variable b : Browsers.Browser.
Variable w : World AdaptiveSimpleSwapTester.Page.
Hypothesis b_reliable : Browsers.reliable b.

Lemma unroll_transfer depth s a :
  same' (Browsers.unroll b w depth s a)
        (Browsers.lift (AdaptiveSimpleSwapTester.unroll w depth s a)).
Proof.
  revert a. induction depth as [ | depth IH]; intros a; simpl;
    apply body_transfer; trivial; intros a' st; reflexivity.
Qed.

Lemma adaptive_call_transfer s a :
  same' (Browsers.test_strategy_with_learning b w s a)
        (Browsers.lift (AdaptiveSimpleSwapTester.test_strategy_with_learning w s a)).
Proof. apply unroll_transfer. Qed.

Lemma adaptive_loop_transfer (strats : list string) (l : list (nat * string)) :
  same' (Browsers.for_each' l (fun '(i, strategy) =>
           Browsers.bind' (Browsers.test_strategy_with_learning b w strategy 1) (fun _ =>
           Browsers.bind' (Browsers.lift (when (0 <? i) (AdaptiveSimpleSwapTester.analyze_patterns w)))
             (fun _ => Browsers.lift (when (i <? length strats - 1)
                                           (sleep BetweenStrategies 3))))))
        (Browsers.lift (for_each l (fun '(i, strategy) =>
           bind (AdaptiveSimpleSwapTester.test_strategy_with_learning w strategy 1) (fun _ =>
           bind (when (0 <? i) (AdaptiveSimpleSwapTester.analyze_patterns w))
             (fun _ => when (i <? length strats - 1) (sleep BetweenStrategies 3)))))).
Proof.
  eapply same'_trans; [ | apply same'_sym, lift_for_each].
  apply same'_for_each. intros [i s].
  eapply same'_trans; [ | apply same'_sym, lift_bind].
  apply same'_bind; [apply adaptive_call_transfer | intros _].
  eapply same'_trans; [ | apply same'_sym, lift_bind].
  apply same'_bind; [apply same'_refl | intros _; apply same'_refl].
Qed.

(** On a browser all of whose operations answer, the adaptive run is the
    one of the definitions above. *)
Lemma adaptive_run_transfer :
  same' (Browsers.run_adaptive_tests b w)
        (Browsers.lift (AdaptiveSimpleSwapTester.run_adaptive_tests w)).
Proof.
  intros st.
  pose proof (adaptive_loop_transfer (strategies st) (enumerate (strategies st)) st) as HL.
  destruct b_reliable as (Hs & Hl & _ & _ & _ & Hq & Hst & Hw & _).
  unfold Browsers.run_adaptive_tests, AdaptiveSimpleSwapTester.run_adaptive_tests.
  rewrite Hs, Hl, Hq, Hst, Hw.
  cbv beta iota zeta delta [Browsers.def' Browsers.bind' Browsers.ask Browsers.try_finally'
                            def_ bind gets] in *.
  unfold Browsers.lift at 1. cbv beta iota. rewrite HL.
  unfold Browsers.lift at 1 6.
  match goal with
  | |- context [for_each ?l ?f st] => destruct (for_each l f st) as [[[] | e |] st1]
  end; try reflexivity.
  unfold Browsers.lift, now, emit, modify. cbv beta iota.
  match goal with
  | |- context [AdaptiveSimpleSwapTester.print_adaptive_summary ?x] =>
      destruct (AdaptiveSimpleSwapTester.print_adaptive_summary x) as [[[] | e |] st2]
  end; reflexivity.
Qed.

End AdaptiveRunTransfer.

(** *** The trace only grows *)

Section Grows.












End Grows.



Section AdaptiveTrace.
Variable b : Browsers.Browser.
Variable w : World AdaptiveSimpleSwapTester.Page.




End AdaptiveTrace.

(** *** One call of [test_strategy_with_learning] on any browser *)

Ltac adaptive_script_unfold :=
  cbv beta iota zeta delta
    [Browsers.test_strategy_with_learning_body Browsers.def' Browsers.bind' Browsers.lift
     Browsers.new_context Browsers.new_page Browsers.ask emit modify gets new_context
     pageless_entry bind].

Section AdaptiveCallCases.
Variable b : Browsers.Browser.
Variable w : World AdaptiveSimpleSwapTester.Page.
Variable self' : nat -> Browsers.Script unit.

(** The context is refused: the exception leaves the call, which has
    printed its first line and done nothing else. *)
Lemma adaptive_body_refused s a st x :
  Browsers.br_new_context b (next_ctx st) = Browsers.Fails x ->
  Browsers.test_strategy_with_learning_body b w self' s a st
  = (Browsers.Throw x, set_events (fun evs => evs ++ [EvTesting s (Some a)]) st).
Proof.
  intros H. adaptive_script_unfold. cbn [next_ctx set_events]. rewrite H. reflexivity.
Qed.

(** The page is refused: the exception leaves the call and the context
    stays open. *)
Lemma adaptive_body_pageless s a st x :
  Browsers.br_new_context b (next_ctx st) = Browsers.Replies ->
  Browsers.br_new_page b (next_ctx st) = Browsers.Fails x ->
  Browsers.test_strategy_with_learning_body b w self' s a st
  = (Browsers.Throw x, pageless_entry s (Some a) st).
Proof.
  intros H1 H2. adaptive_script_unfold. cbn [next_ctx set_events]. rewrite H1.
  cbv beta iota. rewrite H2. reflexivity.
Qed.

(** Context and page are there: the call is its [try] statement, started
    where the definitions above start it. *)
Lemma adaptive_body_entered s a st :
  Browsers.br_new_context b (next_ctx st) = Browsers.Replies ->
  Browsers.br_new_page b (next_ctx st) = Browsers.Replies ->
  Browsers.test_strategy_with_learning_body b w self' s a st
  = Browsers.def'
      (Browsers.try_finally'
         (Browsers.try_except'
            (Browsers.try_block b w self' (next_ctx st) s a)
            (fun e => Browsers.lift (AdaptiveSimpleSwapTester.on_exception w (next_ctx st) s a e)))
         (Browsers.close b (next_ctx st)))
      (adaptive_entry s a st).
Proof.
  intros H1 H2. unfold Browsers.test_strategy_with_learning_body.
  cbv beta iota delta [Browsers.def' Browsers.bind' Browsers.new_context Browsers.new_page
                       Browsers.ask].
  rewrite (lift_Ok _ _ _ _ (eq_refl : emit (EvTesting s (Some a)) st = (Ok tt, _))).
  cbv beta iota.
  erewrite (lift_Ok (gets next_ctx)) by reflexivity. cbv beta iota.
  cbn [next_ctx set_events]. rewrite H1.
  erewrite (lift_Ok new_context) by reflexivity. cbv beta iota.
  cbn [next_ctx set_events]. rewrite H2.
  erewrite (lift_Ok (listen _)) by reflexivity.
  reflexivity.
Qed.


End AdaptiveCallCases.

(** *** The recursion of the adaptive script *)

Ltac same_step :=
  match goal with
  | |- same' ?m ?m => apply same'_refl
  | |- same' (Browsers.bind' _ _) (Browsers.bind' _ _) => apply same'_bind; [ | intros ? ]
  | |- same' (Browsers.when' _ _) (Browsers.when' _ _) => apply same'_when; intros ?
  | |- same' (Browsers.def' _) (Browsers.def' _) => apply same'_def
  | |- same' (Browsers.try_except' _ _) (Browsers.try_except' _ _) =>
      apply same'_try_except; [ | intros ? ]
  | |- same' (Browsers.try_finally' _ _) (Browsers.try_finally' _ _) =>
      apply same'_try_finally
  | |- same' (if ?c then _ else _) (if ?c then _ else _) => destruct c
  | |- same' (match ?x with _ => _ end) (match ?x with _ => _ end) => destruct x
  | H : _ -> same' (?f _) (?g _) |- same' (?f _) (?g _) =>
      apply H; apply Nat.ltb_lt; assumption
  end.

Section AdaptiveRecursion.
Variable b : Browsers.Browser.
Variable w : World AdaptiveSimpleSwapTester.Page.

(** The body looks at its recursive call only for [attempt + 1], and only
    under [attempt < 2]. *)
Lemma script_body_same f g s a :
  (a < 2 -> same' (f (a + 1)) (g (a + 1))) ->
  same' (Browsers.test_strategy_with_learning_body b w f s a)
        (Browsers.test_strategy_with_learning_body b w g s a).
Proof.
  intros H.
  unfold Browsers.test_strategy_with_learning_body, Browsers.try_block, Browsers.classify,
    Browsers.no_redirect.
  cbv zeta. repeat (same_step; cbv zeta).
Qed.

(** The function satisfies the recursive equation of the source. *)
Lemma script_call_unfold s a :
  same' (Browsers.test_strategy_with_learning b w s a)
        (Browsers.test_strategy_with_learning_body b w
           (Browsers.test_strategy_with_learning b w s) s a).
Proof.
  unfold Browsers.test_strategy_with_learning at 1.
  destruct (2 - a) as [| d] eqn:D; simpl; apply script_body_same; intros G; [lia | ].
  unfold Browsers.test_strategy_with_learning. replace (2 - (a + 1)) with d by lia.
  apply same'_refl.
Qed.


(** An exception that leaves the [try] block and is an instance of
    [Exception] is recorded; the call ends as the closing of the context
    ends. *)
Lemma adaptive_call_caught s a st e st2 :
  Browsers.br_new_context b (next_ctx st) = Browsers.Replies ->
  Browsers.br_new_page b (next_ctx st) = Browsers.Replies ->
  Browsers.try_block b w (Browsers.test_strategy_with_learning b w s) (next_ctx st) s a
    (adaptive_entry s a st) = (Browsers.Throw (Browsers.AnException e), st2) ->
  exists st' t logs,
    Browsers.test_strategy_with_learning b w s a st
    = (exit_of (Browsers.br_close b (next_ctx st)), st') /\
    results st' = results st2 ++ [adaptive_error_result s a t e logs].
Proof.
  intros H1 H2 E.
  rewrite script_call_unfold, (adaptive_body_entered b w _ s a st H1 H2).
  unfold Browsers.def', Browsers.try_finally', Browsers.try_except'. rewrite E.
  destruct (adaptive_on_exception_appends w s a (next_ctx st) e st2) as
    (t & logs & st3 & (_ & R3 & _) & E3).
  rewrite (lift_Ok _ _ _ _ E3).
  unfold Browsers.close, Browsers.bind', Browsers.lift, Browsers.ask, close, emit, modify.
  cbv beta iota.
  eexists; exists t, logs.
  destruct (Browsers.br_close b (next_ctx st)); (split; [reflexivity | ]);
    simpl; now rewrite R3.
Qed.

(** An exception that is not an instance of [Exception] is not recorded:
    the context is closed and the exception goes on, unless the closing
    raises another. *)
Lemma adaptive_call_uncaught s a st e st2 :
  Browsers.br_new_context b (next_ctx st) = Browsers.Replies ->
  Browsers.br_new_page b (next_ctx st) = Browsers.Replies ->
  Browsers.try_block b w (Browsers.test_strategy_with_learning b w s) (next_ctx st) s a
    (adaptive_entry s a st) = (Browsers.Throw (Browsers.NotAnException e), st2) ->
  exists st',
    Browsers.test_strategy_with_learning b w s a st
    = (match Browsers.br_close b (next_ctx st) with
       | Browsers.Replies => Browsers.Throw (Browsers.NotAnException e)
       | Browsers.Fails x => Browsers.Throw x
       end, st') /\
    results st' = results st2.
Proof.
  intros H1 H2 E.
  rewrite script_call_unfold, (adaptive_body_entered b w _ s a st H1 H2).
  unfold Browsers.def', Browsers.try_finally', Browsers.try_except'. rewrite E.
  unfold Browsers.close, Browsers.bind', Browsers.lift, Browsers.ask, close, emit, modify.
  cbv beta iota.
  eexists. destruct (Browsers.br_close b (next_ctx st)); (split; [reflexivity | ]); reflexivity.
Qed.

(** The task is cancelled at the navigation: nothing is recorded. *)
Lemma adaptive_call_cancelled s a st :
  Browsers.br_new_context b (next_ctx st) = Browsers.Replies ->
  Browsers.br_new_page b (next_ctx st) = Browsers.Replies ->
  Browsers.br_cancelled b (next_ctx st) = true ->
  exists st',
    Browsers.test_strategy_with_learning b w s a st
    = (match Browsers.br_close b (next_ctx st) with
       | Browsers.Replies => Browsers.Throw Browsers.cancelled_error
       | Browsers.Fails x => Browsers.Throw x
       end, st') /\
    results st' = results st.
Proof.
  intros H1 H2 H3.
  destruct (adaptive_call_uncaught s a st ""
              (snd (Browsers.try_block b w (Browsers.test_strategy_with_learning b w s)
                      (next_ctx st) s a (adaptive_entry s a st))) H1 H2)
    as (st' & E & R).
  - unfold Browsers.try_block, Browsers.bind', Browsers.lift, now. cbv beta iota.
    rewrite H3. reflexivity.
  - exists st'. split; [exact E | ]. rewrite R.
    unfold Browsers.try_block, Browsers.bind', Browsers.lift, now. cbv beta iota.
    rewrite H3. reflexivity.
Qed.

Lemma adaptive_call_refused s a st x :
  Browsers.br_new_context b (next_ctx st) = Browsers.Fails x ->
  Browsers.test_strategy_with_learning b w s a st
  = (Browsers.Throw x, set_events (fun evs => evs ++ [EvTesting s (Some a)]) st).
Proof. intros H. rewrite script_call_unfold. now apply adaptive_body_refused. Qed.

Lemma adaptive_call_pageless s a st x :
  Browsers.br_new_context b (next_ctx st) = Browsers.Replies ->
  Browsers.br_new_page b (next_ctx st) = Browsers.Fails x ->
  Browsers.test_strategy_with_learning b w s a st
  = (Browsers.Throw x, pageless_entry s (Some a) st).
Proof. intros H1 H2. rewrite script_call_unfold. now apply adaptive_body_pageless. Qed.


End AdaptiveRecursion.

(** *** The trace of one call of the basic [test_strategy] *)

Lemma steady_reliable : Browsers.reliable Browsers.steady.
Proof. repeat split. Qed.


(** The runs on a browser that answers. *)
Lemma basic_run_reliable b (w : World SimpleSwapTester.Page) strats :
  Browsers.reliable b ->
  exists st' evss t,
    Browsers.run_all_tests b w (tester_with strats) = (Browsers.Fine tt, st') /\
    Forall2 BasicEntry strats (results st') /\
    events st' = concat evss ++ [EvDump ("/tmp/simpleswap_results_" +++ str_int t +++ ".json")] /\
    Forall2 BasicRoundTrace strats evss.
Proof.
  intros HR.
  destruct (run_all_tests_shape w strats) as (st' & evss & t & E & _ & FP & E1 & FQ).
  exists st', evss, t. rewrite (basic_run_transfer w b HR), (lift_Ok _ _ _ _ E). auto.
Qed.

Lemma adaptive_run_reliable b (w : World AdaptiveSimpleSwapTester.Page) strats :
  Browsers.reliable b ->
  exists st' evss t,
    Browsers.run_adaptive_tests b w (tester_with strats) = (Browsers.Fine tt, st') /\
    Forall2 (fun x => AdaptiveEntry (snd x)) (enumerate strats) (results st') /\
    events st' = concat evss ++ [EvDump ("/tmp/adaptive_results_" +++ str_int t +++ ".json")] /\
    Forall2 (AdaptiveRoundTrace (length strats)) (enumerate strats) evss.
Proof.
  intros HR.
  destruct (run_adaptive_tests_shape w strats) as (st' & evss & t & E & _ & FP & E1 & FQ).
  exists st', evss, t. rewrite (adaptive_run_transfer b w HR), (lift_Ok _ _ _ _ E). auto.
Qed.

(** ** Exceptions and contexts, with the operations around the [try] *)

(** C4: an exception that leaves the [try] block of an attempt and is an
    instance of [Exception] is caught by the [except] clause of that
    attempt and recorded as an appended entry with [success] false and the
    exception's [str] in [error].  It is not so for the others.  The
    exceptions of the polling iterations of the adaptive monitoring are
    swallowed where they are raised, and in the basic monitoring only
    those of the element queries leave the loop.  An exception that is
    not an instance of [Exception] (the task is cancelled), and one raised
    by [browser.new_context()] or [context.new_page()], which stand
    before the [try], is not recorded and leaves the per-strategy
    function; so does one raised by [context.close()] in the [finally]
    clause, after the entry was recorded.  When the browser answers all
    those calls and the task is not cancelled, every call returns
    normally with one entry, the loop reaches every strategy, and the run
    function returns normally; when the browser refuses the context of
    the strategy at index [k], the basic run ends there with that
    exception, and only the strategies before are recorded. *)
Theorem exceptions_recorded_by_the_except_clause :
  (* the basic call: context and page are there, the task is not cancelled *)
  (forall b (w : World SimpleSwapTester.Page) s st,
      Browsers.br_new_context b (next_ctx st) = Browsers.Replies ->
      Browsers.br_new_page b (next_ctx st) = Browsers.Replies ->
      Browsers.br_cancelled b (next_ctx st) = false ->
      exists st' r,
        Browsers.test_strategy b w s st = (exit_of (Browsers.br_close b (next_ctx st)), st') /\
        results st' = results st ++ [r] /\
        get "strategy" r = Some (VStr s) /\
        forall e st2,
          SimpleSwapTester.try_block w (next_ctx st) s (basic_entry s st) = (Raise e, st2) ->
          get "success" r = Some (VBool false) /\ get "error" r = Some (VStr e)) /\
  (* the adaptive call: an instance of Exception leaves the try block *)
  (forall b (w : World AdaptiveSimpleSwapTester.Page) s a st e st2,
      Browsers.br_new_context b (next_ctx st) = Browsers.Replies ->
      Browsers.br_new_page b (next_ctx st) = Browsers.Replies ->
      Browsers.try_block b w (Browsers.test_strategy_with_learning b w s) (next_ctx st) s a
        (adaptive_entry s a st) = (Browsers.Throw (Browsers.AnException e), st2) ->
      exists st' r,
        Browsers.test_strategy_with_learning b w s a st
        = (exit_of (Browsers.br_close b (next_ctx st)), st') /\
        results st' = results st2 ++ [r] /\
        get "strategy" r = Some (VStr s) /\
        get "success" r = Some (VBool false) /\ get "error" r = Some (VStr e)) /\
  (* the adaptive call: an exception of another class leaves the try block *)
  (forall b (w : World AdaptiveSimpleSwapTester.Page) s a st e st2,
      Browsers.br_new_context b (next_ctx st) = Browsers.Replies ->
      Browsers.br_new_page b (next_ctx st) = Browsers.Replies ->
      Browsers.try_block b w (Browsers.test_strategy_with_learning b w s) (next_ctx st) s a
        (adaptive_entry s a st) = (Browsers.Throw (Browsers.NotAnException e), st2) ->
      exists st' x,
        Browsers.test_strategy_with_learning b w s a st = (Browsers.Throw x, st') /\
        results st' = results st2) /\
  (* the task is cancelled at the navigation *)
  (forall b (w : World SimpleSwapTester.Page) s st,
      Browsers.br_new_context b (next_ctx st) = Browsers.Replies ->
      Browsers.br_new_page b (next_ctx st) = Browsers.Replies ->
      Browsers.br_cancelled b (next_ctx st) = true ->
      exists st' x,
        Browsers.test_strategy b w s st = (Browsers.Throw x, st') /\
        results st' = results st) /\
  (forall b (w : World AdaptiveSimpleSwapTester.Page) s a st,
      Browsers.br_new_context b (next_ctx st) = Browsers.Replies ->
      Browsers.br_new_page b (next_ctx st) = Browsers.Replies ->
      Browsers.br_cancelled b (next_ctx st) = true ->
      exists st' x,
        Browsers.test_strategy_with_learning b w s a st = (Browsers.Throw x, st') /\
        results st' = results st) /\
  (* the context or the page is refused, before the try *)
  (forall b (w : World SimpleSwapTester.Page) s st x,
      Browsers.br_new_context b (next_ctx st) = Browsers.Fails x \/
      (Browsers.br_new_context b (next_ctx st) = Browsers.Replies /\
       Browsers.br_new_page b (next_ctx st) = Browsers.Fails x) ->
      exists st',
        Browsers.test_strategy b w s st = (Browsers.Throw x, st') /\
        results st' = results st) /\
  (forall b (w : World AdaptiveSimpleSwapTester.Page) s a st x,
      Browsers.br_new_context b (next_ctx st) = Browsers.Fails x \/
      (Browsers.br_new_context b (next_ctx st) = Browsers.Replies /\
       Browsers.br_new_page b (next_ctx st) = Browsers.Fails x) ->
      exists st',
        Browsers.test_strategy_with_learning b w s a st = (Browsers.Throw x, st') /\
        results st' = results st) /\
  (* the exceptions of the monitoring *)
  (forall (w : World AdaptiveSimpleSwapTester.Page) c s st,
      fst (AdaptiveSimpleSwapTester.monitor_loop w c s st) = Ok tt) /\
  (forall (w : World SimpleSwapTester.Page) c st,
      fst (SimpleSwapTester.monitor_loop w c st) = Ok tt <->
      forallb (fun i => queries_answered (SimpleSwapTester.on_monitor (page w c) i)) (seq 0 10)
      = true) /\
  (* a browser that answers, and a task that is not cancelled *)
  (forall b (w : World AdaptiveSimpleSwapTester.Page) s a st,
      Browsers.reliable b ->
      exists st' r,
        Browsers.test_strategy_with_learning b w s a st = (Browsers.Fine tt, st') /\
        results st' = results st ++ [r] /\
        get "strategy" r = Some (VStr s)) /\
  (forall b (w : World SimpleSwapTester.Page) strats,
      Browsers.reliable b ->
      run_completes strats (Browsers.run_all_tests b w (tester_with strats))) /\
  (forall b (w : World AdaptiveSimpleSwapTester.Page) strats,
      Browsers.reliable b ->
      run_completes strats (Browsers.run_adaptive_tests b w (tester_with strats))) /\
  (* the context of the strategy at index k is refused *)
  (forall (w : World SimpleSwapTester.Page) k x strats,
      k < length strats ->
      exists st',
        Browsers.run_all_tests (BrowserScenario.no_context_at k x) w (tester_with strats)
        = (Browsers.Throw x, st') /\
        map (get "strategy") (results st') = map (fun s => Some (VStr s)) (firstn k strats)).
Proof.
  repeat match goal with |- _ /\ _ => split end.
  - intros b w s st H1 H2 H3.
    destruct (test_strategy_call w s st) as (st' & r & E & _ & R & _ & _ & HE).
    exists st', r. rewrite (basic_call_entered b w s st H1 H2 H3), E.
    split; [reflexivity | ]. split; [exact R | ].
    split; [now apply BasicEntry_strategy | ].
    intros e st2 H.
    destruct (test_strategy_raise w s st e st2 H) as (t & st'' & E' & R').
    rewrite E in E'. injection E' as <-. rewrite R in R'.
    apply app_inv_head in R'. injection R' as ->. split; reflexivity.
  - intros b w s a st e st2 H1 H2 H.
    destruct (adaptive_call_caught b w s a st e st2 H1 H2 H) as (st' & t & logs & E & R).
    exists st', (adaptive_error_result s a t e logs). repeat split; assumption.
  - intros b w s a st e st2 H1 H2 H.
    destruct (adaptive_call_uncaught b w s a st e st2 H1 H2 H) as (st' & E & R).
    destruct (Browsers.br_close b (next_ctx st)); eexists; eexists; (split; [exact E | exact R]).
  - intros b w s st H1 H2 H3. rewrite (basic_call_cancelled b w s st H1 H2 H3).
    destruct (Browsers.br_close b (next_ctx st)); eexists; eexists; split; reflexivity.
  - intros b w s a st H1 H2 H3.
    destruct (adaptive_call_cancelled b w s a st H1 H2 H3) as (st' & E & R).
    destruct (Browsers.br_close b (next_ctx st)); eexists; eexists; (split; [exact E | exact R]).
  - intros b w s st x [H | [H1 H2]].
    + rewrite (basic_call_refused b w s st x H). eexists. split; reflexivity.
    + rewrite (basic_call_pageless b w s st x H1 H2). eexists. split; reflexivity.
  - intros b w s a st x [H | [H1 H2]].
    + rewrite (adaptive_call_refused b w s a st x H). eexists. split; reflexivity.
    + rewrite (adaptive_call_pageless b w s a st x H1 H2). eexists. split; reflexivity.
  - intros w c s st. destruct (adaptive_monitor_loop_completes w c s st) as (st' & E & _).
    now rewrite E.
  - intros w c st. apply monitor_loop_outcome.
  - intros b w s a st HR.
    destruct (test_strategy_with_learning_call w s a st) as (st' & r & E & _ & R & HE & _).
    exists st', r. rewrite (adaptive_call_transfer b w HR s a st), (lift_Ok _ _ _ _ E).
    split; [reflexivity | ]. split; [exact R | now apply AdaptiveEntry_strategy].
  - intros b w strats HR.
    destruct (basic_run_reliable b w strats HR) as (st' & evss & t & E & FP & _).
    unfold run_completes. rewrite E. split; [reflexivity | ].
    eapply Forall2_map_eq; [ | exact FP]. intros x r. apply BasicEntry_strategy.
  - intros b w strats HR.
    destruct (adaptive_run_reliable b w strats HR) as (st' & evss & t & E & FP & _).
    unfold run_completes. rewrite E. split; [reflexivity | ]. cbn [snd].
    rewrite <- (enumerate_snd strats) at 1. rewrite map_map.
    eapply Forall2_map_eq; [ | exact FP]. intros x r. apply AdaptiveEntry_strategy.
  - intros w k x strats H.
    destruct (basic_run_aborts w k x strats H) as (st' & E & FP).
    exists st'. split; [exact E | ].
    eapply Forall2_map_eq; [ | exact FP]. intros y r. apply BasicEntry_strategy.
Qed.

(** The buy button never appears and the context does not close: the
    timeout is recorded, and the exception of the closing leaves the
    call.  On a browser that answers, the adaptive run on the same pages
    records its ten strategies. *)
Lemma exceptions_recorded_by_the_except_clause_witness :
  (fst (SimpleSwapTester.try_block (BasicScenario.world_of BasicScenario.timing_out)
          0 "basic" (basic_entry "basic" new_tester))
   = Raise "Timeout 10000ms exceeded." /\
   exists st' r,
     Browsers.test_strategy (BrowserScenario.no_close_at 0 BrowserScenario.closed_browser)
       (BasicScenario.world_of BasicScenario.timing_out) "basic" new_tester
     = (Browsers.Throw BrowserScenario.closed_browser, st') /\
     results st' = [r] /\
     get "success" r = Some (VBool false) /\
     get "error" r = Some (VStr "Timeout 10000ms exceeded.")) /\
  run_completes the_strategies
    (Browsers.run_adaptive_tests Browsers.steady
       (AdaptiveScenario.world_of AdaptiveScenario.timing_out) new_tester).
Proof.
  split.
  - split; [reflexivity | ].
    destruct (proj1 exceptions_recorded_by_the_except_clause
                (BrowserScenario.no_close_at 0 BrowserScenario.closed_browser)
                (BasicScenario.world_of BasicScenario.timing_out) "basic" new_tester
                eq_refl eq_refl eq_refl)
      as (st' & r & E & R & _ & H).
    exists st', r. split; [exact E | ]. split; [exact R | ].
    exact (H "Timeout 10000ms exceeded."
             (snd (SimpleSwapTester.try_block (BasicScenario.world_of BasicScenario.timing_out)
                     0 "basic" (basic_entry "basic" new_tester)))
             eq_refl).
  - exact (proj1 (proj2 (proj2 (proj2 (proj2 (proj2 (proj2 (proj2 (proj2 (proj2 (proj2 (proj2
             exceptions_recorded_by_the_except_clause)))))))))))
             Browsers.steady (AdaptiveScenario.world_of AdaptiveScenario.timing_out)
             the_strategies steady_reliable).
Defined.

(** The browser refuses the fourth context of the basic run, or the task
    is cancelled at the fourth navigation: the exception leaves
    [run_all_tests] and seven strategies are never tried.  And a page of
    the exchange that cannot be queried is recorded as a success by the
    adaptive script, although each of its polling queries raised. *)
Lemma exceptions_leave_the_run :
  ~ run_completes the_strategies
      (Browsers.run_all_tests (BrowserScenario.no_context_at 3 BrowserScenario.closed_browser)
         (BasicScenario.world_of BasicScenario.staying) new_tester) /\
  ~ run_completes the_strategies
      (Browsers.run_all_tests (BrowserScenario.cancelled_at 3)
         (BasicScenario.world_of BasicScenario.staying) new_tester) /\
  ~ polling_errors_recorded (AdaptiveScenario.world_of unreadable) 0
      (results (snd (Browsers.test_strategy_with_learning Browsers.steady
                       (AdaptiveScenario.world_of unreadable) "basic" 1 new_tester))).
Proof.
  split; [ | split].
  - intros [H _]. vm_compute in H. discriminate H.
  - intros [H _]. vm_compute in H. discriminate H.
  - intros H.
    assert (L : 0 < 15) by lia.
    specialize (H 0 "Execution context was destroyed" L eq_refl).
    set (rs := results (snd (Browsers.test_strategy_with_learning Browsers.steady
                               (AdaptiveScenario.world_of unreadable) "basic" 1 new_tester))) in H.
    assert (HI : In (nth 0 rs []) rs) by (vm_compute; left; reflexivity).
    specialize (H _ HI). vm_compute in H. discriminate H.
Qed.




(** ** A run on a tester that already holds results *)

(** On a browser that answers all the calls made around the [try]
    blocks, and with a task that is not cancelled, a run works on the
    tester as it finds it: it leaves the strategies as they are and
    appends to the results, after the entries already there, one entry for
    each strategy, in the order of the strategies.  For the adaptive run
    the entries already there must hold nothing under [console_logs] that
    cannot be iterated (a bool or a number), since [analyze_patterns]
    iterates it: with an entry that holds [True] there, the run ends with
    the TypeError after its second strategy. *)
Theorem runs_append_one_entry_per_strategy :
  (forall b (w : World SimpleSwapTester.Page) st,
     Browsers.reliable b ->
     let st' := snd (Browsers.run_all_tests b w st) in
     strategies st' = strategies st /\
     exists rs, results st' = results st ++ rs /\ Forall2 BasicEntry (strategies st) rs) /\
  (forall b (w : World AdaptiveSimpleSwapTester.Page) st,
     Browsers.reliable b ->
     Forall iterable_logs (results st) ->
     let st' := snd (Browsers.run_adaptive_tests b w st) in
     strategies st' = strategies st /\
     exists rs, results st' = results st ++ rs /\
                Forall2 (fun x => AdaptiveEntry (snd x)) (enumerate (strategies st)) rs) /\
  (let st := set_results (fun _ => [[("console_logs", VBool true)]]) new_tester in
   let r := Browsers.run_adaptive_tests Browsers.steady
              (AdaptiveScenario.world_of AdaptiveScenario.staying) st in
   fst r = Browsers.Throw (Browsers.AnException "'bool' object is not iterable") /\
   length (results (snd r)) = 3).
Proof.
  split; [ | split].
  - intros b w st HR. rewrite (basic_run_transfer w b HR), snd_lift.
    apply basic_run_appends.
  - intros b w st HR HI. rewrite (adaptive_run_transfer b w HR), snd_lift.
    now apply adaptive_run_appends.
  - split; vm_compute; reflexivity.
Qed.

(** A tester that holds one entry made by hand: the adaptive run keeps it
    in front of its ten entries. *)
Lemma runs_append_one_entry_per_strategy_witness :
  let st := set_results (fun _ => [bare_success]) new_tester in
  let st' := snd (Browsers.run_adaptive_tests Browsers.steady
                    (AdaptiveScenario.world_of AdaptiveScenario.staying) st) in
  Forall iterable_logs (results st) /\
  strategies st' = the_strategies /\
  exists rs, results st' = bare_success :: rs /\
             Forall2 (fun x => AdaptiveEntry (snd x)) (enumerate the_strategies) rs.
Proof.
  intros st st'.
  assert (HI : Forall iterable_logs (results st)) by (repeat constructor).
  split; [exact HI | ].
  exact (proj1 (proj2 runs_append_one_entry_per_strategy) Browsers.steady
           (AdaptiveScenario.world_of AdaptiveScenario.staying) st steady_reliable HI).
Defined.
